(** * shell-job-queue: a process-based job queue server

    A shallow embedding of the Go program and the properties its
    specification states about the job execution engine.  The revision
    embedded is the one with the job listing, the log endpoint, staged
    standard input and [JOBS_DIR] (src/unnamed/part_000); of the earlier
    revision src/main.go, the path of a failed spawn is embedded beside it
    ([MainGo]).

    The program is a set of goroutines sharing a file system, the
    [runningJobs] registry and the [queue] channel.  Each source function is
    a function on an explicit [State]; [runJob] is cut at the points where
    another goroutine can observe or change the shared state, and the server
    is the interleaving of these steps ([step], [exec]).

    What lies outside the program is an input of the step that meets it:
    the identifier [uuid.NewString] draws, the time [time.Now] reads,
    whether [cmd.Start] succeeds and with which process identifier, when
    and how [cmd.Wait] returns, what the child writes.  File operations
    fail where the shape of the file system makes them fail (a directory
    in the place of a file, a missing file); faults of the device are not
    modelled, and a write is one step.  The debug output on standard error
    is left out.  A run starts with an empty jobs directory. *)

From Stdlib Require Import ZArith Ascii String Lia Permutation.
From stdpp Require Import base option list strings gmap.

(** ** time.Time *)

(** An instant (seconds and nanoseconds since the Unix epoch) together with
    the offset east of UTC of the zone it is presented in. *)
Record Time := mkTime { t_sec : Z; t_nsec : Z; t_offset : Z }.

(** [time.Time{}]: January 1, year 1, 00:00:00 UTC. *)
Definition zeroTime : Time := mkTime (-62135596800) 0 0.

Definition digit (n : Z) : ascii := ascii_of_nat (48 + Z.to_nat (n mod 10)).

Fixpoint utoa (fuel : nat) (n : Z) (acc : string) : string :=
  match fuel with
  | O => acc
  | S f =>
      let acc' := String (digit n) acc in
      if (n <? 10)%Z then acc' else utoa f (n / 10)%Z acc'
  end.

Fixpoint zeros (k : nat) : string :=
  match k with O => EmptyString | S k' => String "0"%char (zeros k') end.

(** [appendInt] of package time: decimal text, zero-padded to [width]. *)
Definition appendInt (x : Z) (width : nat) : string :=
  let u := Z.abs x in
  let s := utoa (S (Z.to_nat (Z.log2 u))) u EmptyString in
  ((if (x <? 0)%Z then "-" else EmptyString) +:+ zeros (width - String.length s) +:+ s)%string.

(** Proleptic Gregorian date of a day number counted from 1970-01-01. *)
Definition civil (day : Z) : Z * Z * Z :=
  let z := (day + 719468)%Z in
  let era := (z / 146097)%Z in
  let doe := (z - era * 146097)%Z in
  let yoe := ((doe - doe / 1460 + doe / 36524 - doe / 146096) / 365)%Z in
  let doy := (doe - (365 * yoe + yoe / 4 - yoe / 100))%Z in
  let mp := ((5 * doy + 2) / 153)%Z in
  let d := (doy - (153 * mp + 2) / 5 + 1)%Z in
  let m := (if (mp <? 10)%Z then mp + 3 else mp - 9)%Z in
  let y := (yoe + era * 400 + (if (m <=? 2)%Z then 1 else 0))%Z in
  (y, m, d).

(** The zone suffix of the layout element [Z07:00]. *)
Definition zoneSuffix (offset : Z) : string :=
  if (offset =? 0)%Z then "Z"%string
  else
    let zone := Z.quot offset 60 in
    let a := Z.abs zone in
    ((if (zone <? 0)%Z then "-" else "+")
       +:+ appendInt (a / 60) 2 +:+ ":" +:+ appendInt (a mod 60) 2)%string.

Definition dateTime (t : Time) : string :=
  let loc := (t_sec t + t_offset t)%Z in
  let sod := (loc mod 86400)%Z in
  let '(y, m, d) := civil (loc / 86400)%Z in
  (appendInt y 4 +:+ "-" +:+ appendInt m 2 +:+ "-" +:+ appendInt d 2 +:+ "T"
     +:+ appendInt (sod / 3600) 2 +:+ ":" +:+ appendInt (sod / 60 mod 60) 2
     +:+ ":" +:+ appendInt (sod mod 60) 2)%string.

(** [t.Format(time.RFC3339)]: whole seconds, layout
    [2006-01-02T15:04:05Z07:00]. *)
Definition Format_RFC3339 (t : Time) : string :=
  (dateTime t +:+ zoneSuffix (t_offset t))%string.

Fixpoint trimZeros (s : string) : string :=
  match s with
  | EmptyString => EmptyString
  | String c r =>
      match trimZeros r with
      | EmptyString => if Ascii.eqb c "0"%char then EmptyString else String c EmptyString
      | r' => String c r'
      end
  end.

Fixpoint fixedDigits (width : nat) (n : Z) (acc : string) : string :=
  match width with
  | O => acc
  | S w => fixedDigits w (n / 10)%Z (String (digit n) acc)
  end.

Definition fraction (nsec : Z) : string :=
  match trimZeros (fixedDigits 9 nsec EmptyString) with
  | EmptyString => EmptyString
  | f => String "."%char f
  end.

(** [time.RFC3339Nano], the text [Time.MarshalJSON] writes. *)
Definition Format_RFC3339Nano (t : Time) : string :=
  (dateTime t +:+ fraction (t_nsec t) +:+ zoneSuffix (t_offset t))%string.

(** Go compares strings bytewise: [a > b]. *)
Definition string_gt (a b : string) : bool :=
  match String.compare a b with Gt => true | _ => false end.


(** ** encoding/json *)

#[local] Set Warnings "-register-all".


(** The part of package encoding/json the program uses, on JSON texts
    after scanning, following the package documentation: object keys are
    matched to the [json] tags of the struct ignoring case and unknown keys
    are skipped; [null] leaves a field as it is; a value that does not fit
    its field is skipped and reported as an [UnmarshalTypeError] once the
    rest has been decoded; a value that [Time.UnmarshalJSON] rejects ends
    decoding; text that is not well-formed JSON is rejected before anything
    is stored.

    [JTime t] is a string holding the RFC 3339 text of [t]; [JStr] is any
    other string; [JNum] is an integer literal and [JFloat] a literal with
    a fraction or an exponent. *)
Inductive json :=
| JNull
| JBool (b : bool)
| JNum (n : Z)
| JFloat
| JStr (s : string)
| JTime (t : Time)
| JArr (l : list json)
| JObj (kvs : list (string * json)).

(** What a file holds: the text of a JSON value, or bytes that are not
    well-formed JSON (captured output, staged input, a torn record). *)
Inductive content :=
| Json (j : json)
| Bytes (b : list Byte.byte).

Inductive json_error :=
| SyntaxError
| UnmarshalTypeError
| TimeParseError.

Record JobMeta := mkJobMeta {
  ID : string;
  Args : list string;
  MimeType : string;
  Webhook : string;
  Status : string;
  PID : Z;
  EnqueuedAt : Time;
  StartedAt : Time;
  CompletedAt : Time
}.

(** [var meta JobMeta] *)
Definition zeroMeta : JobMeta :=
  mkJobMeta EmptyString [] EmptyString EmptyString EmptyString 0 zeroTime zeroTime zeroTime.

Definition set_ID (v : string) (m : JobMeta) : JobMeta :=
  mkJobMeta v (Args m) (MimeType m) (Webhook m) (Status m) (PID m)
    (EnqueuedAt m) (StartedAt m) (CompletedAt m).
Definition set_Args (v : list string) (m : JobMeta) : JobMeta :=
  mkJobMeta (ID m) v (MimeType m) (Webhook m) (Status m) (PID m)
    (EnqueuedAt m) (StartedAt m) (CompletedAt m).
Definition set_MimeType (v : string) (m : JobMeta) : JobMeta :=
  mkJobMeta (ID m) (Args m) v (Webhook m) (Status m) (PID m)
    (EnqueuedAt m) (StartedAt m) (CompletedAt m).
Definition set_Webhook (v : string) (m : JobMeta) : JobMeta :=
  mkJobMeta (ID m) (Args m) (MimeType m) v (Status m) (PID m)
    (EnqueuedAt m) (StartedAt m) (CompletedAt m).
Definition set_Status (v : string) (m : JobMeta) : JobMeta :=
  mkJobMeta (ID m) (Args m) (MimeType m) (Webhook m) v (PID m)
    (EnqueuedAt m) (StartedAt m) (CompletedAt m).
Definition set_PID (v : Z) (m : JobMeta) : JobMeta :=
  mkJobMeta (ID m) (Args m) (MimeType m) (Webhook m) (Status m) v
    (EnqueuedAt m) (StartedAt m) (CompletedAt m).
Definition set_EnqueuedAt (v : Time) (m : JobMeta) : JobMeta :=
  mkJobMeta (ID m) (Args m) (MimeType m) (Webhook m) (Status m) (PID m)
    v (StartedAt m) (CompletedAt m).
Definition set_StartedAt (v : Time) (m : JobMeta) : JobMeta :=
  mkJobMeta (ID m) (Args m) (MimeType m) (Webhook m) (Status m) (PID m)
    (EnqueuedAt m) v (CompletedAt m).
Definition set_CompletedAt (v : Time) (m : JobMeta) : JobMeta :=
  mkJobMeta (ID m) (Args m) (MimeType m) (Webhook m) (Status m) (PID m)
    (EnqueuedAt m) (StartedAt m) v.

(** Go's [int] on the 64-bit platforms the server is built for. *)
Definition minInt : Z := (- 2 ^ 63)%Z.
Definition maxInt : Z := (2 ^ 63 - 1)%Z.
Definition fitsInt (n : Z) : bool := ((minInt <=? n) && (n <=? maxInt))%Z.

(** *** Marshal *)

(** [omitempty] drops a field holding its zero value; it has no effect on
    the [time.Time] fields, which are structs.  A nil slice is written as
    [null]; the list [[]] stands for the nil slice, which is what a
    submission without [args] leaves in the record. *)
Definition omitempty (k : string) (empty : bool) (v : json) : list (string * json) :=
  if empty then [] else [(k, v)].

Definition marshalArgs (a : list string) : json :=
  match a with [] => JNull | _ => JArr (JStr <$> a) end.

Definition marshalMeta (m : JobMeta) : json :=
  JObj ([("id", JStr (ID m)); ("args", marshalArgs (Args m))]
        ++ omitempty "mime_type" (String.eqb (MimeType m) EmptyString) (JStr (MimeType m))
        ++ omitempty "webhook" (String.eqb (Webhook m) EmptyString) (JStr (Webhook m))
        ++ [("status", JStr (Status m))]
        ++ omitempty "pid" (PID m =? 0)%Z (JNum (PID m))
        ++ [("enqueued_at", JTime (EnqueuedAt m));
            ("started_at", JTime (StartedAt m));
            ("completed_at", JTime (CompletedAt m))]).

(** [json.MarshalIndent] of a record whose strings are UTF-8 and whose
    times [Time.MarshalJSON] accepts (years 0 to 9999, an offset of whole
    minutes), as the records of a server with a fixed command in UTF-8
    are: they are written as they are.  For other records the call fails or alters what it writes, which
    is not modelled. *)
Definition json_MarshalIndent (m : JobMeta) : content := Json (marshalMeta m).

(** *** Unmarshal *)

(** The outcome of storing one JSON value into one field: stored or left
    alone without complaint; a type mismatch, which is remembered while
    decoding goes on; or an error of the field's own [UnmarshalJSON], which
    stops decoding at once. *)
Inductive store_result := Stored | Mismatch | Fatal.

Definition storeString (j : json) (cur : string) : string * store_result :=
  match j with
  | JStr s => (s, Stored)
  | JTime t => (Format_RFC3339Nano t, Stored)
  | JNull => (cur, Stored)
  | _ => (cur, Mismatch)
  end.

Definition storeInt (j : json) (cur : Z) : Z * store_result :=
  match j with
  | JNum n => if fitsInt n then (n, Stored) else (cur, Mismatch)
  | JNull => (cur, Stored)
  | _ => (cur, Mismatch)
  end.

Definition storeTime (j : json) (cur : Time) : Time * store_result :=
  match j with
  | JTime t => (t, Stored)
  | JNull => (cur, Stored)
  | _ => (cur, Fatal)
  end.

Definition worse (a b : store_result) : store_result :=
  match a with Stored => b | _ => a end.

(** A JSON array stored into a [[]string]: every element is stored into a
    fresh string; [null] resets the slice to nil. *)
Definition storeStrings (j : json) (cur : list string) : list string * store_result :=
  match j with
  | JArr l =>
      (fst <$> ((fun e => storeString e EmptyString) <$> l),
       foldr worse Stored (snd <$> ((fun e => storeString e EmptyString) <$> l)))
  | JNull => ([], Stored)
  | _ => (cur, Mismatch)
  end.

Definition lowerAscii (c : ascii) : ascii :=
  let n := nat_of_ascii c in
  if (65 <=? n)%nat && (n <=? 90)%nat then ascii_of_nat (n + 32) else c.

(** [foldName]: two names match when they are equal after folding, which
    is [bytes.EqualFold].  A name that matches one of the tags of
    [JobMeta], which are ASCII, consists of ASCII letters in either case
    and of the two other characters that fold to an ASCII letter: U+017F
    (long s, bytes C5 BF) and U+212A (Kelvin sign, bytes E2 84 AA). *)
Fixpoint foldName (s : string) : string :=
  match s with
  | EmptyString => EmptyString
  | String c r =>
      match nat_of_ascii c, r with
      | 197, String c1 r1 =>
          if (nat_of_ascii c1 =? 191)%nat then String "s"%char (foldName r1)
          else String c (foldName r)
      | 226, String c1 (String c2 r2) =>
          if ((nat_of_ascii c1 =? 132) && (nat_of_ascii c2 =? 170))%nat
          then String "k"%char (foldName r2)
          else String c (foldName r)
      | _, _ => String (lowerAscii c) (foldName r)
      end
  end.

(** One member of a JSON object stored into the struct.  Keys are matched
    to the [json] tags without regard to case; unknown keys are skipped. *)
Definition storeField (k : string) (v : json) (m : JobMeta) : JobMeta * store_result :=
  let f := foldName k in
  if String.eqb f "id" then
    let '(x, r) := storeString v (ID m) in (set_ID x m, r)
  else if String.eqb f "args" then
    let '(x, r) := storeStrings v (Args m) in (set_Args x m, r)
  else if String.eqb f "mime_type" then
    let '(x, r) := storeString v (MimeType m) in (set_MimeType x m, r)
  else if String.eqb f "webhook" then
    let '(x, r) := storeString v (Webhook m) in (set_Webhook x m, r)
  else if String.eqb f "status" then
    let '(x, r) := storeString v (Status m) in (set_Status x m, r)
  else if String.eqb f "pid" then
    let '(x, r) := storeInt v (PID m) in (set_PID x m, r)
  else if String.eqb f "enqueued_at" then
    let '(x, r) := storeTime v (EnqueuedAt m) in (set_EnqueuedAt x m, r)
  else if String.eqb f "started_at" then
    let '(x, r) := storeTime v (StartedAt m) in (set_StartedAt x m, r)
  else if String.eqb f "completed_at" then
    let '(x, r) := storeTime v (CompletedAt m) in (set_CompletedAt x m, r)
  else (m, Stored).

(** The members in document order.  [saved] is the first type mismatch
    seen so far. *)
Fixpoint storeObject (kvs : list (string * json)) (m : JobMeta)
    (saved : option json_error) : JobMeta * option json_error :=
  match kvs with
  | [] => (m, saved)
  | (k, v) :: rest =>
      match storeField k v m with
      | (m', Stored) => storeObject rest m' saved
      | (m', Mismatch) =>
          storeObject rest m'
            (match saved with None => Some UnmarshalTypeError | _ => saved end)
      | (m', Fatal) => (m', Some TimeParseError)
      end
  end.

(** [json.Unmarshal(data, &meta)]: the record after the call and the error
    returned.  Bytes that are not well-formed JSON are rejected before the
    target is touched. *)
Definition json_Unmarshal (data : content) (m : JobMeta) : JobMeta * option json_error :=
  match data with
  | Bytes _ => (m, Some SyntaxError)
  | Json (JObj kvs) => storeObject kvs m None
  | Json JNull => (m, None)
  | Json _ => (m, Some UnmarshalTypeError)
  end.

(** ** The file system *)

(** A cleaned path as its components: [filepath.Join(a, b, c)] is
    [[a; b; c]] and the empty path is [[]].  Job identifiers are UUIDs and
    carry no separator.  A directory is a node of its own, so that an empty
    job directory can be listed. *)
Inductive node :=
| Dir
| File (c : content).

Abbreviation FS := (gmap (list string) node).

Definition os_ReadFile (fs : FS) (p : list string) : option content :=
  match fs !! p with
  | Some (File c) => Some c
  | _ => None
  end.

(** [os.WriteFile]: create or truncate, then write; fails on a directory.
    The parent directory is taken to be there, as it is where the server
    writes: [os.MkdirAll] has made the job directory, and the temporary
    directory exists. *)
Definition os_WriteFile (fs : FS) (p : list string) (c : content) : FS :=
  match fs !! p with
  | Some Dir => fs
  | _ => <[p := File c]> fs
  end.

Definition os_Create (fs : FS) (p : list string) : FS :=
  os_WriteFile fs p (Bytes []).

Definition os_Remove (fs : FS) (p : list string) : FS :=
  match fs !! p with
  | Some (File _) => delete p fs
  | _ => fs
  end.

Definition os_Stat (fs : FS) (p : list string) : bool :=
  match fs !! p with Some _ => true | None => false end.

(** [os.Open] succeeds on an existing file. *)
Definition os_Open (fs : FS) (p : list string) : bool :=
  match fs !! p with Some (File _) => true | _ => false end.

Fixpoint mkdirFrom (pre rest : list string) (fs : FS) : FS :=
  match rest with
  | [] => fs
  | c :: r =>
      match fs !! (pre ++ [c]) with
      | Some (File _) => fs
      | _ => mkdirFrom (pre ++ [c]) r (<[pre ++ [c] := Dir]> fs)
      end
  end.

Definition os_MkdirAll (fs : FS) (p : list string) : FS := mkdirFrom [] p fs.

(** The file is there and holds captured bytes. *)
Definition isOutput (fs : FS) (p : list string) : bool :=
  match fs !! p with Some (File (Bytes _)) => true | _ => false end.

(** What a child process does with one of its output descriptors. *)
Definition appendBytes (fs : FS) (p : list string) (bs : list Byte.byte) : FS :=
  match fs !! p with
  | Some (File (Bytes b)) => <[p := File (Bytes (b ++ bs))]> fs
  | _ => fs
  end.

(** *** sort.Slice *)

(** The insertion sort package sort runs on slices of up to twelve
    elements: each element in turn moves left while it is [less] than its
    left neighbour.  The sorted prefix is kept reversed.  Longer slices are
    sorted by a quicksort that reaches an order with the same property: no
    element is [less] than the one before it. *)
Fixpoint insertLeft {A} (less : A -> A -> bool) (x : A) (revPrefix : list A) : list A :=
  match revPrefix with
  | [] => [x]
  | y :: r => if less x y then y :: insertLeft less x r else x :: y :: r
  end.

Definition sort_Slice {A} (less : A -> A -> bool) (l : list A) : list A :=
  reverse (foldl (fun acc x => insertLeft less x acc) [] l).

Definition string_lt (a b : string) : bool :=
  match String.compare a b with Lt => true | _ => false end.

Fixpoint childOf (dir p : list string) : option string :=
  match dir, p with
  | [], [name] => Some name
  | d :: dir', c :: p' => if String.eqb d c then childOf dir' p' else None
  | _, _ => None
  end.

Definition isDir (n : node) : bool :=
  match n with Dir => true | File _ => false end.

(** [os.ReadDir]: the entries of a directory, sorted by file name. *)
Definition os_ReadDir (fs : FS) (dir : list string) : option (list (string * bool)) :=
  match fs !! dir with
  | Some Dir =>
      Some (sort_Slice (fun a b => string_lt a.1 b.1)
              (omap (fun pn => (fun name => (name, isDir pn.2)) <$> childOf dir pn.1)
                    (map_to_list fs)))
  | _ => None
  end.

(** ** HTTP *)

Record JobEntry := mkJobEntry {
  e_ID : string;
  e_Args : list string;
  e_Status : string;
  e_ResultURL : string;
  e_LogURL : string;
  e_EnqueuedAt : string
}.

Inductive Response :=
| Error (msg : string) (code : Z)          (* http.Error *)
| WriteHeader (code : Z)
| EncodeMeta (m : JobMeta)                 (* json.NewEncoder(w).Encode(meta) *)
| EncodeMap (kv : gmap string string)
| EncodeJobs (l : list JobEntry)
| ServeContent (c : content).              (* 200 with the bytes of a file *)

Definition StatusOK : Z := 200.
Definition StatusBadRequest : Z := 400.
Definition StatusNotFound : Z := 404.
Definition StatusInternalServerError : Z := 500.

Definition http_NotFound : Response := Error "404 page not found" StatusNotFound.

(** [http.ServeFile] for a plain GET of a regular file: 200 with the
    bytes, or 404 when there is no such file.  The request is not an
    argument: what the call does for another method, for a request path
    that ends in [/index.html] or holds [..], and for range and conditional
    headers is not modelled, and what is stated about served bytes is
    stated for a GET of the exact path. *)
Definition http_ServeFile (fs : FS) (p : list string) : Response :=
  match os_ReadFile fs p with
  | Some c => ServeContent c
  | None => http_NotFound
  end.

(** An [http.Post] call. *)
Record Post := mkPost {
  p_url : string;
  p_contentType : string;
  p_payload : gmap string string
}.

(** The body of a submission as [submitJob] sees it: what [dec.Decode]
    yields ([None] when it fails) and what [io.ReadAll(r.Body)] returns
    after it. *)
Record SubmitReq := mkSubmitReq {
  req_Args : list string;
  req_MimeType : string;
  req_Webhook : string
}.

Record Request := mkRequest {
  r_decoded : option SubmitReq;
  r_remaining : list Byte.byte
}.

(** ** The server state *)

(** Where the goroutine that owns a job stands. *)
Inductive PC :=
| PcSend                  (* submitJob: record saved, about to send on queue *)
| PcQueued                (* in the channel *)
| PcSpawn                 (* runJob entered *)
| PcRegister              (* started; IN_PROGRESS saved *)
| PcWait                  (* registered; inside cmd.Wait() *)
| PcUnregister (err : bool) (* Wait returned err; CompletedAt set *)
| PcCleanup (err : bool)  (* removed from the registry *)
| PcResolve (err : bool)  (* output closed, staged input removed *)
| PcNotify                (* terminal status saved *)
| PcDone.

(** A job: the [*JobMeta] that [submitJob] allocates, and the locals of the
    goroutine that runs it.  The object is addressed by the job's
    identifier. *)
Record Job := mkJob {
  j_meta : JobMeta;
  j_inputFilePath : list string;
  j_pc : PC;
  j_canceled : bool;            (* ctx.Err() == context.Canceled *)
  j_stdin : option (list string); (* cmd.Stdin *)
  j_process : option Z          (* cmd.Process.Pid *)
}.

(** The three fields point into the job named. *)
Record RunningJob := mkRunningJob {
  Cmd : string;
  Meta : string;
  Cancel : string
}.

Record State := mkState {
  fs : gmap (list string) node;
  jobs : gmap string Job;
  queue : list (string * list string);  (* chan *queuedJob *)
  runningJobs : gmap string RunningJob;
  webhooks : list string;               (* sendWebhook goroutines yet to run *)
  posts : list Post;
  crashed : bool                        (* an unrecovered panic ended the process *)
}.

Definition queueCapacity : nat := 100.

Definition init : State := mkState ∅ ∅ [] ∅ [] [] false.

Definition set_fs (v : gmap (list string) node) (s : State) : State :=
  mkState v (jobs s) (queue s) (runningJobs s) (webhooks s) (posts s) (crashed s).
Definition set_jobs (v : gmap string Job) (s : State) : State :=
  mkState (fs s) v (queue s) (runningJobs s) (webhooks s) (posts s) (crashed s).
Definition set_queue (v : list (string * list string)) (s : State) : State :=
  mkState (fs s) (jobs s) v (runningJobs s) (webhooks s) (posts s) (crashed s).
Definition set_runningJobs (v : gmap string RunningJob) (s : State) : State :=
  mkState (fs s) (jobs s) (queue s) v (webhooks s) (posts s) (crashed s).
Definition set_webhooks (v : list string) (s : State) : State :=
  mkState (fs s) (jobs s) (queue s) (runningJobs s) v (posts s) (crashed s).
Definition set_posts (v : list Post) (s : State) : State :=
  mkState (fs s) (jobs s) (queue s) (runningJobs s) (webhooks s) v (crashed s).
Definition set_crashed (v : bool) (s : State) : State :=
  mkState (fs s) (jobs s) (queue s) (runningJobs s) (webhooks s) (posts s) v.

Definition set_meta (v : JobMeta) (j : Job) : Job :=
  mkJob v (j_inputFilePath j) (j_pc j) (j_canceled j) (j_stdin j) (j_process j).
Definition set_inputFilePath (v : list string) (j : Job) : Job :=
  mkJob (j_meta j) v (j_pc j) (j_canceled j) (j_stdin j) (j_process j).
Definition set_pc (v : PC) (j : Job) : Job :=
  mkJob (j_meta j) (j_inputFilePath j) v (j_canceled j) (j_stdin j) (j_process j).
Definition set_canceled (v : bool) (j : Job) : Job :=
  mkJob (j_meta j) (j_inputFilePath j) (j_pc j) v (j_stdin j) (j_process j).
Definition set_stdin (v : option (list string)) (j : Job) : Job :=
  mkJob (j_meta j) (j_inputFilePath j) (j_pc j) (j_canceled j) v (j_process j).
Definition set_process (v : option Z) (j : Job) : Job :=
  mkJob (j_meta j) (j_inputFilePath j) (j_pc j) (j_canceled j) (j_stdin j) v.

Definition put_job (id : string) (j : Job) (s : State) : State :=
  set_jobs (<[id := j]> (jobs s)) s.

Definition getenv (env : gmap string string) (k : string) : string :=
  default EmptyString (env !! k).

(** ** The source functions *)

Section Server.

(** The process environment ([os.Getenv]) and the fixed command prefix
    ([os.Args[1:]]), both set when the server starts. *)
Variable env : gmap string string.
Variable fixedArgs : list string.

Definition getJobsDir : string :=
  let dir := getenv env "JOBS_DIR" in
  if String.eqb dir EmptyString then "jobs"%string else dir.

Definition os_TempDir : string :=
  let dir := getenv env "TMPDIR" in
  if String.eqb dir EmptyString then "/tmp"%string else dir.

Definition metaPath (id : string) : list string := [getJobsDir; id; "meta.json"%string].
Definition stdoutPath (id : string) : list string := [getJobsDir; id; "stdout.txt"%string].
Definition stderrPath (id : string) : list string := [getJobsDir; id; "stderr.txt"%string].

Definition saveMeta (meta : JobMeta) (s : State) : State :=
  set_fs (os_WriteFile (fs s) (metaPath (ID meta)) (json_MarshalIndent meta)) s.

(** [None] is the error of [os.ReadFile]; the error of [json.Unmarshal] is
    dropped. *)
Definition loadMeta (fs : FS) (id : string) : option JobMeta :=
  match os_ReadFile fs (metaPath id) with
  | None => None
  | Some data => Some (json_Unmarshal data zeroMeta).1
  end.

Definition webhookPayload (meta : JobMeta) : gmap string string :=
  {[ "id"%string := ID meta;
     "status"%string := Status meta;
     "result_url"%string := ("/jobs/" +:+ ID meta +:+ "/result")%string ]}.

Definition sendWebhook (meta : JobMeta) (s : State) : State :=
  set_posts (posts s ++ [mkPost (Webhook meta) "application/json" (webhookPayload meta)]) s.

(** *** submitJob *)

Definition withBase (baseURL p : string) : string :=
  if String.eqb baseURL EmptyString then p else (baseURL +:+ p)%string.

(** The reply, built after the job has been put on the queue. *)
Definition submitJob_reply (id : string) : Response :=
  let baseURL := getenv env "BASE_URL" in
  EncodeMap
    {[ "id"%string := id;
       "status_url"%string := withBase baseURL ("/jobs/" +:+ id +:+ "/status");
       "result_url"%string := withBase baseURL ("/jobs/" +:+ id +:+ "/result");
       "log_url"%string := withBase baseURL ("/jobs/" +:+ id +:+ "/log") ]}.

Definition inputPath (id : string) : list string :=
  [os_TempDir; ("input-" +:+ id +:+ ".tmp")%string].

(** Up to the send on [queue]: decode, make the job directory, stage the
    rest of the body, save the record.  [id] is what [uuid.NewString]
    returns and [now] what [time.Now] returns. *)
Definition submitJob_accept (r : Request) (id : string) (now : Time) (s : State)
  : State * option Response :=
  match r_decoded r with
  | None => (s, Some (Error "Invalid JSON" StatusBadRequest))
  | Some req =>
      let fs1 := os_MkdirAll (fs s) [getJobsDir; id] in
      let inputFilePath :=
        match r_remaining r with [] => [] | _ => inputPath id end in
      let fs2 :=
        match r_remaining r with
        | [] => fs1
        | remaining => os_WriteFile fs1 (inputPath id) (Bytes remaining)
        end in
      let args :=
        match fixedArgs with
        | [] => req_Args req
        | _ => fixedArgs ++ req_Args req
        end in
      let meta :=
        mkJobMeta id args (req_MimeType req) (req_Webhook req) "IN_QUEUE" 0
          now zeroTime zeroTime in
      let s1 := saveMeta meta (set_fs fs2 s) in
      (put_job id (mkJob meta inputFilePath PcSend false None None) s1, None)
  end.

(** [queue <- &queuedJob{...}]: blocks while the buffer is full. *)
Definition submitJob_send (id : string) (s : State) : option State :=
  match jobs s !! id with
  | Some j =>
      match j_pc j with
      | PcSend =>
          if (length (queue s) <? queueCapacity)%nat
          then Some (put_job id (set_pc PcQueued j)
                       (set_queue (queue s ++ [(id, j_inputFilePath j)]) s))
          else None
      | _ => None
      end
  | None => None
  end.

(** *** jobHandler *)

(** [job.Cancel()] *)
Definition cancelCtx (id : string) (s : State) : State :=
  match jobs s !! id with
  | Some j => put_job id (set_canceled true j) s
  | None => s
  end.

(** [parts] is the request path after [/jobs/], split at the slashes. *)
Definition jobHandler (method : string) (parts : list string) (s : State)
  : State * Response :=
  match parts with
  | id :: endpoint :: _ =>
      if String.eqb endpoint "status" then
        match loadMeta (fs s) id with
        | None => (s, Error "Job not found" StatusNotFound)
        | Some meta => (s, EncodeMeta meta)
        end
      else if String.eqb endpoint "result" then
        match loadMeta (fs s) id with
        | None => (s, Error "Result not available" StatusNotFound)
        | Some meta =>
            if negb (String.eqb (Status meta) "COMPLETED")
            then (s, Error "Result not available" StatusNotFound)
            else (s, http_ServeFile (fs s) (stdoutPath id))
        end
      else if String.eqb endpoint "log" then
        if os_Stat (fs s) (stderrPath id)
        then (s, http_ServeFile (fs s) (stderrPath id))
        else (s, Error "Log not available" StatusNotFound)
      else if String.eqb endpoint "cancel" then
        if negb (String.eqb method "PUT") then (s, http_NotFound)
        else
          (match runningJobs s !! id with
           | Some job => cancelCtx (Cancel job) s
           | None => s
           end, WriteHeader StatusOK)
      else (s, http_NotFound)
  | _ => (s, http_NotFound)
  end.

(** *** workerLoop *)

(** One iteration: receive from [queue] and [go runJob(...)]. *)
Definition workerLoop (s : State) : option State :=
  match queue s with
  | [] => None
  | (id, inputFilePath) :: rest =>
      match jobs s !! id with
      | Some j =>
          Some (put_job id (set_pc PcSpawn (set_inputFilePath inputFilePath j))
                  (set_queue rest s))
      | None => None
      end
  end.

(** *** runJob *)

(** What [cmd.Start()] returns, with the process identifier on success. *)
Inductive StartResult :=
| StartError
| Started (pid : Z).

Definition atPC (id : string) (s : State) : option (Job * PC) :=
  match jobs s !! id with
  | Some j => Some (j, j_pc j)
  | None => None
  end.

(** From the entry to the first [saveMeta].  An empty argument vector makes
    [meta.Args[0]] panic, which ends the process. *)
Definition runJob_start (id : string) (r : StartResult) (now : Time) (s : State)
  : option State :=
  match atPC id s with
  | Some (j, PcSpawn) =>
      let meta := j_meta j in
      match Args meta with
      | [] => Some (set_crashed true s)
      | _ =>
          let fs1 := os_Create (os_Create (fs s) (stdoutPath (ID meta))) (stderrPath (ID meta)) in
          let stdin :=
            match j_inputFilePath j with
            | [] => None
            | p => if os_Open fs1 p then Some p else None
            end in
          let s1 := set_fs fs1 s in
          match r with
          | StartError =>
              let meta1 := set_Status "FAILED" meta in
              let meta2 := set_StartedAt now meta1 in
              let meta3 := set_CompletedAt (StartedAt meta2) meta2 in
              Some (put_job id (set_pc PcDone (set_stdin stdin (set_meta meta3 j)))
                      (saveMeta meta3 s1))
          | Started pid =>
              if ((0 <? pid) && (pid <=? maxInt))%Z then
                let meta1 := set_PID pid meta in
                let meta2 := set_Status "IN_PROGRESS" meta1 in
                let meta3 := set_StartedAt now meta2 in
                Some (put_job id
                        (set_pc PcRegister
                           (set_process (Some pid) (set_stdin stdin (set_meta meta3 j))))
                        (saveMeta meta3 s1))
              else None
          end
      end
  | _ => None
  end.

(** [runningJobs[meta.ID] = &RunningJob{...}] under [mu]. *)
Definition runJob_register (id : string) (s : State) : option State :=
  match atPC id s with
  | Some (j, PcRegister) =>
      Some (put_job id (set_pc PcWait j)
              (set_runningJobs
                 (<[ID (j_meta j) := mkRunningJob id id id]> (runningJobs s)) s))
  | _ => None
  end.

(** [cmd.Wait()] returns, with an error or without; [meta.CompletedAt =
    time.Now()]. *)
Definition runJob_wait (id : string) (err : bool) (now : Time) (s : State)
  : option State :=
  match atPC id s with
  | Some (j, PcWait) =>
      Some (put_job id
              (set_pc (PcUnregister err) (set_meta (set_CompletedAt now (j_meta j)) j)) s)
  | _ => None
  end.

(** [delete(runningJobs, meta.ID)] under [mu]. *)
Definition runJob_unregister (id : string) (s : State) : option State :=
  match atPC id s with
  | Some (j, PcUnregister err) =>
      Some (put_job id (set_pc (PcCleanup err) j)
              (set_runningJobs (delete (ID (j_meta j)) (runningJobs s)) s))
  | _ => None
  end.

(** Close the output files; remove the staged input. *)
Definition runJob_cleanup (id : string) (s : State) : option State :=
  match atPC id s with
  | Some (j, PcCleanup err) =>
      let fs1 :=
        match j_inputFilePath j with
        | [] => fs s
        | p => os_Remove (fs s) p
        end in
      Some (put_job id (set_pc (PcResolve err) j) (set_fs fs1 s))
  | _ => None
  end.

Definition resolveStatus (canceled err : bool) : string :=
  if canceled then "CANCELED"%string
  else if err then "FAILED"%string
  else "COMPLETED"%string.

(** The terminal status and the last [saveMeta]. *)
Definition runJob_resolve (id : string) (s : State) : option State :=
  match atPC id s with
  | Some (j, PcResolve err) =>
      let meta := set_Status (resolveStatus (j_canceled j) err) (j_meta j) in
      Some (put_job id (set_pc PcNotify (set_meta meta j)) (saveMeta meta s))
  | _ => None
  end.

(** The webhook check: a non-empty [meta.Webhook] starts
    [go sendWebhook(meta)]. *)
Definition runJob_notify (id : string) (s : State) : option State :=
  match atPC id s with
  | Some (j, PcNotify) =>
      let s1 :=
        if String.eqb (Webhook (j_meta j)) EmptyString then s
        else set_webhooks (webhooks s ++ [id]) s in
      Some (put_job id (set_pc PcDone j) s1)
  | _ => None
  end.

Fixpoint removeFirst (id : string) (l : list string) : option (list string) :=
  match l with
  | [] => None
  | x :: r =>
      if String.eqb x id then Some r
      else (fun r' => x :: r') <$> removeFirst id r
  end.

(** A started [sendWebhook] goroutine runs. *)
Definition runWebhook (id : string) (s : State) : option State :=
  match removeFirst id (webhooks s), jobs s !! id with
  | Some rest, Some j => Some (sendWebhook (j_meta j) (set_webhooks rest s))
  | _, _ => None
  end.

(** The child of a running job writes to its standard output or standard
    error. *)
Definition childWrites (id : string) (toStderr : bool) (bs : list Byte.byte) (s : State)
  : option State :=
  match atPC id s with
  | Some (j, PcRegister) | Some (j, PcWait) =>
      Some (set_fs (appendBytes (fs s)
                      (if toStderr then stderrPath (ID (j_meta j))
                       else stdoutPath (ID (j_meta j))) bs) s)
  | _ => None
  end.

(** *** listJobs *)

Definition jobEntry (baseURL : string) (meta : JobMeta) : JobEntry :=
  mkJobEntry (ID meta) (Args meta) (Status meta)
    (withBase baseURL ("/jobs/" +:+ ID meta +:+ "/result"))
    (withBase baseURL ("/jobs/" +:+ ID meta +:+ "/log"))
    (Format_RFC3339 (EnqueuedAt meta)).

(** The body of the loop over the directory entries: [None] is
    [continue]. *)
Definition listEntry (fs : FS) (entry : string * bool) : option JobEntry :=
  if negb entry.2 then None
  else
    match os_ReadFile fs [getJobsDir; entry.1; "meta.json"%string] with
    | None => None
    | Some data =>
        match json_Unmarshal data zeroMeta with
        | (_, Some _) => None
        | (meta, None) => Some (jobEntry (getenv env "BASE_URL") meta)
        end
    end.

Definition byEnqueuedAtDesc (a b : JobEntry) : bool :=
  string_gt (e_EnqueuedAt a) (e_EnqueuedAt b).

Definition listJobs (fs : FS) : Response :=
  match os_ReadDir fs [getJobsDir] with
  | None => Error "Failed to read jobs directory" StatusInternalServerError
  | Some entries => EncodeJobs (sort_Slice byEnqueuedAtDesc (omap (listEntry fs) entries))
  end.

(** ** The server as a transition system *)

(** What can happen next: a request arrives, a goroutine takes its next
    step, or the environment acts (a child writes or exits). *)
Inductive Action :=
| Submit (r : Request) (id : string) (now : Time)
| Send (id : string)
| Handle (method : string) (parts : list string)
| Dispatch
| Start (id : string) (r : StartResult) (now : Time)
| Register (id : string)
| ChildWrites (id : string) (toStderr : bool) (bs : list Byte.byte)
| WaitReturns (id : string) (err : bool) (now : Time)
| Unregister (id : string)
| Cleanup (id : string)
| Resolve (id : string)
| Notify (id : string)
| RunWebhook (id : string).

(** [uuid.NewString] returns an identifier no job has had. *)
Definition step (a : Action) (s : State) : option State :=
  if crashed s then None
  else
    match a with
    | Submit r id now =>
        match jobs s !! id with
        | None => Some (submitJob_accept r id now s).1
        | Some _ => None
        end
    | Send id => submitJob_send id s
    | Handle method parts => Some (jobHandler method parts s).1
    | Dispatch => workerLoop s
    | Start id r now => runJob_start id r now s
    | Register id => runJob_register id s
    | ChildWrites id e bs => childWrites id e bs s
    | WaitReturns id err now => runJob_wait id err now s
    | Unregister id => runJob_unregister id s
    | Cleanup id => runJob_cleanup id s
    | Resolve id => runJob_resolve id s
    | Notify id => runJob_notify id s
    | RunWebhook id => runWebhook id s
    end.

Fixpoint exec (acts : list Action) (s : State) : option State :=
  match acts with
  | [] => Some s
  | a :: rest =>
      match step a s with
      | Some s' => exec rest s'
      | None => None
      end
  end.

Definition reachable (s : State) : Prop := exists acts, exec acts init = Some s.

(** The status in the job's record on disk, as the status endpoint reads
    it. *)
Definition persistedStatus (s : State) (id : string) : option string :=
  Status <$> loadMeta (fs s) id.

End Server.

(** ** Statements about the server *)

Definition terminal (st : string) : Prop :=
  st = "COMPLETED"%string \/ st = "FAILED"%string \/ st = "CANCELED"%string.

(** The moves the specification allows the status of a record to make in
    one step of the server; [None] is a record that does not exist. *)
Inductive transition : option string -> option string -> Prop :=
| tr_stay o : transition o o
| tr_create : transition None (Some "IN_QUEUE"%string)
| tr_start : transition (Some "IN_QUEUE"%string) (Some "IN_PROGRESS"%string)
| tr_spawn_failure : transition (Some "IN_QUEUE"%string) (Some "FAILED"%string)
| tr_finish st : terminal st -> transition (Some "IN_PROGRESS"%string) (Some st).

(** The process was started and its identifier recorded. *)
Definition started (j : Job) : Prop :=
  exists pid, j_process j = Some pid /\ PID (j_meta j) = pid /\ (0 < pid)%Z.

(** What the position of the goroutine says about the record in memory. *)
Definition phase_ok (j : Job) : Prop :=
  match j_pc j with
  | PcSend | PcQueued | PcSpawn =>
      Status (j_meta j) = "IN_QUEUE"%string /\ PID (j_meta j) = 0%Z
      /\ j_process j = None /\ CompletedAt (j_meta j) = zeroTime
  | PcRegister | PcWait =>
      Status (j_meta j) = "IN_PROGRESS"%string /\ started j
      /\ CompletedAt (j_meta j) = zeroTime
  | PcUnregister _ | PcCleanup _ | PcResolve _ =>
      Status (j_meta j) = "IN_PROGRESS"%string /\ started j
  | PcNotify => terminal (Status (j_meta j)) /\ started j
  | PcDone =>
      (terminal (Status (j_meta j)) /\ started j)
      \/ (Status (j_meta j) = "FAILED"%string /\ PID (j_meta j) = 0%Z
          /\ j_process j = None)
  end.

(** The record on disk is the record in memory as of the last [saveMeta]:
    between the return of [cmd.Wait] and the last save, the completion time
    has been set in memory only. *)
Definition diskView (j : Job) : JobMeta :=
  match j_pc j with
  | PcUnregister _ | PcCleanup _ | PcResolve _ => set_CompletedAt zeroTime (j_meta j)
  | _ => j_meta j
  end.

Definition pastSpawn (pc : PC) : bool :=
  match pc with
  | PcSend | PcQueued | PcSpawn => false
  | _ => true
  end.

Definition registered (pc : PC) : Prop :=
  pc = PcWait \/ exists err, pc = PcUnregister err.

Section Invariant.

Variable env : gmap string string.

Record job_ok (fs : FS) (id : string) (j : Job) : Prop := {
  ok_id : ID (j_meta j) = id;
  ok_pid : fitsInt (PID (j_meta j)) = true;
  ok_input : j_inputFilePath j = [] \/ j_inputFilePath j = inputPath env id;
  ok_phase : phase_ok j;
  ok_disk : os_ReadFile fs (metaPath env id) = Some (Json (marshalMeta (diskView j)));
  ok_stdout : pastSpawn (j_pc j) = true -> isOutput fs (stdoutPath env id) = true
}.

Record inv (s : State) : Prop := {
  inv_jobs : forall id j, jobs s !! id = Some j -> job_ok (fs s) id j;
  inv_registry : forall id rj, runningJobs s !! id = Some rj ->
    Cancel rj = id /\ exists j, jobs s !! id = Some j /\ registered (j_pc j);
  inv_queue_nodup : NoDup (queue s).*1;
  inv_queue : forall id p, (id, p) ∈ queue s ->
    exists j, jobs s !! id = Some j /\ j_pc j = PcQueued /\ j_inputFilePath j = p;
  inv_disk : forall id, is_Some (fs s !! metaPath env id) -> is_Some (jobs s !! id);
  inv_dirs : forall p, fs s !! p = Some Dir -> length p <= 2;
  inv_hooks : forall id, id ∈ webhooks s ->
    exists j, jobs s !! id = Some j /\ j_pc j = PcDone /\ started j
              /\ Webhook (j_meta j) <> EmptyString;
  inv_posts : forall p, p ∈ posts s ->
    exists id j, jobs s !! id = Some j /\ j_pc j = PcDone /\ started j
                 /\ Webhook (j_meta j) <> EmptyString
                 /\ p = mkPost (Webhook (j_meta j)) "application/json"
                          (webhookPayload (j_meta j))
}.

End Invariant.

(** ** Proof steps that recur *)

(** The job a step of [runJob] acts on, and where it stands. *)
Ltac at_pc H :=
  unfold atPC in H;
  let j := fresh "j" in let Hj := fresh "Hj" in let Hpc := fresh "Hpc" in
  destruct (jobs _ !! _) as [j|] eqn:Hj; [|done];
  destruct (j_pc j) eqn:Hpc; try done.

(** Obligations of the invariant for a structure the step leaves alone, and
    for a reference the job's position rules out. *)
Ltac unchanged := intros; by left.
Ltac wrong_pc := intros; congruence.
Ltac not_registered := intros ? ? [?|[? ?]]; congruence.

(** The state a run reaches is reachable. *)
Ltac by_run acts := exists acts; vm_compute; reflexivity.


(** ** Sortedness *)

(** In the reversed prefix, no element is [less] than the one that follows
    it in the list, which is the one before it in the slice. *)
Inductive leftSorted {A} (less : A -> A -> bool) : list A -> Prop :=
| ls_nil : leftSorted less []
| ls_one x : leftSorted less [x]
| ls_cons x y r : less x y = false -> leftSorted less (y :: r) -> leftSorted less (x :: y :: r).


(** ** Statements of the specification that the code does not meet *)

(** Nanoseconds since the epoch. *)
Definition instant (t : Time) : Z := (t_sec t * 1000000000 + t_nsec t)%Z.

(** "The process identifier is set only while the job is running": absent
    in the queued record, present in the running one, absent again once
    the status is terminal. *)
Definition pid_only_while_running (env : gmap string string) (fixedArgs : list string)
  : Prop :=
  forall s id meta, reachable env fixedArgs s -> loadMeta env (fs s) id = Some meta ->
    (Status meta = "IN_QUEUE"%string -> PID meta = 0%Z)
    /\ (Status meta = "IN_PROGRESS"%string -> PID meta <> 0%Z)
    /\ (terminal (Status meta) -> PID meta = 0%Z).

(** "Newest first": of two adjacent entries of the listing, the record of
    the first was enqueued no earlier than the record of the second. *)
Definition newest_first (env : gmap string string) (fs0 : FS) : Prop :=
  forall l, listJobs env fs0 = EncodeJobs l ->
  forall i e1 e2 m1 m2, l !! i = Some e1 -> l !! S i = Some e2 ->
    loadMeta env fs0 (e_ID e1) = Some m1 -> loadMeta env fs0 (e_ID e2) = Some m2 ->
    (instant (EnqueuedAt m2) <= instant (EnqueuedAt m1))%Z.


(** ** Runs of the server *)

(** Default configuration: no environment variable set, no fixed command. *)
Definition stateAfter (acts : list Action) : State :=
  default init (exec ∅ [] acts init).

Definition jobOf (s : State) (id : string) : Job :=
  default (mkJob zeroMeta [] PcDone false None None) (jobs s !! id).

Definition hook : string := "http://hooks.example/done".

Definition echoRequest : Request :=
  mkRequest (Some (mkSubmitReq ["echo"; "hi"]%string EmptyString hook)) [].

(** The bytes of [hi\n]. *)
Definition hi : list Byte.byte := [Byte.x68; Byte.x69; Byte.x0a].

Definition noon : Time := mkTime 1700000000 250000000 0.

Definition later (t : Time) (sec : Z) : Time :=
  mkTime (t_sec t + sec) (t_nsec t) (t_offset t).

(** [echo hi] runs to completion and its webhook is delivered. *)
Definition completedRun : list Action :=
  [Submit echoRequest "a" noon; Send "a"; Dispatch;
   Start "a" (Started 4242) (later noon 1); Register "a";
   ChildWrites "a" false hi; WaitReturns "a" false (later noon 2);
   Unregister "a"; Cleanup "a"; Resolve "a"; Notify "a"; RunWebhook "a"]%string.

(** A cancellation request arrives while the job runs; the run stops just
    before the terminal status is resolved. *)
Definition canceledRun : list Action :=
  [Submit echoRequest "a" noon; Send "a"; Dispatch;
   Start "a" (Started 4242) (later noon 1); Register "a";
   Handle "PUT" ["a"; "cancel"]; WaitReturns "a" true (later noon 2);
   Unregister "a"; Cleanup "a"]%string.

(** A job with a webhook and a staged input whose executable does not
    exist, up to the point where [runJob] is about to start it. *)
Definition missingBinaryRequest : Request :=
  mkRequest (Some (mkSubmitReq ["/nonexistent-binary"]%string EmptyString hook)) hi.

Definition spawnPending : list Action :=
  [Submit missingBinaryRequest "b" noon; Send "b"; Dispatch]%string.

(** Two submissions forty minutes apart in a zone that leaves daylight
    saving time in between: 01:30 at UTC-4, then 01:10 at UTC-5. *)
Definition beforeFallBack : Time := mkTime 1730611800 0 (-14400).
Definition afterFallBack : Time := mkTime 1730614200 0 (-18000).

Definition acrossFallBack : list Action :=
  [Submit echoRequest "a" beforeFallBack; Submit echoRequest "b" afterFallBack]%string.

Definition entriesOf (fs0 : FS) : list (string * bool) :=
  default [] (os_ReadDir fs0 ["jobs"%string]).



Definition firstPost (s : State) : Post :=
  default (mkPost EmptyString EmptyString ∅) (head (posts s)).

(** ** package strings *)

(** [strings.CutPrefix]: [s] without the leading [p], when it starts with
    it. *)
Fixpoint strings_CutPrefix (s p : string) : option string :=
  match p, s with
  | EmptyString, _ => Some s
  | String a p', String b s' => if Ascii.eqb a b then strings_CutPrefix s' p' else None
  | String _ _, EmptyString => None
  end.

Definition strings_HasPrefix (s p : string) : bool :=
  match strings_CutPrefix s p with Some _ => true | None => false end.

Definition strings_TrimPrefix (s p : string) : string :=
  default s (strings_CutPrefix s p).

(** [strings.Split(s, sep)] for a separator of one byte: the substrings
    between the separators, one more than there are separators. *)
Fixpoint strings_Split (s : string) (sep : ascii) : list string :=
  match s with
  | EmptyString => [EmptyString]
  | String c r =>
      if Ascii.eqb c sep then EmptyString :: strings_Split r sep
      else
        match strings_Split r sep with
        | p :: ps => String c p :: ps
        | [] => [String c EmptyString]
        end
  end.

(** The byte occurs in the string. *)
Fixpoint hasByte (c : ascii) (s : string) : bool :=
  match s with
  | EmptyString => false
  | String b r => Ascii.eqb b c || hasByte c r
  end.

(** ** Routing *)

Section Router.
Variable env : gmap string string.
Variable fixedArgs : list string.

(** [jobsHandler], registered for [/jobs] and for [/jobs/].  The response
    is [None] where [submitJob] goes on to send on [queue] and replies
    after that. *)
Definition jobsHandler (method path : string) (body : Request) (id : string) (now : Time)
    (s : State) : State * option Response :=
  if String.eqb path "/jobs" && String.eqb method "POST" then
    submitJob_accept env fixedArgs body id now s
  else if String.eqb path "/jobs" && String.eqb method "GET" then
    (s, Some (listJobs env (fs s)))
  else if strings_HasPrefix path "/jobs/" then
    let '(s', resp) :=
      jobHandler env method (strings_Split (strings_TrimPrefix path "/jobs/") "/") s in
    (s', Some resp)
  else (s, Some http_NotFound).

End Router.

(** ** main *)

(** [main]: the arguments after the program name are the fixed command. *)
Definition main_fixedArgs (osArgs : list string) : list string :=
  if (1 <? length osArgs)%nat then drop 1 osArgs else [].

(** ** More of what the server keeps *)

(** The staged input of the job is gone: [runJob] is past its
    [os.Remove]. *)
Definition cleaned (j : Job) : Prop :=
  match j_pc j with
  | PcResolve _ | PcNotify => True
  | PcDone => j_process j <> None
  | _ => False
  end.

(** The cancellation flag against the position of the goroutine: the
    context can be canceled only through the registry, and the last save
    turns the flag into the status. *)
Definition cancel_ok (j : Job) : Prop :=
  match j_pc j with
  | PcSend | PcQueued | PcSpawn | PcRegister => j_canceled j = false
  | PcWait | PcUnregister _ | PcCleanup _ | PcResolve _ => True
  | PcNotify | PcDone => j_canceled j = true <-> Status (j_meta j) = "CANCELED"%string
  end.

(** The [sendWebhook] goroutines started for a job and not yet run, plus
    the POSTs made for it. *)
Definition hookCount (s : State) (id : string) : nat :=
  length (filter (fun x => x = id) (webhooks s))
  + length (filter (fun p => p_payload p !! "id"%string = Some id) (posts s)).
Arguments hookCount : simpl never.

(** [runJob] has reached its end through the webhook check with a webhook
    URL in the record. *)
Definition owesWebhook (j : Job) : bool :=
  match j_pc j, j_process j with
  | PcDone, Some _ => negb (String.eqb (Webhook (j_meta j)) EmptyString)
  | _, _ => false
  end.

Section More.
Variable env : gmap string string.
Variable fixedArgs : list string.

Record job_more (s : State) (id : string) (j : Job) : Prop := {
  more_args : fixedArgs `prefix_of` Args (j_meta j);
  more_started : pastSpawn (j_pc j) = false -> StartedAt (j_meta j) = zeroTime;
  more_output :
    if pastSpawn (j_pc j) then isOutput (fs s) (stderrPath env id) = true
    else fs s !! stderrPath env id = None /\ fs s !! stdoutPath env id = None;
  more_registry : registered (j_pc j) -> runningJobs s !! id = Some (mkRunningJob id id id);
  more_cancel : cancel_ok j;
  more_hooks : hookCount s id = if owesWebhook j then 1 else 0;
  more_input : j_inputFilePath j = [] \/ cleaned j ->
    os_ReadFile (fs s) (inputPath env id) = None;
  more_staged : os_TempDir env <> getJobsDir env -> j_inputFilePath j = inputPath env id ->
    (~ cleaned j -> exists c, fs s !! inputPath env id = Some (File c))
    /\ (pastSpawn (j_pc j) = true -> j_stdin j = Some (inputPath env id));
  more_dir : os_TempDir env <> getJobsDir env -> fs s !! [getJobsDir env; id] = Some Dir
}.

Record inv_more (s : State) : Prop := {
  more_jobs : forall id j, jobs s !! id = Some j -> job_more s id j;
  more_dirs : forall p, fs s !! p = Some Dir ->
    p = [getJobsDir env] \/ exists x, p = [getJobsDir env; x] /\ is_Some (jobs s !! x);
  more_files : forall p c, fs s !! p = Some (File c) ->
    exists id, is_Some (jobs s !! id)
      /\ (p = metaPath env id \/ p = stdoutPath env id \/ p = stderrPath env id
          \/ p = inputPath env id);
  more_empty : jobs s = ∅ -> fs s = ∅;
  more_root : jobs s <> ∅ -> fs s !! [getJobsDir env] = Some Dir;
  more_queue : length (queue s) <= queueCapacity;
  more_crashed : crashed s = true ->
    exists id j, jobs s !! id = Some j /\ j_pc j = PcSpawn /\ Args (j_meta j) = []
}.

End More.

(** ** What no step changes *)

(** [runJob] has made its last save. *)
Definition finished (pc : PC) : Prop := pc = PcNotify \/ pc = PcDone.

(** What no step of the server changes in a job: the fields of the record
    that [submitJob] fills in, the staged input path, a cancellation once
    requested and, from the start of the process on, the start time, the
    process identifier and the standard input and, from the last save on,
    the whole record. *)
Record keeps (j j' : Job) : Prop := {
  keeps_ID : ID (j_meta j') = ID (j_meta j);
  keeps_Args : Args (j_meta j') = Args (j_meta j);
  keeps_MimeType : MimeType (j_meta j') = MimeType (j_meta j);
  keeps_Webhook : Webhook (j_meta j') = Webhook (j_meta j);
  keeps_EnqueuedAt : EnqueuedAt (j_meta j') = EnqueuedAt (j_meta j);
  keeps_input : j_inputFilePath j' = j_inputFilePath j;
  keeps_canceled : j_canceled j = true -> j_canceled j' = true;
  keeps_started : pastSpawn (j_pc j) = true ->
    pastSpawn (j_pc j') = true /\ StartedAt (j_meta j') = StartedAt (j_meta j)
    /\ PID (j_meta j') = PID (j_meta j) /\ j_stdin j' = j_stdin j;
  keeps_final : finished (j_pc j) -> finished (j_pc j') /\ j_meta j' = j_meta j
}.

(** ** Further proof steps *)

(** The job is not in the registry at this position. *)
Ltac unregistered := intros [?|[? ?]]; congruence.

(** The position rules the case out. *)
Ltac unfinished := intros [?|?]; congruence.

(** ** What a child wrote *)

(** The bytes one step adds to an output of a job: what its child writes
    to that descriptor. *)
Definition written (id : string) (toStderr : bool) (a : Action) : list Byte.byte :=
  match a with
  | ChildWrites id' e bs => if String.eqb id' id && Bool.eqb e toStderr then bs else []
  | _ => []
  end.

Definition output (id : string) (toStderr : bool) (acts : list Action) : list Byte.byte :=
  concat (written id toStderr <$> acts).

(** The captured bytes a file holds. *)
Definition captured (fs : FS) (p : list string) : list Byte.byte :=
  match fs !! p with Some (File (Bytes b)) => b | _ => [] end.

(** The file that captures an output of a job. *)
Definition outPath (env : gmap string string) (id : string) (toStderr : bool) : list string :=
  if toStderr then stderrPath env id else stdoutPath env id.

(** ** Directory entries *)

(** One entry of [os.ReadDir]: the name of a child of the directory and
    whether it is a directory itself. *)
Definition dirEntry (dir : list string) (pn : list string * node) : option (string * bool) :=
  (fun name => (name, isDir pn.2)) <$> childOf dir pn.1.

(** ** Calendar dates as numbers *)

(** Days from March 1 of year 0 to March 1 of year [y]. *)
Definition daysBefore (y : Z) : Z := (365 * y + y / 4 - y / 100 + y / 400)%Z.

(** Month (counted from March) and day of the month as one number, from
    the day of the year counted from March 1. *)
Definition dayKey (doy : Z) : Z :=
  (32 * ((5 * doy + 2) / 153) + (doy - (153 * ((5 * doy + 2) / 153) + 2) / 5 + 1))%Z.

(** Year, month and day as one number. *)
Definition dateKey (ymd : Z * Z * Z) : Z :=
  let '(y, m, d) := ymd in ((12 * y + m) * 32 + d)%Z.

(** The local time of [t] falls in the years 0000 to 9999, the years
    RFC 3339 can express. *)
Definition inYears (t : Time) : Prop :=
  (-62167219200 <= t_sec t + t_offset t <= 253402300799)%Z.

(** ** What [cmd.Wait] returned *)

(** [cmd.Wait] has returned [err] to the goroutine of the job, which is
    on its way to the last save with it or past that save. *)
Definition waited (err : bool) (pc : PC) : Prop :=
  pc = PcUnregister err \/ pc = PcCleanup err \/ pc = PcResolve err
  \/ pc = PcNotify \/ pc = PcDone.

(** The position a step leaves the job at still carries that value. *)
Ltac still_waited Hw Hpc :=
  unfold waited in *; cbn; rewrite ?Hpc in Hw;
  repeat (destruct Hw as [Hw|Hw]; try discriminate Hw; try (injection Hw as <-)); auto 6.


(** ** The earlier revision: src/main.go *)

(** The functions of src/main.go that a failed spawn runs through, on the
    same state.  The jobs directory is the literal [jobs]; the arguments
    are taken as submitted and nothing is staged; [queue] carries the
    record alone, so the staged path that goes with it here is empty.  The
    send on [queue] and [workerLoop] read as in the later revision
    ([submitJob_send], [workerLoop]). *)
Module MainGo.

Definition metaPath (id : string) : list string := ["jobs"; id; "meta.json"]%string.
Definition stdoutPath (id : string) : list string := ["jobs"; id; "stdout.txt"]%string.
Definition stderrPath (id : string) : list string := ["jobs"; id; "stderr.txt"]%string.

Definition saveMeta (meta : JobMeta) (s : State) : State :=
  set_fs (os_WriteFile (fs s) (metaPath (ID meta)) (json_MarshalIndent meta)) s.

Definition loadMeta (fs : FS) (id : string) : option JobMeta :=
  match os_ReadFile fs (metaPath id) with
  | None => None
  | Some data => Some (json_Unmarshal data zeroMeta).1
  end.

(** [submitJob] up to the send on [queue]. *)
Definition submitJob_accept (r : Request) (id : string) (now : Time) (s : State)
  : State * option Response :=
  match r_decoded r with
  | None => (s, Some (Error "Invalid JSON" StatusBadRequest))
  | Some req =>
      let fs1 := os_MkdirAll (fs s) ["jobs"; id]%string in
      let meta :=
        mkJobMeta id (req_Args req) (req_MimeType req) (req_Webhook req) "IN_QUEUE" 0
          now zeroTime zeroTime in
      let s1 := saveMeta meta (set_fs fs1 s) in
      (put_job id (mkJob meta [] PcSend false None None) s1, None)
  end.

(** [runJob] from the entry to the first [saveMeta]: a failed
    [cmd.Start] sets the status and nothing else. *)
Definition runJob_start (id : string) (r : StartResult) (now : Time) (s : State)
  : option State :=
  match atPC id s with
  | Some (j, PcSpawn) =>
      let meta := j_meta j in
      match Args meta with
      | [] => Some (set_crashed true s)
      | _ =>
          let fs1 := os_Create (os_Create (fs s) (stdoutPath (ID meta))) (stderrPath (ID meta)) in
          let s1 := set_fs fs1 s in
          match r with
          | StartError =>
              let meta1 := set_Status "FAILED" meta in
              Some (put_job id (set_pc PcDone (set_meta meta1 j)) (saveMeta meta1 s1))
          | Started pid =>
              if ((0 <? pid) && (pid <=? maxInt))%Z then
                let meta1 := set_PID pid meta in
                let meta2 := set_Status "IN_PROGRESS" meta1 in
                let meta3 := set_StartedAt now meta2 in
                Some (put_job id
                        (set_pc PcRegister (set_process (Some pid) (set_meta meta3 j)))
                        (saveMeta meta3 s1))
              else None
          end
      end
  | _ => None
  end.

End MainGo.

(** ** Records that do not decode *)



(** ** Records that survive a round trip *)

(** The byte lies between [lo] and [hi]. *)
Definition byteIn (lo hi : nat) (c : ascii) : bool :=
  ((lo <=? nat_of_ascii c) && (nat_of_ascii c <=? hi))%nat.

(** [utf8.ValidString]: the bytes are well-formed UTF-8, which is what
    [json.Marshal] writes unchanged. *)
Fixpoint utf8_ValidString (s : string) : bool :=
  match s with
  | EmptyString => true
  | String c r =>
      if byteIn 0 127 c then utf8_ValidString r
      else
        match r with
        | String c1 r1 =>
            if byteIn 194 223 c then byteIn 128 191 c1 && utf8_ValidString r1
            else
              match r1 with
              | String c2 r2 =>
                  if byteIn 224 239 c then
                    (if byteIn 224 224 c then byteIn 160 191 c1
                     else if byteIn 237 237 c then byteIn 128 159 c1
                     else byteIn 128 191 c1)
                    && byteIn 128 191 c2 && utf8_ValidString r2
                  else
                    match r2 with
                    | String c3 r3 =>
                        byteIn 240 244 c
                        && (if byteIn 240 240 c then byteIn 144 191 c1
                            else if byteIn 244 244 c then byteIn 128 143 c1
                            else byteIn 128 191 c1)
                        && byteIn 128 191 c2 && byteIn 128 191 c3 && utf8_ValidString r3
                    | EmptyString => false
                    end
              | EmptyString => false
              end
        | EmptyString => false
        end
  end.

(** A time that [Time.MarshalJSON] accepts and [Time.UnmarshalJSON] reads
    back as it was: its year is within 0 to 9999, its nanoseconds are
    within the second, and its UTC offset is a whole number of minutes
    short of a day. *)
Definition timeRoundTrips (t : Time) : bool :=
  ((-62167219200 <=? t_sec t + t_offset t) && (t_sec t + t_offset t <=? 253402300799)
   && (0 <=? t_nsec t) && (t_nsec t <? 1000000000)
   && (Z.rem (t_offset t) 60 =? 0) && (-86400 <? t_offset t) && (t_offset t <? 86400))%Z.

(** A name that [filepath.Join] passes on as one element of the path. *)
Definition pathElement (name : string) : bool :=
  negb (String.eqb name EmptyString) && negb (String.eqb name ".")
  && negb (String.eqb name "..") && negb (hasByte "/" name)
  && negb (hasByte "000" name).

(** A record that [json.MarshalIndent] writes and [json.Unmarshal] reads
    back as it was. *)
Definition recordRoundTrips (m : JobMeta) : bool :=
  utf8_ValidString (ID m) && forallb utf8_ValidString (Args m)
  && utf8_ValidString (MimeType m) && utf8_ValidString (Webhook m)
  && utf8_ValidString (Status m) && fitsInt (PID m)
  && timeRoundTrips (EnqueuedAt m) && timeRoundTrips (StartedAt m)
  && timeRoundTrips (CompletedAt m).

(** ** More runs of the server *)

(** The record the status endpoint would return. *)
Definition recordOf (s : State) (id : string) : JobMeta :=
  default zeroMeta (loadMeta ∅ (fs s) id).

Definition listingOf (fs0 : FS) : list JobEntry :=
  match listJobs ∅ fs0 with EncodeJobs l => l | _ => [] end.

Definition entryAt (l : list JobEntry) (i : nat) : JobEntry :=
  default (mkJobEntry EmptyString [] EmptyString EmptyString EmptyString EmptyString) (l !! i).

(** [echo hi] has been submitted. *)
Definition submittedRun : list Action := [Submit echoRequest "a" noon]%string.

(** [echo hi] runs and has been registered. *)
Definition runningRun : list Action :=
  [Submit echoRequest "a" noon; Send "a"; Dispatch;
   Start "a" (Started 4242) (later noon 1); Register "a"]%string.

(** What is left of [completedRun] after the submission. *)
Definition afterSubmission : list Action :=
  [Send "a"; Dispatch; Start "a" (Started 4242) (later noon 1); Register "a";
   ChildWrites "a" false hi; WaitReturns "a" false (later noon 2);
   Unregister "a"; Cleanup "a"; Resolve "a"; Notify "a"; RunWebhook "a"]%string.

(** A running job is canceled, and then its process exits cleanly. *)
Definition exitAfterCancel : list Action :=
  [WaitReturns "a" false (later noon 2); Unregister "a"; Cleanup "a"; Resolve "a"]%string.

(** [cat] with a staged input, up to its start and to its end. *)
Definition catRequest : Request :=
  mkRequest (Some (mkSubmitReq ["cat"]%string EmptyString EmptyString)) hi.

Definition catStarted : list Action :=
  [Submit catRequest "c" noon; Send "c"; Dispatch; Start "c" (Started 7) (later noon 1)]%string.

Definition catRun : list Action :=
  catStarted ++ [Register "c"; WaitReturns "c" false (later noon 2); Unregister "c";
                 Cleanup "c"; Resolve "c"]%string.

(** A submission without arguments. *)
Definition emptyRequest : Request :=
  mkRequest (Some (mkSubmitReq [] EmptyString EmptyString)) [].

(** A server started as [server sh -c]. *)
Definition shell : list string := ["sh"; "-c"]%string.

Definition shellRun : list Action :=
  [Submit emptyRequest "e" noon; Send "e"; Dispatch; Start "e" (Started 9) (later noon 1)]%string.

Definition shellState : State := default init (exec ∅ shell shellRun init).

(** Two submissions five seconds apart, both at UTC. *)
Definition twoJobs : list Action :=
  [Submit echoRequest "a" noon; Submit echoRequest "b" (later noon 5)]%string.

(** A job with a webhook whose executable does not exist, sent without
    anything after the JSON document. *)
Definition missingBinaryOnly : Request :=
  mkRequest (Some (mkSubmitReq ["/nonexistent-binary"]%string EmptyString hook)) [].

(** Two jobs are waiting in the queue. *)
Definition queuedRun : list Action :=
  [Submit echoRequest "a" noon; Send "a"; Submit echoRequest "b" (later noon 5);
   Send "b"]%string.

(** [echo hi] runs, is canceled or not, and its process exits; [atWait]
    stops inside [cmd.Wait], [exitsWith] after the last save. *)
Definition atWait (canceled : bool) : list Action :=
  runningRun ++ (if canceled then [Handle "PUT" ["a"; "cancel"]%string] else []).

Definition exitsWith (canceled err : bool) : list Action :=
  atWait canceled
  ++ [WaitReturns "a" err (later noon 2); Unregister "a"; Cleanup "a"; Resolve "a"]%string.

(** The run is one of the server, and leaves the status on record. *)
Definition exitRecorded (canceled err : bool) (st : string) : Prop :=
  reachable ∅ [] (stateAfter (atWait canceled))
  /\ step ∅ [] (WaitReturns "a" err (later noon 2)) (stateAfter (atWait canceled))
     = Some (stateAfter (atWait canceled ++ [WaitReturns "a" err (later noon 2)]%string))
  /\ persistedStatus ∅ (stateAfter (exitsWith canceled err)) "a" = Some st.

(** * Proofs *)

(** ** time.Time *)

Example format_epoch : Format_RFC3339 (mkTime 0 0 0) = "1970-01-01T00:00:00Z"%string.
Proof. reflexivity. Qed.
Example format_2023 : Format_RFC3339 (mkTime 1700000000 5 0) = "2023-11-14T22:13:20Z"%string.
Proof. reflexivity. Qed.
Example format_zero : Format_RFC3339 zeroTime = "0001-01-01T00:00:00Z"%string.
Proof. reflexivity. Qed.
Example format_leap : Format_RFC3339 (mkTime 1709164799 0 3600) = "2024-02-29T00:59:59+01:00"%string.
Proof. reflexivity. Qed.
Example format_nano : Format_RFC3339Nano (mkTime 1730611800 120000000 (-14400)) = "2024-11-03T01:30:00.12-04:00"%string.
Proof. reflexivity. Qed.


(** ** encoding/json: what is written is read back *)

Lemma storeStrings_marshal (a : list string) :
  fst <$> ((fun e => storeString e EmptyString) <$> (JStr <$> a)) = a
  /\ foldr worse Stored (snd <$> ((fun e => storeString e EmptyString) <$> (JStr <$> a))) = Stored.
Proof.
  induction a as [|x a [IH1 IH2]]; [done|].
  cbn. rewrite IH1, IH2. done.
Qed.

(** A key written with the long s (U+017F) or with the Kelvin sign
    (U+212A) names the field as the plain letter does. *)
Example foldName_long_s :
  foldName (String "197" (String "191" "TATUS")) = "status"%string.
Proof. reflexivity. Qed.
Example foldName_kelvin :
  foldName ("webhoo" +:+ String "226" (String "132" (String "170" EmptyString)))
  = "webhook"%string.
Proof. reflexivity. Qed.

Lemma storeField_id v m :
  storeField "id" v m = (set_ID (storeString v (ID m)).1 m, (storeString v (ID m)).2).
Proof. unfold storeField. change (foldName "id") with "id"%string. cbn. by destruct storeString. Qed.

Lemma storeField_args v m :
  storeField "args" v m = (set_Args (storeStrings v (Args m)).1 m, (storeStrings v (Args m)).2).
Proof. unfold storeField. change (foldName "args") with "args"%string. cbn. by destruct storeStrings. Qed.

Lemma storeField_mime_type v m :
  storeField "mime_type" v m
  = (set_MimeType (storeString v (MimeType m)).1 m, (storeString v (MimeType m)).2).
Proof. unfold storeField. change (foldName "mime_type") with "mime_type"%string. cbn. by destruct storeString. Qed.

Lemma storeField_webhook v m :
  storeField "webhook" v m
  = (set_Webhook (storeString v (Webhook m)).1 m, (storeString v (Webhook m)).2).
Proof. unfold storeField. change (foldName "webhook") with "webhook"%string. cbn. by destruct storeString. Qed.

Lemma storeField_status v m :
  storeField "status" v m
  = (set_Status (storeString v (Status m)).1 m, (storeString v (Status m)).2).
Proof. unfold storeField. change (foldName "status") with "status"%string. cbn. by destruct storeString. Qed.

Lemma storeField_pid v m :
  storeField "pid" v m = (set_PID (storeInt v (PID m)).1 m, (storeInt v (PID m)).2).
Proof. unfold storeField. change (foldName "pid") with "pid"%string. cbn. by destruct storeInt. Qed.

Lemma storeField_enqueued_at v m :
  storeField "enqueued_at" v m
  = (set_EnqueuedAt (storeTime v (EnqueuedAt m)).1 m, (storeTime v (EnqueuedAt m)).2).
Proof. unfold storeField. change (foldName "enqueued_at") with "enqueued_at"%string. cbn. by destruct storeTime. Qed.

Lemma storeField_started_at v m :
  storeField "started_at" v m
  = (set_StartedAt (storeTime v (StartedAt m)).1 m, (storeTime v (StartedAt m)).2).
Proof. unfold storeField. change (foldName "started_at") with "started_at"%string. cbn. by destruct storeTime. Qed.

Lemma storeField_completed_at v m :
  storeField "completed_at" v m
  = (set_CompletedAt (storeTime v (CompletedAt m)).1 m, (storeTime v (CompletedAt m)).2).
Proof. unfold storeField. change (foldName "completed_at") with "completed_at"%string. cbn. by destruct storeTime. Qed.

Lemma unmarshal_marshal (m : JobMeta) :
  fitsInt (PID m) = true ->
  json_Unmarshal (Json (marshalMeta m)) zeroMeta = (m, None).
Proof.
  intros Hpid. destruct m as [id args mime hook st pid t1 t2 t3]; cbn in Hpid.
  unfold json_Unmarshal, marshalMeta, omitempty;
    cbn [ID Args MimeType Webhook Status PID EnqueuedAt StartedAt CompletedAt].
  assert (Hargs : storeStrings (marshalArgs args) [] = (args, Stored)).
  { destruct args as [|x a]; [done|]. unfold marshalArgs, storeStrings.
    destruct (storeStrings_marshal (x :: a)) as [-> ->]. done. }
  destruct (String.eqb_spec mime EmptyString), (String.eqb_spec hook EmptyString), (Z.eqb_spec pid 0);
    subst; cbn [app storeObject];
    rewrite ?storeField_id, ?storeField_args, ?storeField_mime_type,
      ?storeField_webhook, ?storeField_status, ?storeField_pid,
      ?storeField_enqueued_at, ?storeField_started_at, ?storeField_completed_at;
    cbn -[storeStrings marshalArgs fitsInt];
    rewrite ?Hargs; cbn -[fitsInt]; rewrite ?Hpid; reflexivity.
Qed.

(** ** The file system *)

Lemma lookup_os_WriteFile (fs : FS) p c q :
  os_WriteFile fs p c !! q
  = if decide (p = q)
    then match fs !! p with Some Dir => Some Dir | _ => Some (File c) end
    else fs !! q.
Proof.
  unfold os_WriteFile. case_decide as Hpq.
  - subst q. destruct (fs !! p) as [[|c']|] eqn:E; by rewrite ?lookup_insert_eq.
  - destruct (fs !! p) as [[|c']|]; by rewrite ?lookup_insert_ne.
Qed.

Lemma lookup_os_WriteFile_ne (fs : FS) p c q :
  p <> q -> os_WriteFile fs p c !! q = fs !! q.
Proof. intros. rewrite lookup_os_WriteFile. by case_decide. Qed.

Lemma os_WriteFile_dir (fs : FS) p c q :
  os_WriteFile fs p c !! q = Some Dir -> fs !! q = Some Dir.
Proof.
  rewrite lookup_os_WriteFile. case_decide; [subst q|done].
  by destruct (fs !! p) as [[|c']|].
Qed.

Lemma os_ReadFile_WriteFile (fs : FS) p c :
  fs !! p <> Some Dir -> os_ReadFile (os_WriteFile fs p c) p = Some c.
Proof.
  intros Hd. unfold os_ReadFile. rewrite lookup_os_WriteFile, decide_True by done.
  by destruct (fs !! p) as [[|c']|].
Qed.

Lemma os_ReadFile_WriteFile_ne (fs : FS) p c q :
  p <> q -> os_ReadFile (os_WriteFile fs p c) q = os_ReadFile fs q.
Proof. intros. unfold os_ReadFile. by rewrite lookup_os_WriteFile_ne. Qed.

Lemma isOutput_Create (fs : FS) p :
  fs !! p <> Some Dir -> isOutput (os_Create fs p) p = true.
Proof.
  intros Hd. unfold isOutput, os_Create. rewrite lookup_os_WriteFile, decide_True by done.
  by destruct (fs !! p) as [[|c']|].
Qed.

Lemma lookup_os_Remove_ne (fs : FS) p q :
  p <> q -> os_Remove fs p !! q = fs !! q.
Proof.
  intros. unfold os_Remove. destruct (fs !! p) as [[|c']|]; by rewrite ?lookup_delete_ne.
Qed.

Lemma os_Remove_dir (fs : FS) p q :
  os_Remove fs p !! q = Some Dir -> fs !! q = Some Dir.
Proof.
  unfold os_Remove. destruct (fs !! p) as [[|c']|] eqn:E; try done.
  destruct (decide (p = q)) as [->|]; by rewrite ?lookup_delete_eq, ?lookup_delete_ne.
Qed.

Lemma lookup_appendBytes_ne (fs : FS) p bs q :
  p <> q -> appendBytes fs p bs !! q = fs !! q.
Proof.
  intros. unfold appendBytes.
  destruct (fs !! p) as [[|[j|b]]|]; by rewrite ?lookup_insert_ne.
Qed.

Lemma appendBytes_dir (fs : FS) p bs q :
  appendBytes fs p bs !! q = Some Dir -> fs !! q = Some Dir.
Proof.
  unfold appendBytes. destruct (fs !! p) as [[|[j|b]]|] eqn:E; try done.
  destruct (decide (p = q)) as [->|]; by rewrite ?lookup_insert_eq, ?lookup_insert_ne.
Qed.

Lemma isOutput_appendBytes (fs : FS) p bs q :
  isOutput fs q = true -> isOutput (appendBytes fs p bs) q = true.
Proof.
  unfold isOutput, appendBytes. intros Hq.
  destruct (fs !! p) as [[|[j|b]]|] eqn:E; try done.
  destruct (decide (p = q)) as [->|]; by rewrite ?lookup_insert_eq, ?lookup_insert_ne.
Qed.

Lemma lookup_mkdirFrom_long (fs : FS) pre rest q :
  length pre + length rest < length q -> mkdirFrom pre rest fs !! q = fs !! q.
Proof.
  revert pre fs. induction rest as [|c r IH]; intros pre fs Hlen; [done|].
  cbn [mkdirFrom]. cbn in Hlen.
  destruct (fs !! (pre ++ [c])) as [[|c']|] eqn:E; try done.
  - rewrite IH by (rewrite length_app; cbn; lia).
    apply lookup_insert_ne. intros <-. rewrite length_app in Hlen. cbn in Hlen. lia.
  - rewrite IH by (rewrite length_app; cbn; lia).
    apply lookup_insert_ne. intros <-. rewrite length_app in Hlen. cbn in Hlen. lia.
Qed.

Lemma mkdirFrom_dir (fs : FS) pre rest q :
  mkdirFrom pre rest fs !! q = Some Dir ->
  fs !! q = Some Dir \/ length q <= length pre + length rest.
Proof.
  revert pre fs. induction rest as [|c r IH]; intros pre fs; [by left|].
  cbn [mkdirFrom].
  destruct (fs !! (pre ++ [c])) as [[|c']|] eqn:E; try (by left).
  - intros [H|H]%IH.
    + destruct (decide (pre ++ [c] = q)) as [<-|]; [by left|].
      rewrite lookup_insert_ne in H by done. by left.
    + right. rewrite length_app in H. cbn in *. lia.
  - intros [H|H]%IH.
    + destruct (decide (pre ++ [c] = q)) as [<-|].
      * right. rewrite length_app. cbn. lia.
      * rewrite lookup_insert_ne in H by done. by left.
    + right. rewrite length_app in H. cbn in *. lia.
Qed.

(** ** The invariant of the server *)

Section Proofs.
Variable env : gmap string string.
Variable fixedArgs : list string.

Lemma inv_init : inv env init.
Proof.
  split; cbn; intros *; rewrite ?lookup_empty, ?elem_of_nil; try done.
  constructor.
Qed.

Lemma job_ok_frame (fs fs' : FS) id j :
  job_ok env fs id j ->
  fs' !! metaPath env id = fs !! metaPath env id ->
  (isOutput fs (stdoutPath env id) = true -> isOutput fs' (stdoutPath env id) = true) ->
  job_ok env fs' id j.
Proof.
  intros [] Hm Ho. split; try done.
  - unfold os_ReadFile in *. by rewrite Hm.
  - auto.
Qed.

Lemma job_ok_set_pc (fs : FS) id j pc :
  job_ok env fs id j ->
  phase_ok (set_pc pc j) ->
  diskView (set_pc pc j) = diskView j ->
  (pastSpawn pc = true -> pastSpawn (j_pc j) = true) ->
  job_ok env fs id (set_pc pc j).
Proof.
  intros [Hid Hpid Hinp Hph Hdisk Hout] Hph' Hdv Hps. split; cbn; try done.
  - by rewrite Hdv.
  - auto.
Qed.

(** A step that changes one job keeps the invariant when the new job is
    consistent with the new file system and with every structure that
    still refers to it. *)
Lemma inv_update s s' id j' :
  inv env s ->
  jobs s' = <[id := j']> (jobs s) ->
  job_ok env (fs s') id j' ->
  (forall id1, id1 <> id ->
     fs s' !! metaPath env id1 = fs s !! metaPath env id1
     /\ (isOutput (fs s) (stdoutPath env id1) = true ->
         isOutput (fs s') (stdoutPath env id1) = true)) ->
  (forall p, fs s' !! p = Some Dir -> fs s !! p = Some Dir \/ length p <= 2) ->
  (forall id1 rj, runningJobs s' !! id1 = Some rj ->
     runningJobs s !! id1 = Some rj
     \/ (id1 = id /\ Cancel rj = id /\ registered (j_pc j'))) ->
  (forall j, jobs s !! id = Some j -> registered (j_pc j) ->
     registered (j_pc j') \/ runningJobs s' !! id = None) ->
  NoDup (queue s').*1 ->
  (forall id1 p, (id1, p) ∈ queue s' ->
     (id1, p) ∈ queue s
     \/ (id1 = id /\ j_pc j' = PcQueued /\ j_inputFilePath j' = p)) ->
  (forall j, jobs s !! id = Some j -> j_pc j = PcQueued ->
     (j_pc j' = PcQueued /\ j_inputFilePath j' = j_inputFilePath j)
     \/ id ∉ (queue s').*1) ->
  (forall id1, id1 ∈ webhooks s' ->
     id1 ∈ webhooks s
     \/ (id1 = id /\ j_pc j' = PcDone /\ started j' /\ Webhook (j_meta j') <> EmptyString)) ->
  (forall p, p ∈ posts s' ->
     p ∈ posts s
     \/ (j_pc j' = PcDone /\ started j' /\ Webhook (j_meta j') <> EmptyString
         /\ p = mkPost (Webhook (j_meta j')) "application/json" (webhookPayload (j_meta j')))) ->
  (forall j, jobs s !! id = Some j -> j_pc j = PcDone ->
     j_pc j' = PcDone /\ j_meta j' = j_meta j /\ j_process j' = j_process j) ->
  inv env s'.
Proof.
  intros Hinv Hjobs Hjob Hframe Hdirs Hreg Hregk Hnd Hq Hqk Hh Hp Hdone.
  split.
  - intros id1 j1. rewrite Hjobs. destruct (decide (id = id1)) as [<-|Hne].
    + rewrite lookup_insert_eq. by intros [= <-].
    + rewrite lookup_insert_ne by done. intros Hj1.
      destruct (Hframe id1) as [Hm Ho]; [done|].
      eapply job_ok_frame; [by eapply inv_jobs|done..].
  - intros id1 rj Hrj. rewrite Hjobs.
    destruct (Hreg _ _ Hrj) as [Hold|(-> & ? & ?)].
    + destruct (inv_registry _ _ Hinv _ _ Hold) as [Hc (j1 & Hj1 & Hr1)].
      split; [done|]. destruct (decide (id = id1)) as [<-|Hne].
      * rewrite lookup_insert_eq. destruct (Hregk _ Hj1 Hr1) as [?|Hn]; [by eauto|congruence].
      * rewrite lookup_insert_ne by done. eauto.
    + rewrite lookup_insert_eq. eauto.
  - done.
  - intros id1 p Hin. rewrite Hjobs.
    destruct (Hq _ _ Hin) as [Hold|(-> & ? & ?)].
    + destruct (inv_queue _ _ Hinv _ _ Hold) as (j1 & Hj1 & Hpc1 & Hin1).
      destruct (decide (id = id1)) as [<-|Hne].
      * rewrite lookup_insert_eq. destruct (Hqk _ Hj1 Hpc1) as [[? ?]|Hn].
        -- eexists; split; [done|]. split; congruence.
        -- exfalso. apply Hn. apply list_elem_of_fmap. by exists (id, p).
      * rewrite lookup_insert_ne by done. eauto.
    + rewrite lookup_insert_eq. eauto.
  - intros id1 Hs. rewrite Hjobs. apply lookup_insert_is_Some.
    destruct (decide (id = id1)) as [|Hne]; [by left|right; split; [done|]].
    destruct (Hframe id1) as [Hm _]; [done|]. rewrite Hm in Hs.
    by eapply inv_disk.
  - intros p Hd. destruct (Hdirs _ Hd) as [?|?]; [|done]. by eapply inv_dirs.
  - intros id1 Hin. rewrite Hjobs.
    destruct (Hh _ Hin) as [Hold|(-> & ? & ? & ?)].
    + destruct (inv_hooks _ _ Hinv _ Hold) as (j1 & Hj1 & Hpc1 & Hs1 & Hw1).
      destruct (decide (id = id1)) as [<-|Hne].
      * rewrite lookup_insert_eq. destruct (Hdone _ Hj1 Hpc1) as (? & Hm & Hpr).
        eexists; split; [done|]. unfold started in *. rewrite Hm, Hpr. done.
      * rewrite lookup_insert_ne by done. eauto.
    + rewrite lookup_insert_eq. eauto.
  - intros p Hin. rewrite Hjobs.
    destruct (Hp _ Hin) as [Hold|(? & ? & ? & ?)].
    + destruct (inv_posts _ _ Hinv _ Hold) as (id1 & j1 & Hj1 & Hpc1 & Hs1 & Hw1 & ->).
      destruct (decide (id = id1)) as [<-|Hne].
      * exists id, j'. rewrite lookup_insert_eq. destruct (Hdone _ Hj1 Hpc1) as (? & Hm & Hpr).
        unfold started in *. rewrite Hm, Hpr. done.
      * exists id1, j1. rewrite lookup_insert_ne by done. eauto.
    + exists id, j'. rewrite lookup_insert_eq. done.
Qed.

Lemma path3_ne_meta id id1 : id1 <> id -> metaPath env id <> metaPath env id1.
Proof. unfold metaPath. congruence. Qed.

Lemma inv_crashed b s : inv env s -> inv env (set_crashed b s).
Proof. intros []. by split. Qed.

Lemma fitsInt_pid pid : (0 < pid)%Z -> (pid <= maxInt)%Z -> fitsInt pid = true.
Proof.
  intros H1 H2. unfold fitsInt. apply andb_true_iff.
  split; apply Z.leb_le; [|done]. unfold minInt. lia.
Qed.

Lemma not_dir3 s (q : list string) :
  inv env s -> length q = 3 -> fs s !! q <> Some Dir.
Proof. intros Hinv Hq Hd. apply (inv_dirs _ _ Hinv) in Hd. lia. Qed.

Lemma terminal_resolveStatus c err : terminal (resolveStatus c err).
Proof. unfold terminal, resolveStatus. destruct c, err; auto. Qed.

Lemma removeFirst_elem id l rest :
  removeFirst id l = Some rest -> id ∈ l /\ forall x, x ∈ rest -> x ∈ l.
Proof.
  revert rest. induction l as [|x l IH]; intros rest; [done|]. cbn.
  destruct (String.eqb_spec x id) as [->|Hne].
  - intros [= ->]. split; [left|]. intros; by right.
  - destruct (removeFirst id l) as [r'|]; [|done]. intros [= <-].
    destruct (IH _ eq_refl) as [? Hsub]. split; [by right|].
    intros y [->|?]%elem_of_cons; [left|right; auto].
Qed.

Lemma inv_submit r id now s :
  inv env s -> jobs s !! id = None -> inv env (submitJob_accept env fixedArgs r id now s).1.
Proof.
  intros Hinv Hfresh. unfold submitJob_accept.
  destruct (r_decoded r) as [req|]; [|done]. cbn [fst].
  set (fs1 := os_MkdirAll (fs s) [getJobsDir env; id]).
  set (fs2 := match r_remaining r with [] => fs1 | _ => _ end).
  set (meta := mkJobMeta id _ _ _ _ _ _ _ _).
  assert (Hlong : forall q, length q = 3 -> fs2 !! q = fs s !! q).
  { intros q Hq. assert (fs1 !! q = fs s !! q) as <-.
    { apply lookup_mkdirFrom_long. cbn. lia. }
    subst fs2. destruct (r_remaining r); [done|].
    apply lookup_os_WriteFile_ne. intros <-. done. }
  assert (Hdir : forall q, fs2 !! q = Some Dir -> fs s !! q = Some Dir \/ length q <= 2).
  { intros q Hq. assert (fs1 !! q = Some Dir) as Hq1.
    { subst fs2. destruct (r_remaining r); [done|]. by eapply os_WriteFile_dir. }
    apply mkdirFrom_dir in Hq1. cbn in Hq1. done. }
  eapply (inv_update s _ id); cbn.
  - done.
  - done.
  - split; cbn; try done.
    + destruct (r_remaining r); auto.
    + apply os_ReadFile_WriteFile. intros [Hd|Hd]%Hdir; [|cbn in Hd; lia].
      apply (inv_dirs _ _ Hinv) in Hd. cbn in Hd. lia.
  - intros id1 Hne. rewrite !lookup_os_WriteFile_ne by by apply path3_ne_meta.
    unfold isOutput. rewrite !lookup_os_WriteFile_ne by (unfold metaPath, stdoutPath; congruence).
    rewrite !Hlong by done. done.
  - intros q Hq%os_WriteFile_dir. auto.
  - unchanged.
  - wrong_pc.
  - by apply (inv_queue_nodup _ _ Hinv).
  - unchanged.
  - wrong_pc.
  - unchanged.
  - unchanged.
  - wrong_pc.
Qed.

Lemma inv_send id s s' :
  inv env s -> submitJob_send id s = Some s' -> inv env s'.
Proof.
  intros Hinv Hstep. unfold submitJob_send in Hstep.
  destruct (jobs s !! id) as [j|] eqn:Hj; [|done].
  destruct (j_pc j) eqn:Hpc; try done.
  case_match; [|done]. injection Hstep as <-.
  assert (Hnotin : id ∉ (queue s).*1).
  { intros ([id1 p] & -> & Hin)%list_elem_of_fmap.
    destruct (inv_queue _ _ Hinv _ _ Hin) as (j1 & Hj1 & Hpc1 & _). cbn in *. congruence. }
  eapply (inv_update s _ id (set_pc PcQueued j)); cbn.
  - done.
  - done.
  - apply job_ok_set_pc; [by eapply inv_jobs| | |].
    + pose proof (ok_phase _ _ _ _ (inv_jobs _ _ Hinv _ _ Hj)) as Hph.
      unfold phase_ok in *. cbn. by rewrite Hpc in Hph.
    + unfold diskView. cbn. by rewrite Hpc.
    + done.
  - done.
  - unchanged.
  - unchanged.
  - not_registered.
  - rewrite fmap_app. apply NoDup_app. split; [by apply (inv_queue_nodup _ _ Hinv)|].
    split; [|apply NoDup_singleton].
    intros x Hx [->|[]%elem_of_nil]%elem_of_cons. done.
  - intros id1 p [?|[=]%list_elem_of_singleton]%elem_of_app; [by left|right; by subst].
  - wrong_pc.
  - unchanged.
  - unchanged.
  - wrong_pc.
Qed.

Lemma inv_dispatch s s' :
  inv env s -> workerLoop s = Some s' -> inv env s'.
Proof.
  intros Hinv Hstep. unfold workerLoop in Hstep.
  destruct (queue s) as [|[id p] rest] eqn:Hq; [done|].
  destruct (jobs s !! id) as [j|] eqn:Hj; [|done]. injection Hstep as <-.
  pose proof (inv_jobs _ _ Hinv _ _ Hj) as Hok.
  destruct (inv_queue _ _ Hinv id p) as (j1 & Hj1 & Hpc & Hin); [rewrite Hq; left|].
  assert (j1 = j) as -> by congruence.
  pose proof (inv_queue_nodup _ _ Hinv) as Hnd. rewrite Hq in Hnd. cbn in Hnd.
  apply NoDup_cons in Hnd as [Hnotin Hnd].
  eapply (inv_update s _ id (set_pc PcSpawn (set_inputFilePath p j))); cbn.
  - done.
  - done.
  - destruct Hok as [Hid Hpid Hinp Hph Hdisk Hout]. split; cbn; try done.
    + by rewrite <- Hin.
    + unfold phase_ok in *. cbn. by rewrite Hpc in Hph.
    + unfold diskView in *. cbn. by rewrite Hpc in Hdisk.
  - done.
  - unchanged.
  - unchanged.
  - not_registered.
  - done.
  - intros id1 p1 Hin1. left. rewrite Hq. by right.
  - intros; by right.
  - unchanged.
  - unchanged.
  - wrong_pc.
Qed.

Lemma inv_start id r now s s' :
  inv env s -> runJob_start env id r now s = Some s' -> inv env s'.
Proof.
  intros Hinv Hstep. unfold runJob_start in Hstep. at_pc Hstep.
  pose proof (inv_jobs _ _ Hinv _ _ Hj) as [Hid Hpid Hinp Hph Hdisk Hout].
  unfold phase_ok in Hph. rewrite Hpc in Hph. destruct Hph as (Hst & Hpid0 & Hpr & Hct).
  rewrite Hid in Hstep.
  destruct (Args (j_meta j)) as [|a0 args]; [injection Hstep as <-; by apply inv_crashed|].
  set (fs1 := os_Create (os_Create (fs s) (stdoutPath env id)) (stderrPath env id)) in *.
  assert (Hother : forall q c, q <> stdoutPath env id -> q <> stderrPath env id ->
            q <> metaPath env id -> os_WriteFile fs1 (metaPath env id) c !! q = fs s !! q).
  { intros q c H1 H2 H3. rewrite lookup_os_WriteFile_ne by done.
    unfold fs1, os_Create. by rewrite !lookup_os_WriteFile_ne. }
  assert (Hdir : forall q c, os_WriteFile fs1 (metaPath env id) c !! q = Some Dir ->
            fs s !! q = Some Dir).
  { intros q c Hq. by do 3 apply os_WriteFile_dir in Hq. }
  assert (Hread : forall c, os_ReadFile (os_WriteFile fs1 (metaPath env id) c) (metaPath env id)
                            = Some c).
  { intros c. apply os_ReadFile_WriteFile. intros Hd.
    do 2 apply os_WriteFile_dir in Hd. exact (not_dir3 s (metaPath env id) Hinv eq_refl Hd). }
  assert (Hopen : forall c, isOutput (os_WriteFile fs1 (metaPath env id) c) (stdoutPath env id)
                            = true).
  { intros c. unfold isOutput. rewrite lookup_os_WriteFile_ne by done.
    unfold fs1, os_Create. rewrite lookup_os_WriteFile_ne by done.
    rewrite lookup_os_WriteFile, decide_True by done.
    pose proof (not_dir3 s (stdoutPath env id) Hinv eq_refl).
    by destruct (fs s !! stdoutPath env id) as [[|?]|]. }
  assert (Hframe : forall c id1, id1 <> id ->
     os_WriteFile fs1 (metaPath env id) c !! metaPath env id1 = fs s !! metaPath env id1
     /\ (isOutput (fs s) (stdoutPath env id1) = true ->
         isOutput (os_WriteFile fs1 (metaPath env id) c) (stdoutPath env id1) = true)).
  { intros c id1 Hne. unfold isOutput.
    rewrite !Hother by (unfold metaPath, stdoutPath, stderrPath; congruence). done. }
  destruct r as [|pid].
  - injection Hstep as <-.
    eapply (inv_update s _ id); cbn; rewrite ?Hid.
    + done.
    + done.
    + split; cbn; try done.
      unfold phase_ok; cbn. right. done.
    + apply Hframe.
    + intros q Hq%Hdir. by left.
    + unchanged.
    + not_registered.
    + by apply (inv_queue_nodup _ _ Hinv).
    + unchanged.
    + wrong_pc.
    + unchanged.
    + unchanged.
    + wrong_pc.
  - destruct ((0 <? pid)%Z && (pid <=? maxInt)%Z) eqn:Hrange; [|done].
    apply andb_true_iff in Hrange as [Hpos%Z.ltb_lt Hmax%Z.leb_le].
    injection Hstep as <-.
    eapply (inv_update s _ id); cbn; rewrite ?Hid.
    + done.
    + done.
    + split; cbn; try done.
      * by apply fitsInt_pid.
      * unfold phase_ok; cbn. split; [done|]. split; [|done]. by exists pid.
    + apply Hframe.
    + intros q Hq%Hdir. by left.
    + unchanged.
    + not_registered.
    + by apply (inv_queue_nodup _ _ Hinv).
    + unchanged.
    + wrong_pc.
    + unchanged.
    + unchanged.
    + wrong_pc.
Qed.

Lemma inv_register id s s' :
  inv env s -> runJob_register id s = Some s' -> inv env s'.
Proof.
  intros Hinv Hstep. unfold runJob_register in Hstep. at_pc Hstep.
  pose proof (inv_jobs _ _ Hinv _ _ Hj) as [Hid Hpid Hinp Hph Hdisk Hout].
  rewrite Hid in Hstep. injection Hstep as <-.
  eapply (inv_update s _ id (set_pc PcWait j)); cbn.
  - done.
  - done.
  - apply job_ok_set_pc; [by eapply inv_jobs| | |].
    + unfold phase_ok in *. cbn. by rewrite Hpc in Hph.
    + unfold diskView. cbn. by rewrite Hpc.
    + by rewrite Hpc.
  - done.
  - unchanged.
  - intros id1 rj. destruct (decide (id = id1)) as [<-|Hne].
    + rewrite lookup_insert_eq. intros [= <-]. right. cbn. split; [done|]. split; [done|]. by left.
    + rewrite lookup_insert_ne by done. by left.
  - intros; left; by left.
  - by apply (inv_queue_nodup _ _ Hinv).
  - unchanged.
  - wrong_pc.
  - unchanged.
  - unchanged.
  - wrong_pc.
Qed.

Lemma inv_childWrites id e bs s s' :
  inv env s -> childWrites env id e bs s = Some s' -> inv env s'.
Proof.
  intros Hinv Hstep. unfold childWrites in Hstep.
  unfold atPC in Hstep. destruct (jobs s !! id) as [j|] eqn:Hj; [|done].
  pose proof (inv_jobs _ _ Hinv _ _ Hj) as Hok.
  pose proof Hok as [Hid Hpid Hinp Hph Hdisk Hout].
  rewrite Hid in Hstep.
  set (p := if e then stderrPath env id else stdoutPath env id) in *.
  assert (s' = set_fs (appendBytes (fs s) p bs) s) as ->.
  { destruct (j_pc j); by simplify_eq. }
  assert (Hp : forall id1, p <> metaPath env id1).
  { intros id1. unfold p, metaPath, stderrPath, stdoutPath. destruct e; congruence. }
  eapply (inv_update s _ id j); cbn.
  - done.
  - by rewrite insert_id.
  - eapply job_ok_frame; [done| |]; cbn.
    + by apply lookup_appendBytes_ne.
    + apply isOutput_appendBytes.
  - intros id1 Hne. split.
    + by apply lookup_appendBytes_ne.
    + apply isOutput_appendBytes.
  - intros q Hq%appendBytes_dir. by left.
  - unchanged.
  - intros; left. congruence.
  - by apply (inv_queue_nodup _ _ Hinv).
  - unchanged.
  - intros; left. split; congruence.
  - unchanged.
  - unchanged.
  - intros; repeat split; congruence.
Qed.

Lemma inv_wait id err now s s' :
  inv env s -> runJob_wait id err now s = Some s' -> inv env s'.
Proof.
  intros Hinv Hstep. unfold runJob_wait in Hstep. at_pc Hstep.
  pose proof (inv_jobs _ _ Hinv _ _ Hj) as [Hid Hpid Hinp Hph Hdisk Hout].
  injection Hstep as <-.
  unfold phase_ok in Hph. rewrite Hpc in Hph. destruct Hph as (Hst & Hstarted & Hct).
  eapply (inv_update s _ id); cbn.
  - done.
  - done.
  - split; cbn; try done.
    + unfold diskView in *. cbn. rewrite Hpc in Hdisk. rewrite Hdisk. do 3 f_equal.
      destruct (j_meta j); cbn in *. by subst.
    + intros _. apply Hout. by rewrite Hpc.
  - done.
  - unchanged.
  - unchanged.
  - intros; left; right; by eexists.
  - by apply (inv_queue_nodup _ _ Hinv).
  - unchanged.
  - wrong_pc.
  - unchanged.
  - unchanged.
  - wrong_pc.
Qed.

Lemma inv_unregister id s s' :
  inv env s -> runJob_unregister id s = Some s' -> inv env s'.
Proof.
  intros Hinv Hstep. unfold runJob_unregister in Hstep. at_pc Hstep.
  pose proof (inv_jobs _ _ Hinv _ _ Hj) as [Hid Hpid Hinp Hph Hdisk Hout].
  rewrite Hid in Hstep. injection Hstep as <-.
  eapply (inv_update s _ id (set_pc (PcCleanup err) j)); cbn.
  - done.
  - done.
  - apply job_ok_set_pc; [by eapply inv_jobs| | |].
    + unfold phase_ok in *. cbn. by rewrite Hpc in Hph.
    + unfold diskView. cbn. by rewrite Hpc.
    + by rewrite Hpc.
  - done.
  - unchanged.
  - intros id1 rj. destruct (decide (id = id1)) as [<-|Hne].
    + by rewrite lookup_delete_eq.
    + rewrite lookup_delete_ne by done. by left.
  - intros; right. apply lookup_delete_eq.
  - by apply (inv_queue_nodup _ _ Hinv).
  - unchanged.
  - wrong_pc.
  - unchanged.
  - unchanged.
  - wrong_pc.
Qed.

Lemma inv_cleanup id s s' :
  inv env s -> runJob_cleanup id s = Some s' -> inv env s'.
Proof.
  intros Hinv Hstep. unfold runJob_cleanup in Hstep. at_pc Hstep.
  pose proof (inv_jobs _ _ Hinv _ _ Hj) as [Hid Hpid Hinp Hph Hdisk Hout].
  injection Hstep as <-.
  set (fs1 := match j_inputFilePath j with [] => fs s | _ => _ end).
  assert (Hlong : forall q, length q = 3 -> fs1 !! q = fs s !! q).
  { intros q Hq. unfold fs1. destruct Hinp as [->| ->]; [done|].
    apply lookup_os_Remove_ne. intros <-. done. }
  assert (Hdir : forall q, fs1 !! q = Some Dir -> fs s !! q = Some Dir).
  { intros q. unfold fs1. destruct (j_inputFilePath j); [done|]. apply os_Remove_dir. }
  eapply (inv_update s _ id (set_pc (PcResolve err) j)); cbn.
  - done.
  - done.
  - apply job_ok_set_pc; [| | |].
    + eapply job_ok_frame; [by eapply inv_jobs| |].
      * by apply Hlong.
      * unfold isOutput. by rewrite Hlong.
    + unfold phase_ok in *. cbn. by rewrite Hpc in Hph.
    + unfold diskView. cbn. by rewrite Hpc.
    + by rewrite Hpc.
  - intros id1 Hne. unfold isOutput. by rewrite !Hlong.
  - intros q Hq%Hdir. by left.
  - unchanged.
  - not_registered.
  - by apply (inv_queue_nodup _ _ Hinv).
  - unchanged.
  - wrong_pc.
  - unchanged.
  - unchanged.
  - wrong_pc.
Qed.

Lemma inv_resolve id s s' :
  inv env s -> runJob_resolve env id s = Some s' -> inv env s'.
Proof.
  intros Hinv Hstep. unfold runJob_resolve in Hstep. at_pc Hstep.
  pose proof (inv_jobs _ _ Hinv _ _ Hj) as [Hid Hpid Hinp Hph Hdisk Hout].
  injection Hstep as <-.
  unfold phase_ok in Hph. rewrite Hpc in Hph. destruct Hph as (Hst & Hstarted).
  eapply (inv_update s _ id); cbn; rewrite ?Hid.
  - done.
  - done.
  - split; cbn; try done.
    + unfold phase_ok. cbn. split; [apply terminal_resolveStatus|done].
    + unfold diskView. cbn. apply os_ReadFile_WriteFile.
      by apply (not_dir3 s (metaPath env id)).
    + intros _. unfold isOutput. rewrite lookup_os_WriteFile_ne by done.
      apply Hout. by rewrite Hpc.
  - intros id1 Hne. unfold isOutput.
    rewrite !lookup_os_WriteFile_ne by (unfold metaPath, stdoutPath; congruence). done.
  - intros q Hq%os_WriteFile_dir. by left.
  - unchanged.
  - not_registered.
  - by apply (inv_queue_nodup _ _ Hinv).
  - unchanged.
  - wrong_pc.
  - unchanged.
  - unchanged.
  - wrong_pc.
Qed.

Lemma inv_notify id s s' :
  inv env s -> runJob_notify id s = Some s' -> inv env s'.
Proof.
  intros Hinv Hstep. unfold runJob_notify in Hstep. at_pc Hstep.
  pose proof (inv_jobs _ _ Hinv _ _ Hj) as [Hid Hpid Hinp Hph Hdisk Hout].
  injection Hstep as <-.
  unfold phase_ok in Hph. rewrite Hpc in Hph. destruct Hph as (Hst & Hstarted).
  assert (job_ok env (fs s) id (set_pc PcDone j)) as Hok'.
  { apply job_ok_set_pc; [by eapply inv_jobs| | |].
    + unfold phase_ok. cbn. by left.
    + unfold diskView. cbn. by rewrite Hpc.
    + by rewrite Hpc. }
  eapply (inv_update s _ id (set_pc PcDone j)).
  - done.
  - by destruct (String.eqb _ _).
  - by destruct (String.eqb _ _).
  - by destruct (String.eqb _ _).
  - destruct (String.eqb _ _); unchanged.
  - destruct (String.eqb _ _); unchanged.
  - not_registered.
  - destruct (String.eqb _ _); by apply (inv_queue_nodup _ _ Hinv).
  - destruct (String.eqb _ _); unchanged.
  - wrong_pc.
  - destruct (String.eqb_spec (Webhook (j_meta j)) EmptyString); cbn; [unchanged|].
    intros id1 [?|Hx%list_elem_of_singleton]%elem_of_app; [by left|subst; by right].
  - destruct (String.eqb _ _); unchanged.
  - wrong_pc.
Qed.

Lemma inv_runWebhook id s s' :
  inv env s -> runWebhook id s = Some s' -> inv env s'.
Proof.
  intros Hinv Hstep. unfold runWebhook in Hstep.
  destruct (removeFirst id (webhooks s)) as [rest|] eqn:Hrm; [|done].
  destruct (jobs s !! id) as [j|] eqn:Hj; [|done].
  injection Hstep as <-.
  apply removeFirst_elem in Hrm as [Hin Hsub].
  destruct (inv_hooks _ _ Hinv _ Hin) as (j1 & Hj1 & Hpc & Hst & Hw).
  assert (j1 = j) as -> by congruence.
  eapply (inv_update s _ id j); cbn.
  - done.
  - by rewrite insert_id.
  - by eapply inv_jobs.
  - done.
  - unchanged.
  - unchanged.
  - intros; left. congruence.
  - by apply (inv_queue_nodup _ _ Hinv).
  - unchanged.
  - intros; left. split; congruence.
  - intros; left; auto.
  - intros p [?|Hx%list_elem_of_singleton]%elem_of_app; [by left|subst; by right].
  - intros; repeat split; congruence.
Qed.

Lemma inv_jobHandler method parts s :
  inv env s -> inv env (jobHandler env method parts s).1.
Proof.
  intros Hinv. unfold jobHandler.
  destruct parts as [|id [|endpoint rest]]; try done.
  repeat (case_match; try done).
  cbn [fst].
  match goal with H : runningJobs s !! id = Some ?r |- _ =>
    destruct (inv_registry _ _ Hinv _ _ H) as [Hc (j & Hj & Hpc)] end.
  rewrite Hc. unfold cancelCtx. rewrite Hj.
  eapply (inv_update s _ id (set_canceled true j)); cbn.
  - done.
  - done.
  - pose proof (inv_jobs _ _ Hinv _ _ Hj) as []. by split.
  - done.
  - unchanged.
  - unchanged.
  - intros; left. congruence.
  - by apply (inv_queue_nodup _ _ Hinv).
  - unchanged.
  - intros; left. split; congruence.
  - unchanged.
  - unchanged.
  - intros; repeat split; congruence.
Qed.

Lemma inv_step a s s' : inv env s -> step env fixedArgs a s = Some s' -> inv env s'.
Proof.
  intros Hinv. unfold step. destruct (crashed s); [done|].
  destruct a; intros Hstep.
  - destruct (jobs s !! id) eqn:Hf; [done|]. injection Hstep as <-. by apply inv_submit.
  - by eapply inv_send.
  - injection Hstep as <-. by apply inv_jobHandler.
  - by eapply inv_dispatch.
  - by eapply inv_start.
  - by eapply inv_register.
  - by eapply inv_childWrites.
  - by eapply inv_wait.
  - by eapply inv_unregister.
  - by eapply inv_cleanup.
  - by eapply inv_resolve.
  - by eapply inv_notify.
  - by eapply inv_runWebhook.
Qed.

Lemma inv_exec acts s s' : inv env s -> exec env fixedArgs acts s = Some s' -> inv env s'.
Proof.
  revert s. induction acts as [|a acts IH]; intros s Hinv; cbn.
  - by intros [= <-].
  - destruct (step env fixedArgs a s) as [s1|] eqn:Hs; [|done].
    intros. eapply IH; [|done]. by eapply inv_step.
Qed.

Lemma reachable_inv s : reachable env fixedArgs s -> inv env s.
Proof. intros [acts H]. eapply inv_exec; [apply inv_init|done]. Qed.
End Proofs.

(** ** What the invariant gives *)

Section Properties.

Variable env : gmap string string.
Variable fixedArgs : list string.

Lemma diskView_fields j :
  ID (diskView j) = ID (j_meta j) /\ Status (diskView j) = Status (j_meta j)
  /\ PID (diskView j) = PID (j_meta j) /\ StartedAt (diskView j) = StartedAt (j_meta j).
Proof. unfold diskView. by destruct (j_pc j). Qed.

Lemma loadMeta_job s id j :
  inv env s -> jobs s !! id = Some j -> loadMeta env (fs s) id = Some (diskView j).
Proof.
  intros Hinv Hj. destruct (inv_jobs _ _ Hinv _ _ Hj) as [Hid Hpid Hinp Hph Hdisk Hout].
  unfold loadMeta. rewrite Hdisk. rewrite unmarshal_marshal; [done|].
  destruct (diskView_fields j) as (_ & _ & -> & _). done.
Qed.

Lemma loadMeta_unknown s id :
  inv env s -> jobs s !! id = None -> loadMeta env (fs s) id = None.
Proof.
  intros Hinv Hj. unfold loadMeta, os_ReadFile.
  destruct (fs s !! metaPath env id) eqn:E; [|done].
  destruct (inv_disk _ _ Hinv id) as [j Hj']; [by eexists|congruence].
Qed.

Lemma persistedStatus_job s id j :
  inv env s -> jobs s !! id = Some j ->
  persistedStatus env s id = Some (Status (j_meta j)).
Proof.
  intros Hinv Hj. unfold persistedStatus. rewrite (loadMeta_job s id j) by done.
  cbn. destruct (diskView_fields j) as (_ & -> & _). done.
Qed.

(** One step of the server, seen from one job: a job that has left
    [runJob] stays as it is, a started process stays recorded, and the
    status moves only at the two saves of [runJob]. *)
Lemma step_job a s s' id j :
  inv env s -> step env fixedArgs a s = Some s' -> jobs s !! id = Some j ->
  exists j', jobs s' !! id = Some j'
    /\ (j_pc j = PcDone -> j' = j)
    /\ (forall pid, j_process j = Some pid -> j_process j' = Some pid)
    /\ (Status (j_meta j') = Status (j_meta j)
        \/ (j_pc j = PcSpawn
            /\ (Status (j_meta j') = "IN_PROGRESS"%string
                \/ Status (j_meta j') = "FAILED"%string))
        \/ (exists err, j_pc j = PcResolve err /\ terminal (Status (j_meta j')))).
Proof.
  intros Hinv Hstep Hj. unfold step in Hstep. destruct (crashed s); [done|].
  assert (Hsame : exists j', jobs s !! id = Some j' /\ (j_pc j = PcDone -> j' = j)
     /\ (forall pid, j_process j = Some pid -> j_process j' = Some pid)
     /\ (Status (j_meta j') = Status (j_meta j)
        \/ (j_pc j = PcSpawn
            /\ (Status (j_meta j') = "IN_PROGRESS"%string
                \/ Status (j_meta j') = "FAILED"%string))
        \/ (exists err, j_pc j = PcResolve err /\ terminal (Status (j_meta j'))))).
  { exists j. auto. }
  destruct a as [r id0 now|id0|method parts| |id0 r now|id0|id0 e bs|id0 err now|id0|id0|id0|id0|id0].
  - destruct (jobs s !! id0) eqn:Hf; [done|]. injection Hstep as <-.
    unfold submitJob_accept. destruct (r_decoded r); [|done]. cbn.
    rewrite lookup_insert_ne by congruence. done.
  - unfold submitJob_send in Hstep.
    destruct (jobs s !! id0) as [j0|] eqn:Hj0; [|done].
    destruct (j_pc j0) eqn:Hpc0; try done. case_match; [|done]. injection Hstep as <-. cbn.
    destruct (decide (id0 = id)) as [->|Hne]; [|by rewrite lookup_insert_ne].
    rewrite lookup_insert_eq. assert (j0 = j) as -> by congruence.
    eexists; split; [done|]. split; [congruence|]. split; [done|]. by left.
  - injection Hstep as <-. unfold jobHandler.
    destruct parts as [|id0 [|endpoint rest]]; try done.
    repeat (case_match; try done). cbn [fst].
    match goal with H : runningJobs s !! id0 = Some ?r |- _ =>
      destruct (inv_registry _ _ Hinv _ _ H) as [Hc (j0 & Hj0 & Hpc0)] end.
    rewrite Hc. unfold cancelCtx. rewrite Hj0. cbn.
    destruct (decide (id0 = id)) as [->|Hne]; [|by rewrite lookup_insert_ne].
    rewrite lookup_insert_eq. assert (j0 = j) as -> by congruence.
    eexists; split; [done|]. split; [|split; [done|by left]].
    intros Hd. destruct Hpc0 as [?|[? ?]]; congruence.
  - unfold workerLoop in Hstep.
    destruct (queue s) as [|[id0 p] rest] eqn:Hq; [done|].
    destruct (jobs s !! id0) as [j0|] eqn:Hj0; [|done]. injection Hstep as <-. cbn.
    destruct (decide (id0 = id)) as [->|Hne]; [|by rewrite lookup_insert_ne].
    rewrite lookup_insert_eq. assert (j0 = j) as -> by congruence.
    destruct (inv_queue _ _ Hinv id p) as (j1 & Hj1 & Hpc & Hin); [rewrite Hq; left|].
    assert (j1 = j) as -> by congruence.
    eexists; split; [done|]. split; [congruence|]. split; [done|]. by left.
  - unfold runJob_start in Hstep. at_pc Hstep.
    destruct (Args (j_meta j0)); [by injection Hstep as <-|].
    pose proof (ok_phase _ _ _ _ (inv_jobs _ _ Hinv _ _ Hj0)) as Hph.
    unfold phase_ok in Hph. rewrite Hpc in Hph. destruct Hph as (_ & _ & Hpr & _).
    destruct r as [|pid]; [|case_match; [|done]]; injection Hstep as <-; cbn.
    all: destruct (decide (id0 = id)) as [->|Hne]; [|by rewrite lookup_insert_ne].
    all: rewrite lookup_insert_eq; assert (j0 = j) as -> by congruence.
    all: eexists; split; [done|]; split; [congruence|].
    all: split; [intros; congruence|]; right; left; cbn; auto.
  - unfold runJob_register in Hstep. at_pc Hstep. injection Hstep as <-; cbn.
    destruct (decide (id0 = id)) as [->|Hne]; [|by rewrite lookup_insert_ne].
    rewrite lookup_insert_eq. assert (j0 = j) as -> by congruence.
    eexists; split; [done|]. split; [congruence|]. split; [done|]. by left.
  - unfold childWrites, atPC in Hstep.
    destruct (jobs s !! id0) as [j0|]; [|done].
    destruct (j_pc j0); try done; by injection Hstep as <-.
  - unfold runJob_wait in Hstep. at_pc Hstep. injection Hstep as <-; cbn.
    destruct (decide (id0 = id)) as [->|Hne]; [|by rewrite lookup_insert_ne].
    rewrite lookup_insert_eq. assert (j0 = j) as -> by congruence.
    eexists; split; [done|]. split; [congruence|]. split; [done|]. by left.
  - unfold runJob_unregister in Hstep. at_pc Hstep. injection Hstep as <-; cbn.
    destruct (decide (id0 = id)) as [->|Hne]; [|by rewrite lookup_insert_ne].
    rewrite lookup_insert_eq. assert (j0 = j) as -> by congruence.
    eexists; split; [done|]. split; [congruence|]. split; [done|]. by left.
  - unfold runJob_cleanup in Hstep. at_pc Hstep. injection Hstep as <-; cbn.
    destruct (decide (id0 = id)) as [->|Hne]; [|by rewrite lookup_insert_ne].
    rewrite lookup_insert_eq. assert (j0 = j) as -> by congruence.
    eexists; split; [done|]. split; [congruence|]. split; [done|]. by left.
  - unfold runJob_resolve in Hstep. at_pc Hstep. injection Hstep as <-; cbn.
    destruct (decide (id0 = id)) as [->|Hne]; [|by rewrite lookup_insert_ne].
    rewrite lookup_insert_eq. assert (j0 = j) as -> by congruence.
    eexists; split; [done|]. split; [congruence|]. split; [done|]. right; right.
    eexists; split; [done|]. cbn. apply terminal_resolveStatus.
  - unfold runJob_notify in Hstep. at_pc Hstep. injection Hstep as <-.
    assert (jobs (put_job id0 (set_pc PcDone j0)
               (if (Webhook (j_meta j0) =? EmptyString)%string then s
                else set_webhooks (webhooks s ++ [id0]) s))
            = <[id0 := set_pc PcDone j0]> (jobs s)) as -> by by destruct (String.eqb _ _).
    destruct (decide (id0 = id)) as [->|Hne]; [|by rewrite lookup_insert_ne].
    rewrite lookup_insert_eq. assert (j0 = j) as -> by congruence.
    eexists; split; [done|]. split; [congruence|]. split; [done|]. by left.
  - unfold runWebhook in Hstep.
    destruct (removeFirst id0 (webhooks s)); [|done].
    destruct (jobs s !! id0); [|done]. by injection Hstep as <-.
Qed.

Lemma not_terminal_in_queue : ~ terminal "IN_QUEUE".
Proof. intros [?|[?|?]]; discriminate. Qed.

Lemma not_terminal_in_progress : ~ terminal "IN_PROGRESS".
Proof. intros [?|[?|?]]; discriminate. Qed.

(** A job with a terminal status has left [runJob]'s body. *)
Lemma terminal_pc s id j :
  inv env s -> jobs s !! id = Some j -> terminal (Status (j_meta j)) ->
  j_pc j = PcNotify \/ j_pc j = PcDone.
Proof.
  intros Hinv Hj Ht. pose proof (ok_phase _ _ _ _ (inv_jobs _ _ Hinv _ _ Hj)) as Hph.
  unfold phase_ok in Hph.
  destruct (j_pc j); auto; destruct Hph as (Hst & _); rewrite Hst in Ht;
    by first [apply not_terminal_in_queue in Ht | apply not_terminal_in_progress in Ht].
Qed.

(** Only a submission adds a job, and it adds it queued. *)
Lemma step_creates a s s' id j' :
  step env fixedArgs a s = Some s' -> jobs s !! id = None -> jobs s' !! id = Some j' ->
  Status (j_meta j') = "IN_QUEUE"%string.
Proof.
  intros Hstep Hj Hj'.
  unfold step in Hstep. destruct (crashed s); [done|].
  destruct a as [r id0 now|id0|method parts| |id0 r now|id0|id0 e bs|id0 err now|id0|id0|id0|id0|id0].
  - destruct (jobs s !! id0) eqn:Hf; [done|]. injection Hstep as <-.
    unfold submitJob_accept in Hj'. destruct (r_decoded r); [|cbn in Hj'; congruence].
    cbn in Hj'. destruct (decide (id0 = id)) as [->|Hne].
    + rewrite lookup_insert_eq in Hj'. injection Hj' as <-. done.
    + rewrite lookup_insert_ne in Hj' by done. congruence.
  - unfold submitJob_send in Hstep.
    destruct (jobs s !! id0) as [j0|] eqn:Hj0; [|done].
    destruct (j_pc j0); try done. case_match; [|done]. injection Hstep as <-. cbn in Hj'.
    rewrite lookup_insert_ne in Hj' by congruence. congruence.
  - injection Hstep as <-. unfold jobHandler in Hj'.
    destruct parts as [|id0 [|endpoint rest]]; try (cbn in Hj'; congruence).
    repeat (case_match; try (cbn in Hj'; congruence)).
    cbn [fst] in Hj'. unfold cancelCtx in Hj'.
    destruct (jobs s !! Cancel _) eqn:Hc; [|congruence]. cbn in Hj'.
    rewrite lookup_insert_ne in Hj' by congruence. congruence.
  - unfold workerLoop in Hstep.
    destruct (queue s) as [|[id0 p] rest]; [done|].
    destruct (jobs s !! id0) as [j0|] eqn:Hj0; [|done]. injection Hstep as <-. cbn in Hj'.
    rewrite lookup_insert_ne in Hj' by congruence. congruence.
  - unfold runJob_start in Hstep. at_pc Hstep.
    destruct (Args (j_meta j)); [injection Hstep as <-; cbn in Hj'; congruence|].
    destruct r as [|pid]; [|case_match; [|done]]; injection Hstep as <-; cbn in Hj';
      rewrite lookup_insert_ne in Hj' by congruence; congruence.
  - unfold runJob_register in Hstep. at_pc Hstep. injection Hstep as <-; cbn in Hj'.
    rewrite lookup_insert_ne in Hj' by congruence. congruence.
  - unfold childWrites, atPC in Hstep.
    destruct (jobs s !! id0) as [j0|]; [|done].
    destruct (j_pc j0); try done; injection Hstep as <-; cbn in Hj'; congruence.
  - unfold runJob_wait in Hstep. at_pc Hstep. injection Hstep as <-; cbn in Hj'.
    rewrite lookup_insert_ne in Hj' by congruence. congruence.
  - unfold runJob_unregister in Hstep. at_pc Hstep. injection Hstep as <-; cbn in Hj'.
    rewrite lookup_insert_ne in Hj' by congruence. congruence.
  - unfold runJob_cleanup in Hstep. at_pc Hstep. injection Hstep as <-; cbn in Hj'.
    rewrite lookup_insert_ne in Hj' by congruence. congruence.
  - unfold runJob_resolve in Hstep. at_pc Hstep. injection Hstep as <-; cbn in Hj'.
    rewrite lookup_insert_ne in Hj' by congruence. congruence.
  - unfold runJob_notify in Hstep. at_pc Hstep. injection Hstep as <-.
    destruct (String.eqb _ _); cbn in Hj';
      rewrite lookup_insert_ne in Hj' by congruence; congruence.
  - unfold runWebhook in Hstep.
    destruct (removeFirst id0 (webhooks s)); [|done].
    destruct (jobs s !! id0); [|done]. injection Hstep as <-. cbn in Hj'. congruence.
Qed.

Lemma step_transition a s s' id :
  inv env s -> step env fixedArgs a s = Some s' ->
  transition (persistedStatus env s id) (persistedStatus env s' id).
Proof.
  intros Hinv Hstep. pose proof (inv_step _ _ _ _ _ Hinv Hstep) as Hinv'.
  destruct (jobs s !! id) as [j|] eqn:Hj.
  - destruct (step_job _ _ _ _ _ Hinv Hstep Hj) as (j' & Hj' & _ & _ & Hst).
    rewrite (persistedStatus_job s id j), (persistedStatus_job s' id j') by done.
    pose proof (ok_phase _ _ _ _ (inv_jobs _ _ Hinv _ _ Hj)) as Hph. unfold phase_ok in Hph.
    destruct Hst as [->|[(Hpc & Hst)|(err & Hpc & Hst)]]; [constructor| |].
    + rewrite Hpc in Hph. destruct Hph as (-> & _). destruct Hst as [-> | ->]; constructor.
    + rewrite Hpc in Hph. destruct Hph as (-> & _). by constructor.
  - unfold persistedStatus at 1. rewrite loadMeta_unknown by done. cbn.
    destruct (jobs s' !! id) as [j'|] eqn:Hj'.
    + rewrite (persistedStatus_job s' id j') by done.
      rewrite (step_creates _ _ _ _ _ Hstep Hj Hj'). constructor.
    + unfold persistedStatus. rewrite loadMeta_unknown by done. constructor.
Qed.

Lemma transition_terminal st o :
  terminal st -> transition (Some st) o -> o = Some st.
Proof.
  intros Ht Htr. inversion Htr; subst; try done.
  - by apply not_terminal_in_queue in Ht.
  - by apply not_terminal_in_queue in Ht.
  - by apply not_terminal_in_progress in Ht.
Qed.

Lemma exec_terminal acts s s' id st :
  inv env s -> exec env fixedArgs acts s = Some s' ->
  persistedStatus env s id = Some st -> terminal st ->
  persistedStatus env s' id = Some st.
Proof.
  revert s. induction acts as [|a acts IH]; intros s Hinv; cbn.
  - by intros [= <-].
  - destruct (step env fixedArgs a s) as [s1|] eqn:Hs; [|done].
    intros Hex Hp Ht. eapply IH; [by eapply inv_step|done| |done].
    eapply transition_terminal; [done|]. rewrite <- Hp. by eapply step_transition.
Qed.

(** C2.  For every job, each step of the server leaves the persisted
    status where it is or moves it along IN_QUEUE -> IN_PROGRESS ->
    COMPLETED, FAILED or CANCELED, with IN_QUEUE -> FAILED for a spawn
    failure; and once the persisted status is COMPLETED, FAILED or
    CANCELED, no run of the server, cancellation requests included,
    changes it. *)
Theorem status_transitions s id :
  reachable env fixedArgs s ->
  (forall a s', step env fixedArgs a s = Some s' ->
     transition (persistedStatus env s id) (persistedStatus env s' id))
  /\ (forall st acts s', persistedStatus env s id = Some st -> terminal st ->
        exec env fixedArgs acts s = Some s' -> persistedStatus env s' id = Some st).
Proof.
  intros Hinv%reachable_inv. split.
  - intros a s'. by apply step_transition.
  - intros st acts s' Hp Ht Hex. by eapply exec_terminal.
Qed.

(** The result endpoint, as far as the model of [http.ServeFile] goes. *)
Lemma result_response method id rest s :
  (jobHandler env method (id :: "result"%string :: rest) s).2
  = match loadMeta env (fs s) id with
    | Some meta =>
        if String.eqb (Status meta) "COMPLETED"
        then http_ServeFile (fs s) (stdoutPath env id)
        else Error "Result not available" StatusNotFound
    | None => Error "Result not available" StatusNotFound
    end.
Proof.
  unfold jobHandler. cbn [String.eqb Ascii.eqb Bool.eqb].
  cbn. destruct (loadMeta env (fs s) id) as [meta|]; [|done].
  by destruct (String.eqb (Status meta) "COMPLETED").
Qed.

(** C3.  For every job identifier, result retrieval, which is a GET of
    [/jobs/{id}/result], returns the bytes of the job's captured standard
    output when the persisted status is COMPLETED; and when the status is
    anything else or there is no record for the identifier, the endpoint
    answers 404, whatever the method and whatever follows in the path. *)
Theorem result_iff_completed s method id rest :
  reachable env fixedArgs s ->
  (persistedStatus env s id = Some "COMPLETED"%string ->
     exists out, fs s !! stdoutPath env id = Some (File (Bytes out))
       /\ (jobHandler env "GET" [id; "result"%string] s).2 = ServeContent (Bytes out))
  /\ (persistedStatus env s id <> Some "COMPLETED"%string ->
      (jobHandler env method (id :: "result"%string :: rest) s).2
      = Error "Result not available" StatusNotFound).
Proof.
  intros Hinv%reachable_inv. rewrite !result_response. unfold persistedStatus. split.
  - destruct (jobs s !! id) as [j|] eqn:Hj; [|by rewrite loadMeta_unknown].
    rewrite (loadMeta_job s id j) by done. cbn. intros [= Hst]. rewrite Hst. cbn.
    destruct (diskView_fields j) as (_ & Hst' & _). rewrite Hst' in Hst.
    destruct (terminal_pc s id j Hinv Hj) as [Hpc|Hpc]; [left; by rewrite Hst| |].
    all: pose proof (ok_stdout _ _ _ _ (inv_jobs _ _ Hinv _ _ Hj)) as Hout.
    all: rewrite Hpc in Hout; specialize (Hout eq_refl).
    all: unfold isOutput in Hout; unfold http_ServeFile, os_ReadFile.
    all: destruct (fs s !! stdoutPath env id) as [[|[?|out]]|]; try done.
    all: by exists out.
  - destruct (loadMeta env (fs s) id) as [meta|]; [|done]. cbn.
    destruct (String.eqb_spec (Status meta) "COMPLETED") as [->|]; [|done].
    intros []. done.
Qed.

(** Once [runJob] has returned, nothing touches the job again. *)
Lemma exec_done acts s s' id j :
  inv env s -> exec env fixedArgs acts s = Some s' ->
  jobs s !! id = Some j -> j_pc j = PcDone ->
  inv env s' /\ jobs s' !! id = Some j.
Proof.
  revert s. induction acts as [|a acts IH]; intros s Hinv; cbn.
  - by intros [= <-].
  - destruct (step env fixedArgs a s) as [s1|] eqn:Hs; [|done].
    intros Hex Hj Hpc. eapply IH; [by eapply inv_step|done| |done].
    destruct (step_job _ _ _ _ _ Hinv Hs Hj) as (j' & Hj' & Hd & _ & _).
    by rewrite Hj', (Hd Hpc).
Qed.

Lemma not_registered_done s id j :
  inv env s -> jobs s !! id = Some j -> ~ registered (j_pc j) -> runningJobs s !! id = None.
Proof.
  intros Hinv Hj Hnr. destruct (runningJobs s !! id) as [rj|] eqn:Hr; [|done].
  destruct (inv_registry _ _ Hinv _ _ Hr) as (_ & j1 & Hj1 & Hreg).
  assert (j1 = j) as -> by congruence. done.
Qed.

(** X26.  In this revision, when [cmd.Start] fails, the persisted record
    goes from IN_QUEUE straight to FAILED; the job is not in the registry
    before the failure nor at any time after it; no process identifier is
    ever recorded; and the start and completion times are both the instant
    of the failure. *)
Theorem failed_spawn_record s id j now :
  reachable env fixedArgs s -> crashed s = false ->
  jobs s !! id = Some j -> j_pc j = PcSpawn -> Args (j_meta j) <> [] ->
  persistedStatus env s id = Some "IN_QUEUE"%string
  /\ runningJobs s !! id = None
  /\ exists s1, step env fixedArgs (Start id StartError now) s = Some s1
     /\ forall acts s2, exec env fixedArgs acts s1 = Some s2 ->
          runningJobs s2 !! id = None
          /\ exists meta, loadMeta env (fs s2) id = Some meta
               /\ Status meta = "FAILED"%string /\ PID meta = 0%Z
               /\ StartedAt meta = now /\ CompletedAt meta = now.
Proof.
  intros Hinv%reachable_inv Hlive Hj Hpc Hargs.
  pose proof (inv_jobs _ _ Hinv _ _ Hj) as [Hid Hpid Hinp Hph Hdisk Hout].
  unfold phase_ok in Hph. rewrite Hpc in Hph. destruct Hph as (Hst & Hpid0 & Hpr & Hct).
  split; [by rewrite (persistedStatus_job s id j), Hst|].
  split.
  { eapply not_registered_done; [done..|]. rewrite Hpc. intros [?|[? ?]]; done. }
  destruct (step env fixedArgs (Start id StartError now) s) as [s1|] eqn:Hstep; last first.
  { unfold step in Hstep. rewrite Hlive in Hstep. unfold runJob_start, atPC in Hstep.
    rewrite Hj, Hpc in Hstep. by destruct (Args (j_meta j)). }
  exists s1. split; [done|]. intros acts s2 Hex.
  pose proof (inv_step _ _ _ _ _ Hinv Hstep) as Hinv1.
  set (meta := set_CompletedAt now (set_StartedAt now (set_Status "FAILED" (j_meta j)))).
  assert (exists j1, jobs s1 !! id = Some j1 /\ j_pc j1 = PcDone /\ j_meta j1 = meta)
    as (j1 & Hj1 & Hpc1 & Hm1).
  { unfold step in Hstep. rewrite Hlive in Hstep. unfold runJob_start, atPC in Hstep.
    rewrite Hj, Hpc in Hstep. destruct (Args (j_meta j)); [done|].
    injection Hstep as <-. cbn. rewrite lookup_insert_eq. by eexists. }
  destruct (exec_done _ _ _ _ _ Hinv1 Hex Hj1 Hpc1) as [Hinv2 Hj2].
  split.
  { eapply not_registered_done; [done..|]. rewrite Hpc1. intros [?|[? ?]]; done. }
  exists meta. rewrite (loadMeta_job s2 id j1) by done.
  unfold diskView. rewrite Hpc1, Hm1. done.
Qed.

Lemma webhookPayload_id meta : webhookPayload meta !! "id"%string = Some (ID meta).
Proof. unfold webhookPayload. by simplify_map_eq. Qed.

Lemma webhookPayload_status meta :
  webhookPayload meta !! "status"%string = Some (Status meta).
Proof. unfold webhookPayload. by simplify_map_eq. Qed.

Lemma webhookPayload_result_url meta :
  webhookPayload meta !! "result_url"%string
  = Some ("/jobs/" +:+ ID meta +:+ "/result")%string.
Proof. unfold webhookPayload. by simplify_map_eq. Qed.

Lemma webhookPayload_dom meta :
  dom (webhookPayload meta) = ({[ "id"; "status"; "result_url" ]} : gset string)%string.
Proof. unfold webhookPayload. rewrite !dom_insert_L, dom_singleton_L. set_solver. Qed.

(** No webhook is pending or was sent for a job whose process never
    started. *)
Lemma no_webhook_unstarted s id j :
  inv env s -> jobs s !! id = Some j -> j_process j = None ->
  (id ∉ webhooks s) /\ forall p, p ∈ posts s -> p_payload p !! "id"%string <> Some id.
Proof.
  intros Hinv Hj Hpr. split.
  - intros Hin. destruct (inv_hooks _ _ Hinv _ Hin) as (j1 & Hj1 & _ & (pid & Hp & _) & _).
    congruence.
  - intros p Hin Hid.
    destruct (inv_posts _ _ Hinv _ Hin) as (id1 & j1 & Hj1 & _ & (pid & Hp & _) & _ & ->).
    cbn in Hid. rewrite webhookPayload_id in Hid.
    rewrite (ok_id _ _ _ _ (inv_jobs _ _ Hinv _ _ Hj1)) in Hid. congruence.
Qed.

(** On the path that ends normally, the webhook check starts one
    [sendWebhook] goroutine for a job with a webhook URL. *)
Lemma notify_starts_webhook s id j :
  crashed s = false -> jobs s !! id = Some j -> j_pc j = PcNotify ->
  Webhook (j_meta j) <> EmptyString ->
  exists s', step env fixedArgs (Notify id) s = Some s'
    /\ webhooks s' = webhooks s ++ [id] /\ posts s' = posts s.
Proof.
  intros Hlive Hj Hpc Hw. unfold step. rewrite Hlive.
  unfold runJob_notify, atPC. rewrite Hj, Hpc.
  destruct (String.eqb_spec (Webhook (j_meta j)) EmptyString); [done|].
  eexists. split; [done|]. done.
Qed.

(** A webhook is pending or sent only for a job whose terminal status is
    on disk. *)
Lemma webhook_after_terminal s id :
  inv env s ->
  id ∈ webhooks s \/ (exists p, p ∈ posts s /\ p_payload p !! "id"%string = Some id) ->
  exists st, persistedStatus env s id = Some st /\ terminal st.
Proof.
  intros Hinv Hw.
  assert (exists j, jobs s !! id = Some j /\ j_pc j = PcDone) as (j & Hj & Hpc).
  { destruct Hw as [Hin|(p & Hin & Hid)].
    - destruct (inv_hooks _ _ Hinv _ Hin) as (j & Hj & Hpc & _). by exists j.
    - destruct (inv_posts _ _ Hinv _ Hin) as (id1 & j & Hj & Hpc & _ & _ & ->).
      cbn in Hid. rewrite webhookPayload_id in Hid.
      rewrite (ok_id _ _ _ _ (inv_jobs _ _ Hinv _ _ Hj)) in Hid.
      injection Hid as ->. by exists j. }
  exists (Status (j_meta j)). split; [by apply persistedStatus_job|].
  pose proof (ok_phase _ _ _ _ (inv_jobs _ _ Hinv _ _ Hj)) as Hph. unfold phase_ok in Hph.
  rewrite Hpc in Hph. destruct Hph as [(Ht & _)|(-> & _)]; [done|].
  right. by left.
Qed.

(** C5, at the input where the code departs from it.  A job submitted
    with a webhook URL whose spawn fails reaches the terminal status FAILED
    and [runJob] returns, yet no [sendWebhook] goroutine is started and no
    POST for the job is made, then or at any later time. *)
Theorem no_webhook_after_failed_spawn s id j now :
  reachable env fixedArgs s -> crashed s = false ->
  jobs s !! id = Some j -> j_pc j = PcSpawn -> Args (j_meta j) <> [] ->
  Webhook (j_meta j) <> EmptyString ->
  exists s1, step env fixedArgs (Start id StartError now) s = Some s1
    /\ forall acts s2, exec env fixedArgs acts s1 = Some s2 ->
         persistedStatus env s2 id = Some "FAILED"%string
         /\ (exists j2, jobs s2 !! id = Some j2 /\ j_pc j2 = PcDone
                        /\ Webhook (j_meta j2) <> EmptyString)
         /\ (id ∉ webhooks s2)
         /\ forall p, p ∈ posts s2 -> p_payload p !! "id"%string <> Some id.
Proof.
  intros Hinv%reachable_inv Hlive Hj Hpc Hargs Hhook.
  pose proof (ok_phase _ _ _ _ (inv_jobs _ _ Hinv _ _ Hj)) as Hph.
  unfold phase_ok in Hph. rewrite Hpc in Hph. destruct Hph as (Hst & Hpid0 & Hpr & Hct).
  destruct (step env fixedArgs (Start id StartError now) s) as [s1|] eqn:Hstep; last first.
  { unfold step in Hstep. rewrite Hlive in Hstep. unfold runJob_start, atPC in Hstep.
    rewrite Hj, Hpc in Hstep. by destruct (Args (j_meta j)). }
  exists s1. split; [done|]. intros acts s2 Hex.
  pose proof (inv_step _ _ _ _ _ Hinv Hstep) as Hinv1.
  assert (exists j1, jobs s1 !! id = Some j1 /\ j_pc j1 = PcDone /\ j_process j1 = None
                     /\ Status (j_meta j1) = "FAILED"%string
                     /\ Webhook (j_meta j1) = Webhook (j_meta j))
    as (j1 & Hj1 & Hpc1 & Hpr1 & Hst1 & Hw1).
  { unfold step in Hstep. rewrite Hlive in Hstep. unfold runJob_start, atPC in Hstep.
    rewrite Hj, Hpc in Hstep. destruct (Args (j_meta j)); [done|].
    injection Hstep as <-. cbn. rewrite lookup_insert_eq. by eexists. }
  destruct (exec_done _ _ _ _ _ Hinv1 Hex Hj1 Hpc1) as [Hinv2 Hj2].
  split; [by rewrite (persistedStatus_job s2 id j1), Hst1|].
  split; [exists j1; by rewrite Hw1|].
  by apply (no_webhook_unstarted s2 id j1).
Qed.

Lemma started_of_process s id j pid :
  inv env s -> jobs s !! id = Some j -> j_process j = Some pid ->
  PID (j_meta j) = pid /\ (0 < pid)%Z.
Proof.
  intros Hinv Hj Hpr.
  pose proof (ok_phase _ _ _ _ (inv_jobs _ _ Hinv _ _ Hj)) as Hph. unfold phase_ok in Hph.
  assert (Hs : started j -> PID (j_meta j) = pid /\ (0 < pid)%Z).
  { intros (pid' & Hpr' & ? & ?). by assert (pid' = pid) as <- by congruence. }
  destruct (j_pc j).
  1-3: destruct Hph as (_ & _ & ? & _); congruence.
  1-2: destruct Hph as (_ & ? & _); auto.
  1-3: destruct Hph as (_ & ?); auto.
  - destruct Hph as (_ & ?); auto.
  - destruct Hph as [(_ & ?)|(_ & _ & ?)]; [auto|congruence].
Qed.

(** Once the process identifier is in the record, it is in every later
    record. *)
Lemma exec_pid acts s s' id j pid :
  inv env s -> exec env fixedArgs acts s = Some s' ->
  jobs s !! id = Some j -> j_process j = Some pid ->
  exists meta, loadMeta env (fs s') id = Some meta /\ PID meta = pid.
Proof.
  revert s j. induction acts as [|a acts IH]; intros s j Hinv; cbn.
  - intros [= <-] Hj Hpr. exists (diskView j). split; [by apply loadMeta_job|].
    destruct (diskView_fields j) as (_ & _ & -> & _).
    by destruct (started_of_process s id j pid).
  - destruct (step env fixedArgs a s) as [s1|] eqn:Hs; [|done].
    intros Hex Hj Hpr.
    destruct (step_job _ _ _ _ _ Hinv Hs Hj) as (j' & Hj' & _ & Hkeep & _).
    eapply (IH s1 j'); [by eapply inv_step|done|done|auto].
Qed.

(** C6, as amended.  The process identifier is absent from the record of
    a queued job; it is present in the IN_PROGRESS record, where it is the
    identifier of the started process; and it is still present, with the
    same value, in the terminal record of a job whose process ran.  Only a
    job whose spawn failed has a terminal record (FAILED) without it.  Once
    in the record, it is in every record persisted later. *)
Theorem pid_recorded_from_start s id j :
  reachable env fixedArgs s -> jobs s !! id = Some j ->
  exists meta, loadMeta env (fs s) id = Some meta
    /\ (Status meta = "IN_QUEUE"%string -> PID meta = 0%Z /\ j_process j = None)
    /\ (Status meta = "IN_PROGRESS"%string ->
          exists pid, j_process j = Some pid /\ PID meta = pid /\ (0 < pid)%Z)
    /\ (terminal (Status meta) ->
          match j_process j with
          | Some pid => PID meta = pid /\ (0 < pid)%Z
          | None => PID meta = 0%Z /\ Status meta = "FAILED"%string
          end)
    /\ (PID meta <> 0%Z ->
          forall acts s', exec env fixedArgs acts s = Some s' ->
            exists meta', loadMeta env (fs s') id = Some meta' /\ PID meta' = PID meta).
Proof.
  intros Hinv%reachable_inv Hj. exists (diskView j).
  split; [by apply loadMeta_job|].
  destruct (diskView_fields j) as (_ & -> & -> & _).
  pose proof (ok_phase _ _ _ _ (inv_jobs _ _ Hinv _ _ Hj)) as Hph. unfold phase_ok in Hph.
  assert (Hstarted : started j ->
            match j_process j with
            | Some pid => PID (j_meta j) = pid /\ (0 < pid)%Z
            | None => PID (j_meta j) = 0%Z /\ Status (j_meta j) = "FAILED"%string
            end).
  { intros (pid & -> & ? & ?). done. }
  assert (Hlater : PID (j_meta j) <> 0%Z ->
            forall acts s', exec env fixedArgs acts s = Some s' ->
              exists meta', loadMeta env (fs s') id = Some meta'
                            /\ PID meta' = PID (j_meta j)).
  { intros Hnz acts s' Hex. destruct (j_process j) as [pid|] eqn:Hpr.
    - destruct (started_of_process s id j pid Hinv Hj Hpr) as [-> _].
      by eapply exec_pid.
    - exfalso. apply Hnz. destruct (j_pc j).
      1-3: by destruct Hph as (_ & ? & _).
      1-2: destruct Hph as (_ & (? & ? & _) & _); congruence.
      1-3: destruct Hph as (_ & (? & ? & _)); congruence.
      + destruct Hph as (_ & (? & ? & _)); congruence.
      + destruct Hph as [(_ & (? & ? & _))|(_ & ? & _)]; [congruence|done]. }
  destruct (j_pc j).
  1-3: destruct Hph as (Hst & Hpid0 & Hpr & _); rewrite Hst;
    (split; [done|]); (split; [done|]); split; [|done];
    by intros ?%not_terminal_in_queue.
  1-2: destruct Hph as (Hst & Hs & _); rewrite Hst;
    (split; [done|]); (split; [by intros _|]); split; [|done];
    by intros ?%not_terminal_in_progress.
  1-3: destruct Hph as (Hst & Hs); rewrite Hst;
    (split; [done|]); (split; [by intros _|]); split; [|done];
    by intros ?%not_terminal_in_progress.
  - destruct Hph as (Ht & Hs). split; [|split; [|split; [|done]]].
    + intros E. rewrite E in Ht. by apply not_terminal_in_queue in Ht.
    + intros E. rewrite E in Ht. by apply not_terminal_in_progress in Ht.
    + intros _. by apply Hstarted.
  - destruct Hph as [(Ht & Hs)|(Hst & Hpid0 & Hpr)].
    + split; [|split; [|split; [|done]]].
      * intros E. rewrite E in Ht. by apply not_terminal_in_queue in Ht.
      * intros E. rewrite E in Ht. by apply not_terminal_in_progress in Ht.
      * intros _. by apply Hstarted.
    + rewrite Hst, Hpr. split; [done|]. split; [done|]. split; [by intros _|done].
Qed.

(** *** The staged input *)

Lemma list_ascii_of_append a b :
  list_ascii_of_string (a +:+ b) = list_ascii_of_string a ++ list_ascii_of_string b.
Proof.
  induction a as [|c a IH]; [done|].
  change (String c a +:+ b)%string with (String c (a +:+ b)). cbn. by rewrite IH.
Qed.

Lemma append_inj_r (a b c : string) : (a +:+ c = b +:+ c)%string -> a = b.
Proof.
  intros H%(f_equal list_ascii_of_string). rewrite !list_ascii_of_append in H.
  apply app_inv_tail in H.
  by rewrite <- (string_of_list_ascii_of_string a), H, string_of_list_ascii_of_string.
Qed.

Lemma inputPath_inj a b : inputPath env a = inputPath env b -> a = b.
Proof.
  unfold inputPath. intros [= H]. apply String.app_inj in H. by apply append_inj_r in H.
Qed.

Lemma mkdirFrom_file (fs : FS) pre rest q c :
  fs !! q = Some (File c) -> mkdirFrom pre rest fs !! q = Some (File c).
Proof.
  revert pre fs. induction rest as [|x r IH]; intros pre fs Hq; [done|].
  cbn [mkdirFrom]. destruct (fs !! (pre ++ [x])) as [[|c']|] eqn:E; [|done|].
  - apply IH. rewrite lookup_insert_ne; [done|]. intros <-. congruence.
  - apply IH. rewrite lookup_insert_ne; [done|]. intros <-. congruence.
Qed.

(** A staged input file stays as it is while the job it belongs to is not
    in the cleanup step. *)
Lemma step_input a s s' id j c :
  inv env s -> step env fixedArgs a s = Some s' ->
  jobs s !! id = Some j -> j_pc j = PcDone ->
  fs s !! inputPath env id = Some (File c) ->
  fs s' !! inputPath env id = Some (File c).
Proof.
  intros Hinv Hstep Hj Hpc Hin. unfold step in Hstep. destruct (crashed s); [done|].
  destruct a as [r id0 now|id0|method parts| |id0 r now|id0|id0 e bs|id0 err now|id0|id0|id0|id0|id0].
  - destruct (jobs s !! id0) eqn:Hf; [done|]. injection Hstep as <-.
    unfold submitJob_accept. destruct (r_decoded r); [|done]. cbn.
    rewrite lookup_os_WriteFile_ne by done.
    assert (os_MkdirAll (fs s) [getJobsDir env; id0] !! inputPath env id = Some (File c))
      by by apply mkdirFrom_file.
    destruct (r_remaining r); [done|].
    rewrite lookup_os_WriteFile_ne; [done|]. intros ->%inputPath_inj. congruence.
  - unfold submitJob_send in Hstep.
    destruct (jobs s !! id0) as [j0|]; [|done].
    destruct (j_pc j0); try done. case_match; [|done]. by injection Hstep as <-.
  - injection Hstep as <-. unfold jobHandler.
    destruct parts as [|id0 [|endpoint rest]]; try done.
    repeat (case_match; try done). cbn [fst]. unfold cancelCtx. by case_match.
  - unfold workerLoop in Hstep.
    destruct (queue s) as [|[id0 p] rest]; [done|].
    destruct (jobs s !! id0) as [j0|]; [|done]. by injection Hstep as <-.
  - unfold runJob_start in Hstep. at_pc Hstep.
    destruct (Args (j_meta j0)); [by injection Hstep as <-|].
    destruct r as [|pid]; [|case_match; [|done]]; injection Hstep as <-; cbn.
    all: unfold os_Create; by rewrite !lookup_os_WriteFile_ne.
  - unfold runJob_register in Hstep. at_pc Hstep. by injection Hstep as <-.
  - unfold childWrites, atPC in Hstep.
    destruct (jobs s !! id0) as [j0|]; [|done].
    destruct (j_pc j0); try done; injection Hstep as <-; cbn.
    all: rewrite lookup_appendBytes_ne; [done|by destruct e].
  - unfold runJob_wait in Hstep. at_pc Hstep. by injection Hstep as <-.
  - unfold runJob_unregister in Hstep. at_pc Hstep. by injection Hstep as <-.
  - unfold runJob_cleanup in Hstep. at_pc Hstep. injection Hstep as <-.
    destruct (ok_input _ _ _ _ (inv_jobs _ _ Hinv _ _ Hj0)) as [E|E]; rewrite E; [done|].
    cbn. change (os_TempDir env :: _) with (inputPath env id0).
    rewrite lookup_os_Remove_ne; [done|]. intros ->%inputPath_inj. congruence.
  - unfold runJob_resolve in Hstep. at_pc Hstep. injection Hstep as <-. cbn.
    by rewrite lookup_os_WriteFile_ne.
  - unfold runJob_notify in Hstep. at_pc Hstep. injection Hstep as <-.
    by destruct (String.eqb _ _).
  - unfold runWebhook in Hstep.
    destruct (removeFirst id0 (webhooks s)); [|done].
    destruct (jobs s !! id0); [|done]. by injection Hstep as <-.
Qed.

Lemma exec_input acts s s' id j c :
  inv env s -> exec env fixedArgs acts s = Some s' ->
  jobs s !! id = Some j -> j_pc j = PcDone ->
  fs s !! inputPath env id = Some (File c) ->
  fs s' !! inputPath env id = Some (File c).
Proof.
  revert s. induction acts as [|a acts IH]; intros s Hinv; cbn.
  - by intros [= <-].
  - destruct (step env fixedArgs a s) as [s1|] eqn:Hs; [|done].
    intros Hex Hj Hpc Hin. eapply IH; [by eapply inv_step|done| |done|by eapply step_input].
    destruct (step_job _ _ _ _ _ Hinv Hs Hj) as (j' & Hj' & Hd & _ & _).
    by rewrite Hj', (Hd Hpc).
Qed.

(** On the path that ends normally, the staged input is removed once the
    process has exited. *)
Lemma cleanup_removes_staged_input s id j err c :
  crashed s = false -> jobs s !! id = Some j -> j_pc j = PcCleanup err ->
  j_inputFilePath j = inputPath env id ->
  fs s !! inputPath env id = Some (File c) ->
  exists s', step env fixedArgs (Cleanup id) s = Some s'
    /\ fs s' !! inputPath env id = None.
Proof.
  intros Hlive Hj Hpc Hpath Hfile. unfold step. rewrite Hlive.
  unfold runJob_cleanup, atPC. rewrite Hj, Hpc, Hpath.
  eexists. split; [done|]. cbn.
  change (os_TempDir env :: _) with (inputPath env id).
  unfold os_Remove. rewrite Hfile. apply lookup_delete_eq.
Qed.

(** C7, at the input where the code departs from it.  A job submitted
    with a staged input whose spawn fails: the input file is opened and
    attached as standard input, the job reaches FAILED and [runJob]
    returns, and the staged file is still on disk, with its bytes, after
    any further run of the server. *)
Theorem staged_input_survives_failed_spawn s id j now c :
  reachable env fixedArgs s -> crashed s = false ->
  jobs s !! id = Some j -> j_pc j = PcSpawn -> Args (j_meta j) <> [] ->
  j_inputFilePath j = inputPath env id ->
  fs s !! inputPath env id = Some (File c) ->
  exists s1, step env fixedArgs (Start id StartError now) s = Some s1
    /\ forall acts s2, exec env fixedArgs acts s1 = Some s2 ->
         persistedStatus env s2 id = Some "FAILED"%string
         /\ (exists j2, jobs s2 !! id = Some j2 /\ j_pc j2 = PcDone
                        /\ j_stdin j2 = Some (inputPath env id))
         /\ fs s2 !! inputPath env id = Some (File c).
Proof.
  intros Hinv%reachable_inv Hlive Hj Hpc Hargs Hpath Hfile.
  destruct (step env fixedArgs (Start id StartError now) s) as [s1|] eqn:Hstep; last first.
  { unfold step in Hstep. rewrite Hlive in Hstep. unfold runJob_start, atPC in Hstep.
    rewrite Hj, Hpc in Hstep. by destruct (Args (j_meta j)). }
  exists s1. split; [done|]. intros acts s2 Hex.
  pose proof (inv_step _ _ _ _ _ Hinv Hstep) as Hinv1.
  pose proof (ok_id _ _ _ _ (inv_jobs _ _ Hinv _ _ Hj)) as Hid.
  assert (exists j1, jobs s1 !! id = Some j1 /\ j_pc j1 = PcDone
                     /\ Status (j_meta j1) = "FAILED"%string
                     /\ j_stdin j1 = Some (inputPath env id)
                     /\ fs s1 !! inputPath env id = Some (File c))
    as (j1 & Hj1 & Hpc1 & Hst1 & Hstdin & Hfile1).
  { unfold step in Hstep. rewrite Hlive in Hstep. unfold runJob_start, atPC in Hstep.
    rewrite Hj, Hpc, Hid, Hpath in Hstep. destruct (Args (j_meta j)); [done|].
    assert (os_Create (os_Create (fs s) (stdoutPath env id)) (stderrPath env id)
              !! inputPath env id = Some (File c)) as Hf1.
    { unfold os_Create. by rewrite !lookup_os_WriteFile_ne. }
    injection Hstep as <-. cbn. rewrite lookup_insert_eq. eexists. split; [done|].
    cbn. rewrite lookup_os_WriteFile_ne by done. unfold os_Open.
    change (os_TempDir env :: _) with (inputPath env id). by rewrite Hf1. }
  destruct (exec_done _ _ _ _ _ Hinv1 Hex Hj1 Hpc1) as [Hinv2 Hj2].
  split; [by rewrite (persistedStatus_job s2 id j1), Hst1|].
  split; [by exists j1|].
  exact (exec_input acts s1 s2 id j1 c Hinv1 Hex Hj1 Hpc1 Hfile1).
Qed.

(** *** loadMeta *)


(** C10.  Every POST the server makes for a job goes to the job's webhook
    URL and carries exactly the fields [id], [status] and [result_url],
    where [result_url] is the relative path /jobs/{id}/result, whatever
    BASE_URL is; the reply to the submission of the same job is where
    BASE_URL is prepended. *)
Theorem webhook_result_url_is_relative s p :
  reachable env fixedArgs s -> p ∈ posts s ->
  exists id j, jobs s !! id = Some j
    /\ p_url p = Webhook (j_meta j)
    /\ dom (p_payload p) = ({[ "id"; "status"; "result_url" ]} : gset string)%string
    /\ p_payload p !! "id"%string = Some id
    /\ p_payload p !! "status"%string = Some (Status (j_meta j))
    /\ p_payload p !! "result_url"%string = Some ("/jobs/" +:+ id +:+ "/result")%string
    /\ submitJob_reply env id
       = EncodeMap
           {[ "id"%string := id;
              "status_url"%string :=
                withBase (getenv env "BASE_URL") ("/jobs/" +:+ id +:+ "/status");
              "result_url"%string :=
                withBase (getenv env "BASE_URL") ("/jobs/" +:+ id +:+ "/result");
              "log_url"%string :=
                withBase (getenv env "BASE_URL") ("/jobs/" +:+ id +:+ "/log") ]}.
Proof.
  intros Hinv%reachable_inv Hin.
  destruct (inv_posts _ _ Hinv _ Hin) as (id & j & Hj & _ & _ & _ & ->).
  pose proof (ok_id _ _ _ _ (inv_jobs _ _ Hinv _ _ Hj)) as Hid.
  exists id, j. cbn.
  rewrite webhookPayload_dom, webhookPayload_id, webhookPayload_status,
    webhookPayload_result_url, Hid. done.
Qed.

(** *** sort.Slice *)

Lemma insertLeft_perm {A} (less : A -> A -> bool) x l :
  insertLeft less x l ≡ₚ x :: l.
Proof.
  induction l as [|y r IH]; [done|]. cbn. destruct (less x y); [|done].
  rewrite IH. apply Permutation_swap.
Qed.

Lemma foldl_insertLeft_perm {A} (less : A -> A -> bool) l acc :
  foldl (fun acc x => insertLeft less x acc) acc l ≡ₚ acc ++ l.
Proof.
  revert acc. induction l as [|x l IH]; intros acc; cbn.
  - by rewrite app_nil_r.
  - rewrite IH, insertLeft_perm. cbn. apply Permutation_middle.
Qed.

Lemma sort_Slice_perm {A} (less : A -> A -> bool) l : sort_Slice less l ≡ₚ l.
Proof. unfold sort_Slice. by rewrite reverse_Permutation, foldl_insertLeft_perm. Qed.

Lemma insertLeft_sorted {A} (less : A -> A -> bool) x l :
  (forall a b, less a b = true -> less b a = false) ->
  leftSorted less l -> leftSorted less (insertLeft less x l).
Proof.
  intros Hasym. induction 1 as [|y|y z r Hyz Hs IH]; cbn.
  - constructor.
  - destruct (less x y) eqn:E; constructor; auto; constructor.
  - destruct (less x y) eqn:E; [|by repeat constructor].
    cbn in IH. destruct (less x z) eqn:E2.
    + by constructor.
    + constructor; [by apply Hasym|done].
Qed.

Lemma foldl_insertLeft_sorted {A} (less : A -> A -> bool) l acc :
  (forall a b, less a b = true -> less b a = false) ->
  leftSorted less acc -> leftSorted less (foldl (fun acc x => insertLeft less x acc) acc l).
Proof.
  intros Hasym. revert acc. induction l as [|x l IH]; intros acc Hs; [done|].
  cbn. apply IH. by apply insertLeft_sorted.
Qed.

Lemma leftSorted_lookup {A} (less : A -> A -> bool) l i a b :
  leftSorted less l -> l !! i = Some a -> l !! S i = Some b -> less a b = false.
Proof.
  intros Hs. revert i. induction Hs as [|x|x y r Hxy Hs IH]; intros i; [done| |].
  - by destruct i.
  - destruct i as [|i]; cbn; [congruence|]. apply IH.
Qed.

Lemma sort_Slice_sorted {A} (less : A -> A -> bool) l i a b :
  (forall a b, less a b = true -> less b a = false) ->
  sort_Slice less l !! i = Some a -> sort_Slice less l !! S i = Some b ->
  less b a = false.
Proof.
  intros Hasym. unfold sort_Slice.
  set (r := foldl _ _ _).
  assert (leftSorted less r) as Hs by (apply foldl_insertLeft_sorted; [done|constructor]).
  intros [Ha Hia]%reverse_lookup_Some [Hb Hib]%reverse_lookup_Some.
  eapply leftSorted_lookup; [done|exact Hb|].
  by replace (S (length r - S (S i))) with (length r - S i) by lia.
Qed.

Lemma string_gt_asym a b : string_gt a b = true -> string_gt b a = false.
Proof.
  unfold string_gt. rewrite (String.compare_antisym b a).
  by destruct (String.compare a b).
Qed.

Lemma string_leb_gt a b : String.leb a b = negb (string_gt a b).
Proof. unfold String.leb, string_gt. by destruct (String.compare a b). Qed.

(** What the listing is ordered by.  It has one entry per readable record (a
    directory entry that is a directory, whose metadata file can be read
    and decodes without error), ordered by the entries' [enqueued_at]
    text in descending byte order: of two adjacent entries, the text of
    the later one is less than or equal to the text of the earlier one. *)
Theorem listJobs_sorted_by_text (fs0 : FS) entries :
  os_ReadDir fs0 [getJobsDir env] = Some entries ->
  exists l, listJobs env fs0 = EncodeJobs l
    /\ l ≡ₚ omap (listEntry env fs0) entries
    /\ (forall e, e ∈ l <->
          exists name data meta, (name, true) ∈ entries
            /\ os_ReadFile fs0 (metaPath env name) = Some data
            /\ json_Unmarshal data zeroMeta = (meta, None)
            /\ e = jobEntry (getenv env "BASE_URL") meta)
    /\ (forall i e1 e2, l !! i = Some e1 -> l !! S i = Some e2 ->
          String.leb (e_EnqueuedAt e2) (e_EnqueuedAt e1) = true).
Proof.
  intros Hdir. unfold listJobs. rewrite Hdir. eexists. split; [done|].
  split; [apply sort_Slice_perm|]. split.
  - intros e. rewrite sort_Slice_perm, list_elem_of_omap. split.
    + intros ([name d] & Hin & He). unfold listEntry in He. cbn in He.
      destruct d; [|done]. cbn in He.
      destruct (os_ReadFile fs0 _) as [data|] eqn:Hr; [|done].
      destruct (json_Unmarshal data zeroMeta) as [meta [err|]] eqn:Hu; [done|].
      injection He as <-. by exists name, data, meta.
    + intros (name & data & meta & Hin & Hr & Hu & ->). exists (name, true).
      split; [done|]. unfold listEntry. cbn. fold (metaPath env name). by rewrite Hr, Hu.
  - intros i e1 e2 H1 H2. rewrite string_leb_gt.
    apply negb_true_iff.
    eapply (sort_Slice_sorted byEnqueuedAtDesc); [|exact H1|exact H2].
    intros a b. apply string_gt_asym.
Qed.

End Properties.

(** ** Records that do not decode *)






Section Load.
Variable env : gmap string string.


End Load.

(** * The properties on concrete runs *)

(** A cancellation request for a completed job leaves COMPLETED on disk. *)
Lemma status_transitions_witness :
  reachable ∅ [] (stateAfter completedRun)
  /\ forall s', step ∅ [] (Handle "PUT" ["a"; "cancel"]%string) (stateAfter completedRun)
               = Some s' ->
       persistedStatus ∅ s' "a" = Some "COMPLETED"%string.
Proof.
  assert (reachable ∅ [] (stateAfter completedRun)) as Hr by by_run completedRun.
  split; [exact Hr|]. intros s' Hstep.
  apply (proj2 (status_transitions ∅ [] (stateAfter completedRun) "a" Hr)
           "COMPLETED"%string [Handle "PUT" ["a"; "cancel"]%string] s').
  - vm_compute. reflexivity.
  - left. reflexivity.
  - cbn [exec]. rewrite Hstep. reflexivity.
Defined.

(** The result of the completed [echo hi] is [hi]; an unknown identifier
    gets 404, also for a HEAD request with a longer path. *)
Lemma result_iff_completed_witness :
  reachable ∅ [] (stateAfter completedRun)
  /\ (jobHandler ∅ "GET" ["a"; "result"]%string (stateAfter completedRun)).2
     = ServeContent (Bytes hi)
  /\ (jobHandler ∅ "HEAD" ["nobody"; "result"; "index.html"]%string
        (stateAfter completedRun)).2
     = Error "Result not available" StatusNotFound.
Proof.
  assert (reachable ∅ [] (stateAfter completedRun)) as Hr by by_run completedRun.
  split; [exact Hr|]. split.
  - destruct (proj1 (result_iff_completed ∅ [] (stateAfter completedRun) "GET" "a" [] Hr))
      as (out & Hout & ->); [vm_compute; reflexivity|].
    vm_compute in Hout. injection Hout as <-. reflexivity.
  - apply (proj2 (result_iff_completed ∅ [] (stateAfter completedRun) "HEAD" "nobody"
                    ["index.html"%string] Hr)).
    vm_compute. discriminate.
Defined.

(** The job whose executable does not exist, once [cmd.Start] has failed. *)
Lemma failed_spawn_record_witness :
  reachable ∅ [] (stateAfter spawnPending)
  /\ persistedStatus ∅ (stateAfter spawnPending) "b" = Some "IN_QUEUE"%string
  /\ runningJobs (stateAfter spawnPending) !! "b"%string = None
  /\ exists s1,
       step ∅ [] (Start "b" StartError (later noon 1)) (stateAfter spawnPending) = Some s1
       /\ forall acts s2, exec ∅ [] acts s1 = Some s2 ->
            runningJobs s2 !! "b"%string = None
            /\ exists meta, loadMeta ∅ (fs s2) "b" = Some meta
                 /\ Status meta = "FAILED"%string /\ PID meta = 0%Z
                 /\ StartedAt meta = later noon 1 /\ CompletedAt meta = later noon 1.
Proof.
  assert (reachable ∅ [] (stateAfter spawnPending)) as Hr by by_run spawnPending.
  split; [exact Hr|].
  apply (failed_spawn_record ∅ [] (stateAfter spawnPending) "b"
           (jobOf (stateAfter spawnPending) "b") (later noon 1) Hr);
    vm_compute; first [reflexivity | discriminate].
Defined.

(** The same job was submitted with a webhook URL: nothing is ever
    posted for it. *)
Lemma no_webhook_after_failed_spawn_witness :
  reachable ∅ [] (stateAfter spawnPending)
  /\ exists s1,
       step ∅ [] (Start "b" StartError (later noon 1)) (stateAfter spawnPending) = Some s1
       /\ forall acts s2, exec ∅ [] acts s1 = Some s2 ->
            persistedStatus ∅ s2 "b" = Some "FAILED"%string
            /\ (exists j2, jobs s2 !! "b"%string = Some j2 /\ j_pc j2 = PcDone
                           /\ Webhook (j_meta j2) <> EmptyString)
            /\ ("b"%string ∉ webhooks s2)
            /\ forall p, p ∈ posts s2 -> p_payload p !! "id"%string <> Some "b"%string.
Proof.
  assert (reachable ∅ [] (stateAfter spawnPending)) as Hr by by_run spawnPending.
  split; [exact Hr|].
  apply (no_webhook_after_failed_spawn ∅ [] (stateAfter spawnPending) "b"
           (jobOf (stateAfter spawnPending) "b") (later noon 1) Hr);
    vm_compute; first [reflexivity | discriminate].
Defined.

(** The record of the completed [echo hi] still holds the process
    identifier 4242. *)
Lemma pid_survives_exit : ~ pid_only_while_running ∅ [].
Proof.
  intros H.
  destruct (H (stateAfter completedRun) "a"%string
              (j_meta (jobOf (stateAfter completedRun) "a")))
    as (_ & _ & Hpid).
  - by_run completedRun.
  - vm_compute. reflexivity.
  - assert (4242 = 0)%Z as E; [|discriminate E].
    apply Hpid. left. vm_compute. reflexivity.
Qed.

(** The same record, read through the amended statement. *)
Lemma pid_recorded_from_start_witness :
  reachable ∅ [] (stateAfter completedRun)
  /\ exists meta, loadMeta ∅ (fs (stateAfter completedRun)) "a" = Some meta
       /\ Status meta = "COMPLETED"%string /\ PID meta = 4242%Z.
Proof.
  assert (reachable ∅ [] (stateAfter completedRun)) as Hr by by_run completedRun.
  split; [exact Hr|].
  destruct (pid_recorded_from_start ∅ [] (stateAfter completedRun) "a"
              (jobOf (stateAfter completedRun) "a") Hr)
    as (meta & Hload & _); [vm_compute; reflexivity|].
  exists meta. split; [exact Hload|].
  vm_compute in Hload. injection Hload as <-. split; reflexivity.
Defined.

(** The same job was submitted with the input [hi]: the staged file
    outlives it. *)
Lemma staged_input_survives_failed_spawn_witness :
  reachable ∅ [] (stateAfter spawnPending)
  /\ exists s1,
       step ∅ [] (Start "b" StartError (later noon 1)) (stateAfter spawnPending) = Some s1
       /\ forall acts s2, exec ∅ [] acts s1 = Some s2 ->
            persistedStatus ∅ s2 "b" = Some "FAILED"%string
            /\ (exists j2, jobs s2 !! "b"%string = Some j2 /\ j_pc j2 = PcDone
                           /\ j_stdin j2 = Some (inputPath ∅ "b"))
            /\ fs s2 !! inputPath ∅ "b" = Some (File (Bytes hi)).
Proof.
  assert (reachable ∅ [] (stateAfter spawnPending)) as Hr by by_run spawnPending.
  split; [exact Hr|].
  apply (staged_input_survives_failed_spawn ∅ [] (stateAfter spawnPending) "b"
           (jobOf (stateAfter spawnPending) "b") (later noon 1) (Bytes hi) Hr);
    vm_compute; first [reflexivity | discriminate].
Defined.

(** C8, at the input where the code departs from it.  Two jobs enqueued
    at 01:30 UTC-4 and, forty minutes later, at 01:10 UTC-5 are listed in
    that order, the older one first: [listJobs] compares the formatted
    texts, and across a change of the UTC offset the later instant can
    have the smaller text. *)
Lemma listing_across_fall_back_not_newest_first :
  ~ newest_first ∅ (fs (stateAfter acrossFallBack)).
Proof.
  intros H.
  set (s := stateAfter acrossFallBack) in *.
  set (a := j_meta (jobOf s "a")). set (b := j_meta (jobOf s "b")).
  assert (instant (EnqueuedAt b) <= instant (EnqueuedAt a))%Z as E.
  { apply (H [jobEntry EmptyString a; jobEntry EmptyString b]) with (i := 0)
      (e1 := jobEntry EmptyString a) (e2 := jobEntry EmptyString b);
      vm_compute; reflexivity. }
  vm_compute in E. by apply E.
Qed.

(** The same listing is in descending order of the texts. *)
Lemma listJobs_sorted_by_text_witness :
  os_ReadDir (fs (stateAfter acrossFallBack)) [getJobsDir ∅]
  = Some (entriesOf (fs (stateAfter acrossFallBack)))
  /\ exists l, listJobs ∅ (fs (stateAfter acrossFallBack)) = EncodeJobs l
       /\ e_EnqueuedAt <$> l
          = ["2024-11-03T01:30:00-04:00"; "2024-11-03T01:10:00-05:00"]%string.
Proof.
  assert (os_ReadDir (fs (stateAfter acrossFallBack)) [getJobsDir ∅]
          = Some (entriesOf (fs (stateAfter acrossFallBack)))) as Hd
    by (vm_compute; reflexivity).
  split; [exact Hd|].
  destruct (listJobs_sorted_by_text ∅ (fs (stateAfter acrossFallBack)) _ Hd)
    as (l & Hl & _).
  exists l. split; [exact Hl|].
  vm_compute in Hl. injection Hl as <-. reflexivity.
Defined.


(** The POST made for the completed [echo hi]. *)
Lemma webhook_result_url_is_relative_witness :
  reachable ∅ [] (stateAfter completedRun)
  /\ firstPost (stateAfter completedRun) ∈ posts (stateAfter completedRun)
  /\ p_payload (firstPost (stateAfter completedRun)) !! "result_url"%string
     = Some "/jobs/a/result"%string.
Proof.
  assert (reachable ∅ [] (stateAfter completedRun)) as Hr by by_run completedRun.
  assert (firstPost (stateAfter completedRun) ∈ posts (stateAfter completedRun)) as Hp
    by (vm_compute; left).
  split; [exact Hr|]. split; [exact Hp|].
  destruct (webhook_result_url_is_relative ∅ [] _ _ Hr Hp)
    as (id & j & _ & _ & _ & Hid & _ & Hurl & _).
  vm_compute in Hid. injection Hid as <-. exact Hurl.
Defined.

(** * Further properties *)

(** ** package strings and routing *)

Lemma strings_CutPrefix_app p s : strings_CutPrefix (p +:+ s) p = Some s.
Proof. induction p as [|a p IH]; simpl; [by destruct s|]. by rewrite Ascii.eqb_refl. Qed.

Lemma strings_Split_nonempty s sep : strings_Split s sep <> [].
Proof. induction s as [|c r IH]; simpl; [done|]. destruct (Ascii.eqb c sep); [done|]. by destruct (strings_Split r sep). Qed.

Lemma strings_Split_none s sep : hasByte sep s = false -> strings_Split s sep = [s].
Proof.
  induction s as [|c r IH]; simpl; [done|].
  intros [Hc Hr]%orb_false_iff. rewrite Hc, IH by done. done.
Qed.

Lemma strings_Split_app a b sep :
  hasByte sep a = false ->
  strings_Split (a +:+ String sep b) sep = a :: strings_Split b sep.
Proof.
  induction a as [|c r IH]; simpl.
  - intros _. by rewrite Ascii.eqb_refl.
  - intros [Hc Hr]%orb_false_iff. rewrite Hc, IH by done. done.
Qed.

Section RouterProofs.
Variable env : gmap string string.
Variable fixedArgs : list string.

Lemma jobsHandler_job_path method rest body id now s :
  jobsHandler env fixedArgs method ("/jobs/" +:+ rest) body id now s
  = ((jobHandler env method (strings_Split rest "/") s).1,
     Some (jobHandler env method (strings_Split rest "/") s).2).
Proof.
  unfold jobsHandler.
  assert (String.eqb ("/jobs/" +:+ rest) "/jobs" = false) as -> by done.
  cbn [andb]. unfold strings_HasPrefix, strings_TrimPrefix.
  rewrite strings_CutPrefix_app. cbn [default]. by destruct jobHandler.
Qed.

Lemma jobHandler_rest method id endpoint rest s :
  jobHandler env method (id :: endpoint :: rest) s = jobHandler env method [id; endpoint] s.
Proof. reflexivity. Qed.

Lemma jobHandler_reads method id endpoint rest s :
  endpoint <> "cancel"%string -> (jobHandler env method (id :: endpoint :: rest) s).1 = s.
Proof.
  intros Hne. unfold jobHandler.
  repeat (case_match; try done).
  all: by apply String.eqb_eq in H2.
Qed.

(** What [jobHandler] can do to the state: nothing, or cancel the context
    of a job found in the registry. *)
Lemma jobHandler_effect method parts s :
  let s' := (jobHandler env method parts s).1 in
  s' = s
  \/ (method = "PUT"%string
      /\ fs s' = fs s /\ queue s' = queue s /\ runningJobs s' = runningJobs s
      /\ webhooks s' = webhooks s /\ posts s' = posts s /\ crashed s' = crashed s
      /\ exists id rj j, runningJobs s !! id = Some rj /\ jobs s !! Cancel rj = Some j
           /\ jobs s' = <[Cancel rj := set_canceled true j]> (jobs s)).
Proof.
  destruct parts as [|id [|endpoint rest]]; try (by left).
  destruct (String.eqb_spec endpoint "cancel") as [->|Hne].
  - unfold jobHandler. cbn [String.eqb Ascii.eqb Bool.eqb].
    destruct (String.eqb_spec method "PUT") as [Hput|]; cbn [negb]; [|by left].
    destruct (runningJobs s !! id) as [rj|] eqn:Hrj; [|by left].
    unfold cancelCtx. destruct (jobs s !! Cancel rj) as [j|] eqn:Hj; [|by left].
    right. cbn. repeat split; try done. by exists id, rj, j.
  - left. by apply jobHandler_reads.
Qed.

(** X1.  The URLs the submission reply hands out lead back to the job: with
    no [BASE_URL] set and an identifier free of slashes, a request for the
    status, result or log URL of the reply is answered by the endpoint of
    that name for that job, whatever the method, and changes nothing. *)
Theorem reply_urls_route_back method body id0 now s id :
  hasByte "/" id = false -> getenv env "BASE_URL" = EmptyString ->
  exists m, submitJob_reply env id = EncodeMap m
    /\ forall key endpoint,
         (key, endpoint) ∈ [("status_url", "status"); ("result_url", "result");
                            ("log_url", "log")]%string ->
         exists url, m !! key = Some url
           /\ jobsHandler env fixedArgs method url body id0 now s
              = (s, Some (jobHandler env method [id; endpoint] s).2).
Proof.
  intros Hid Hbase. unfold submitJob_reply. rewrite Hbase. eexists; split; [done|].
  intros key endpoint Hin. unfold withBase. cbn [String.eqb].
  assert (Hroute : forall e, e <> "cancel"%string -> hasByte "/" e = false ->
    jobsHandler env fixedArgs method ("/jobs/" +:+ id +:+ String "/" e) body id0 now s
    = (s, Some (jobHandler env method [id; e] s).2)).
  { intros e He Hs. rewrite jobsHandler_job_path, strings_Split_app by done.
    rewrite (strings_Split_none e) by done. by rewrite jobHandler_reads. }
  repeat (apply elem_of_cons in Hin as [[= -> ->]|Hin]);
    [| | |by apply elem_of_nil in Hin].
  - eexists; split; [by simplify_map_eq|]. by apply (Hroute "status"%string).
  - eexists; split; [by simplify_map_eq|]. by apply (Hroute "result"%string).
  - eexists; split; [by simplify_map_eq|]. by apply (Hroute "log"%string).
Qed.

(** X2.  A path under [/jobs/] that names no endpoint is not found: [/jobs/]
    itself and [/jobs/{id}] answer 404 for every method and change nothing. *)
Theorem job_path_needs_endpoint method x body id0 now s :
  hasByte "/" x = false ->
  jobsHandler env fixedArgs method ("/jobs/" +:+ x) body id0 now s = (s, Some http_NotFound).
Proof. intros Hx. by rewrite jobsHandler_job_path, strings_Split_none. Qed.

(** X3.  What follows the endpoint name in the path is ignored:
    [/jobs/{id}/{endpoint}/{tail}] is handled as [/jobs/{id}/{endpoint}],
    for the status and cancel endpoints and for every name that is no
    endpoint. The result and log endpoints are left out: [http.ServeFile]
    reads the request path itself. *)
Theorem path_tail_ignored method id endpoint tail body id0 now s :
  hasByte "/" id = false -> hasByte "/" endpoint = false ->
  endpoint <> "result"%string -> endpoint <> "log"%string ->
  jobsHandler env fixedArgs method
    ("/jobs/" +:+ id +:+ String "/" (endpoint +:+ String "/" tail)) body id0 now s
  = jobsHandler env fixedArgs method ("/jobs/" +:+ id +:+ String "/" endpoint) body id0 now s.
Proof.
  intros Hid He _ _. rewrite !jobsHandler_job_path, !strings_Split_app by done.
  rewrite (strings_Split_none endpoint) by done. by rewrite jobHandler_rest.
Qed.

(** X4.  Only a submission and a cancellation change anything. A request
    that is not [POST /jobs] leaves the file system, the queue, the registry
    and the webhooks alone; if it changes the state at all, it is a [PUT]
    that set the cancellation flag of a job in the registry. *)
Theorem requests_change_only_by_post_or_cancel method path body id0 now s :
  ~ (path = "/jobs"%string /\ method = "POST"%string) ->
  let s' := (jobsHandler env fixedArgs method path body id0 now s).1 in
  s' = s
  \/ (method = "PUT"%string
      /\ fs s' = fs s /\ queue s' = queue s /\ runningJobs s' = runningJobs s
      /\ webhooks s' = webhooks s /\ posts s' = posts s /\ crashed s' = crashed s
      /\ exists id rj j, runningJobs s !! id = Some rj /\ jobs s !! Cancel rj = Some j
           /\ jobs s' = <[Cancel rj := set_canceled true j]> (jobs s)).
Proof.
  intros Hpost. unfold jobsHandler.
  pose proof (fun parts => jobHandler_effect method parts s) as Hjob.
  destruct (String.eqb_spec path "/jobs") as [Hp|Hp], (String.eqb_spec method "POST") as [Hm|Hm];
    cbn [andb]; try (exfalso; by apply Hpost).
  - subst path. destruct (String.eqb_spec method "GET"); cbn; by left.
  - destruct (strings_HasPrefix path "/jobs/"); [|by left].
    specialize (Hjob (strings_Split (strings_TrimPrefix path "/jobs/") "/")).
    by destruct jobHandler.
  - destruct (strings_HasPrefix path "/jobs/"); [|by left].
    specialize (Hjob (strings_Split (strings_TrimPrefix path "/jobs/") "/")).
    by destruct jobHandler.
Qed.

End RouterProofs.

(** ** More of what every reachable state satisfies *)

Lemma lookup_os_MkdirAll_keeps (fs : FS) a b q n :
  fs !! q = Some n -> os_MkdirAll fs [a; b] !! q = Some n.
Proof.
  intros Hq. unfold os_MkdirAll. cbn [mkdirFrom app].
  destruct (fs !! [a]) as [[|c]|] eqn:Ea; [| done |].
  - destruct (<[[a]:=Dir]> fs !! [a; b]) as [[|c]|] eqn:Eb.
    + destruct (decide (q = [a; b])) as [->|]; [|rewrite lookup_insert_ne by done].
      * rewrite lookup_insert_ne in Eb by done. rewrite lookup_insert_eq. congruence.
      * destruct (decide (q = [a])) as [->|]; [rewrite lookup_insert_eq; congruence|].
        by rewrite lookup_insert_ne.
    + destruct (decide (q = [a])) as [->|]; [rewrite lookup_insert_eq; congruence|].
      by rewrite lookup_insert_ne.
    + rewrite lookup_insert_ne in Eb by done.
      rewrite lookup_insert_ne by congruence.
      destruct (decide (q = [a])) as [->|]; [rewrite lookup_insert_eq; congruence|].
      by rewrite lookup_insert_ne.
  - destruct (<[[a]:=Dir]> fs !! [a; b]) as [[|c]|] eqn:Eb.
    + destruct (decide (q = [a; b])) as [->|]; [|rewrite lookup_insert_ne by done].
      * rewrite lookup_insert_ne in Eb by done. rewrite lookup_insert_eq. congruence.
      * rewrite lookup_insert_ne by congruence. done.
    + rewrite lookup_insert_ne by congruence. done.
    + rewrite lookup_insert_ne in Eb by done.
      rewrite !lookup_insert_ne by congruence. done.
Qed.

Lemma lookup_os_MkdirAll_new (fs : FS) a b q n :
  os_MkdirAll fs [a; b] !! q = Some n ->
  fs !! q = Some n \/ (n = Dir /\ (q = [a] \/ q = [a; b])).
Proof.
  unfold os_MkdirAll. cbn [mkdirFrom app].
  destruct (fs !! [a]) as [[|c]|] eqn:Ea; [| by left |].
  all: destruct (<[[a]:=Dir]> fs !! [a; b]) as [[|c]|] eqn:Eb.
  all: intros Hq.
  all: repeat match type of Hq with
       | <[?k := _]> _ !! ?q0 = _ =>
           destruct (decide (k = q0)) as [<-|];
           [rewrite lookup_insert_eq in Hq; injection Hq as <-; right; auto
           |rewrite lookup_insert_ne in Hq by done]
       end; auto.
Qed.

Lemma os_MkdirAll_made (fs : FS) a b :
  (forall c, fs !! [a] <> Some (File c)) -> (forall c, fs !! [a; b] <> Some (File c)) ->
  os_MkdirAll fs [a; b] !! [a; b] = Some Dir /\ os_MkdirAll fs [a; b] !! [a] = Some Dir.
Proof.
  intros Ha Hb. unfold os_MkdirAll. cbn [mkdirFrom app].
  destruct (fs !! [a]) as [[|c]|] eqn:Ea; [| by destruct (Ha c) |].
  all: destruct (<[[a]:=Dir]> fs !! [a; b]) as [[|c]|] eqn:Eb.
  all: try (rewrite lookup_insert_ne in Eb by done; by destruct (Hb c)).
  all: rewrite ?lookup_insert_eq; try done.
  all: split; [done|]; rewrite ?lookup_insert_ne by done; by rewrite lookup_insert_eq.
Qed.

Lemma os_MkdirAll_root (fs : FS) a b :
  (forall c, fs !! [a] <> Some (File c)) -> os_MkdirAll fs [a; b] !! [a] = Some Dir.
Proof.
  intros Ha. unfold os_MkdirAll. cbn [mkdirFrom app].
  destruct (fs !! [a]) as [[|c]|] eqn:Ea; [| by destruct (Ha c) |].
  all: destruct (<[[a]:=Dir]> fs !! [a; b]) as [[|c]|] eqn:Eb.
  all: rewrite ?lookup_insert_ne by done; by rewrite lookup_insert_eq.
Qed.

Section MoreProofs.
Variable env : gmap string string.
Variable fixedArgs : list string.



Lemma more_init : inv_more env fixedArgs init.
Proof.
  split; cbn; intros *; rewrite ?lookup_empty; try done. lia.
Qed.

(** What [job_more] reads of the state. *)
Lemma job_more_frame s s' id j :
  job_more env fixedArgs s id j ->
  (isOutput (fs s) (stderrPath env id) = true -> isOutput (fs s') (stderrPath env id) = true) ->
  (fs s !! stderrPath env id = None -> fs s' !! stderrPath env id = None) ->
  (fs s !! stdoutPath env id = None -> fs s' !! stdoutPath env id = None) ->
  (os_ReadFile (fs s) (inputPath env id) = None ->
   os_ReadFile (fs s') (inputPath env id) = None) ->
  (forall c, fs s !! inputPath env id = Some (File c) ->
   exists c', fs s' !! inputPath env id = Some (File c')) ->
  (fs s !! [getJobsDir env; id] = Some Dir -> fs s' !! [getJobsDir env; id] = Some Dir) ->
  runningJobs s' !! id = runningJobs s !! id ->
  hookCount s' id = hookCount s id ->
  job_more env fixedArgs s' id j.
Proof.
  intros [Ha Hs Ho Hr Hc Hh Hi Hst Hd] Herr Herr0 Hout0 Hin Hin' Hdir Hreg Hcount.
  split; try done.
  - destruct (pastSpawn (j_pc j)); [auto|]. destruct Ho. auto.
  - by rewrite Hreg.
  - by rewrite Hcount.
  - auto.
  - intros Htmp Hp. destruct (Hst Htmp Hp) as [Hf Hstdin]. split; [|done].
    intros Hc'. destruct (Hf Hc') as [c Hfc]. eauto.
  - auto.
Qed.

Lemma job_more_same_fs s s' id j :
  job_more env fixedArgs s id j -> fs s' = fs s ->
  runningJobs s' !! id = runningJobs s !! id ->
  hookCount s' id = hookCount s id ->
  job_more env fixedArgs s' id j.
Proof.
  intros Hj Hfs Hreg Hcount. apply (job_more_frame s); rewrite ?Hfs; eauto.
Qed.

(** A step that only writes files of one job leaves the others alone. *)
Lemma job_more_other s s' id id1 j1 :
  id1 <> id -> job_more env fixedArgs s id1 j1 ->
  (forall q, q <> metaPath env id -> q <> stdoutPath env id -> q <> stderrPath env id ->
     fs s' !! q = fs s !! q) ->
  runningJobs s' !! id1 = runningJobs s !! id1 ->
  hookCount s' id1 = hookCount s id1 ->
  job_more env fixedArgs s' id1 j1.
Proof.
  intros Hne Hj Hfs Hreg Hcount.
  assert (H3 : forall q, length q = 3 -> q <> metaPath env id -> q <> stdoutPath env id ->
            q <> stderrPath env id -> fs s' !! q = fs s !! q) by auto.
  assert (H2 : forall q, length q = 2 -> fs s' !! q = fs s !! q).
  { intros q Hq. apply Hfs; intros ->; done. }
  apply (job_more_frame s); try done; unfold isOutput, os_ReadFile.
  - rewrite H3; [done|done|unfold metaPath, stdoutPath, stderrPath; congruence..].
  - rewrite H3; [done|done|unfold metaPath, stdoutPath, stderrPath; congruence..].
  - rewrite H3; [done|done|unfold metaPath, stdoutPath, stderrPath; congruence..].
  - by rewrite H2.
  - intros c. rewrite H2 by done. eauto.
  - by rewrite H2.
Qed.

(** A step that changes or adds one job. *)
Lemma more_update s s' id j' :
  inv_more env fixedArgs s ->
  jobs s' = <[id := j']> (jobs s) ->
  job_more env fixedArgs s' id j' ->
  (forall id1 j1, id1 <> id -> jobs s !! id1 = Some j1 -> job_more env fixedArgs s id1 j1 ->
     job_more env fixedArgs s' id1 j1) ->
  (forall p, fs s' !! p = Some Dir ->
     fs s !! p = Some Dir \/ p = [getJobsDir env] \/ p = [getJobsDir env; id]) ->
  (forall p c, fs s' !! p = Some (File c) ->
     (exists c', fs s !! p = Some (File c'))
     \/ p = metaPath env id \/ p = stdoutPath env id \/ p = stderrPath env id
     \/ p = inputPath env id) ->
  length (queue s') <= queueCapacity ->
  crashed s' = false ->
  (fs s !! [getJobsDir env] = Some Dir -> fs s' !! [getJobsDir env] = Some Dir) ->
  (jobs s !! id = None -> fs s' !! [getJobsDir env] = Some Dir) ->
  inv_more env fixedArgs s'.
Proof.
  intros Hm Hjobs Hjob Hothers Hdirs Hfiles Hq Hcr Hroot Hfirst. split.
  - intros id1 j1. rewrite Hjobs. destruct (decide (id = id1)) as [<-|Hne].
    + rewrite lookup_insert_eq. by intros [= <-].
    + rewrite lookup_insert_ne by done. intros Hj1.
      apply Hothers; [done..|]. by eapply more_jobs.
  - intros p Hp. rewrite Hjobs. destruct (Hdirs _ Hp) as [Hold|[->| ->]].
    + destruct (more_dirs _ _ _ Hm _ Hold) as [->|(x & -> & Hx)]; [by left|].
      right. exists x. split; [done|]. apply lookup_insert_is_Some.
      destruct (decide (id = x)); auto.
    + by left.
    + right. exists id. by rewrite lookup_insert_eq.
  - intros p c Hp. rewrite Hjobs.
    destruct (Hfiles _ _ Hp) as [[c' Hold]|Hnew].
    + destruct (more_files _ _ _ Hm _ _ Hold) as (x & Hx & Hpx).
      exists x. split; [|done]. apply lookup_insert_is_Some.
      destruct (decide (id = x)); auto.
    + exists id. by rewrite lookup_insert_eq.
  - rewrite Hjobs. intros He. by apply insert_non_empty in He.
  - intros _. destruct (jobs s !! id) as [j|] eqn:Hj; [|auto].
    apply Hroot, (more_root _ _ _ Hm). intros He. rewrite He in Hj. by rewrite lookup_empty in Hj.
  - done.
  - congruence.
Qed.

Lemma hookCount_same s s' id :
  webhooks s' = webhooks s -> posts s' = posts s -> hookCount s' id = hookCount s id.
Proof. unfold hookCount. by intros -> ->. Qed.

Lemma more_send id s s' :
  inv env s -> inv_more env fixedArgs s -> submitJob_send id s = Some s' -> crashed s = false ->
  inv_more env fixedArgs s'.
Proof.
  intros Hinv Hm Hstep Hcr. unfold submitJob_send in Hstep.
  destruct (jobs s !! id) as [j|] eqn:Hj; [|done].
  destruct (j_pc j) eqn:Hpc; try done.
  case_match eqn:Hlen; [|done]. injection Hstep as <-.
  apply Nat.ltb_lt in Hlen.
  destruct (more_jobs _ _ _ Hm _ _ Hj) as [Ha Hs Ho Hr Hc Hh Hi Hst Hd].
  unfold cancel_ok, owesWebhook, cleaned in *. rewrite Hpc in *.
  eapply (more_update s _ id (set_pc PcQueued j)); cbn; try done.
  - split; cbn; try done. unregistered.
  - intros id1 j1 Hne Hj1 Hok. by apply (job_more_same_fs s).
  - auto.
  - intros p c Hp. left. eauto.
  - rewrite length_app. cbn. unfold queueCapacity in *. lia.
  - intros; congruence.
Qed.

Lemma more_dispatch s s' :
  inv env s -> inv_more env fixedArgs s -> workerLoop s = Some s' -> crashed s = false -> inv_more env fixedArgs s'.
Proof.
  intros Hinv Hm Hstep Hcr. unfold workerLoop in Hstep.
  destruct (queue s) as [|[id p] rest] eqn:Hq; [done|].
  destruct (jobs s !! id) as [j|] eqn:Hj; [|done]. injection Hstep as <-.
  destruct (inv_queue _ _ Hinv id p) as (j1 & Hj1 & Hpc & Hin); [rewrite Hq; left|].
  assert (j1 = j) as -> by congruence.
  destruct (more_jobs _ _ _ Hm _ _ Hj) as [Ha Hs Ho Hr Hc Hh Hi Hst Hd].
  pose proof (more_queue _ _ _ Hm) as Hlen. rewrite Hq in Hlen. cbn in Hlen.
  unfold cancel_ok, owesWebhook, cleaned in *. rewrite Hpc in *.
  eapply (more_update s _ id (set_pc PcSpawn (set_inputFilePath p j))); cbn; try done.
  - split; cbn; try done; rewrite <- ?Hin; try done. unregistered.
  - intros id1 j1 Hne Hj1' Hok. by apply (job_more_same_fs s).
  - auto.
  - intros q c Hp. left. eauto.
  - lia.
  - intros; congruence.
Qed.

Lemma more_handle method parts s :
  inv env s -> inv_more env fixedArgs s -> crashed s = false ->
  inv_more env fixedArgs (jobHandler env method parts s).1.
Proof.
  intros Hinv Hm Hcr.
  destruct (jobHandler_effect env method parts s)
    as [->|(_ & Hfs & Hq & Hreg & Hw & Hp & Hc & id & rj & j & Hrj & Hj & Hjobs)]; [done|].
  destruct (inv_registry _ _ Hinv _ _ Hrj) as [Hcancel (j0 & Hj0 & Hpc0)].
  rewrite Hcancel in *. assert (j0 = j) as -> by congruence.
  destruct (more_jobs _ _ _ Hm _ _ Hj) as [Ha Hs Ho Hr Hc' Hh Hi Hst Hd].
  eapply (more_update s _ id (set_canceled true j)); rewrite ?Hfs; try done.
  - split; cbn; rewrite ?Hfs, ?Hreg; try done.
    + unfold cancel_ok. cbn. by destruct Hpc0 as [->|[err ->]].
    + by rewrite (hookCount_same s).
  - intros id1 j1 Hne Hj1 Hok. apply (job_more_same_fs s); [done..|by rewrite Hreg|].
    by apply hookCount_same.
  - auto.
  - intros q c Hq'. left. eauto.
  - rewrite Hq. by eapply more_queue.
  - congruence.
  - intros; congruence.
Qed.

Lemma more_register id s s' :
  inv env s -> inv_more env fixedArgs s -> runJob_register id s = Some s' -> crashed s = false ->
  inv_more env fixedArgs s'.
Proof.
  intros Hinv Hm Hstep Hcr. unfold runJob_register in Hstep. at_pc Hstep.
  pose proof (ok_id _ _ _ _ (inv_jobs _ _ Hinv _ _ Hj)) as Hid.
  rewrite Hid in Hstep. injection Hstep as <-.
  destruct (more_jobs _ _ _ Hm _ _ Hj) as [Ha Hs Ho Hr Hc Hh Hi Hst Hd].
  unfold cancel_ok, owesWebhook, cleaned in *. rewrite Hpc in *.
  eapply (more_update s _ id (set_pc PcWait j)); cbn; try done.
  - split; cbn; try done. intros _. by rewrite lookup_insert_eq.
  - intros id1 j1 Hne Hj1 Hok. apply (job_more_same_fs s); [done..| |done].
    cbn. by rewrite lookup_insert_ne.
  - auto.
  - intros q c Hq'. left. eauto.
  - by eapply more_queue.
  - intros; congruence.
Qed.

Lemma more_wait id err now s s' :
  inv env s -> inv_more env fixedArgs s -> runJob_wait id err now s = Some s' -> crashed s = false ->
  inv_more env fixedArgs s'.
Proof.
  intros Hinv Hm Hstep Hcr. unfold runJob_wait in Hstep. at_pc Hstep.
  injection Hstep as <-.
  destruct (more_jobs _ _ _ Hm _ _ Hj) as [Ha Hs Ho Hr Hc Hh Hi Hst Hd].
  unfold cancel_ok, owesWebhook, cleaned in *. rewrite Hpc in *.
  eapply (more_update s _ id); cbn; try done.
  - split; cbn; try done. intros _. apply Hr. by left.
  - intros id1 j1 Hne Hj1 Hok. by apply (job_more_same_fs s).
  - auto.
  - intros q c Hq'. left. eauto.
  - by eapply more_queue.
  - intros; congruence.
Qed.

Lemma more_unregister id s s' :
  inv env s -> inv_more env fixedArgs s -> runJob_unregister id s = Some s' -> crashed s = false ->
  inv_more env fixedArgs s'.
Proof.
  intros Hinv Hm Hstep Hcr. unfold runJob_unregister in Hstep. at_pc Hstep.
  pose proof (ok_id _ _ _ _ (inv_jobs _ _ Hinv _ _ Hj)) as Hid.
  rewrite Hid in Hstep. injection Hstep as <-.
  destruct (more_jobs _ _ _ Hm _ _ Hj) as [Ha Hs Ho Hr Hc Hh Hi Hst Hd].
  unfold cancel_ok, owesWebhook, cleaned in *. rewrite Hpc in *.
  eapply (more_update s _ id (set_pc (PcCleanup err) j)); cbn; try done.
  - split; cbn; try done. unregistered.
  - intros id1 j1 Hne Hj1 Hok. apply (job_more_same_fs s); [done..| |done].
    cbn. by rewrite lookup_delete_ne.
  - auto.
  - intros q c Hq'. left. eauto.
  - by eapply more_queue.
  - intros; congruence.
Qed.

Lemma more_resolve id s s' :
  inv env s -> inv_more env fixedArgs s -> runJob_resolve env id s = Some s' -> crashed s = false ->
  inv_more env fixedArgs s'.
Proof.
  intros Hinv Hm Hstep Hcr. unfold runJob_resolve in Hstep. at_pc Hstep.
  pose proof (ok_id _ _ _ _ (inv_jobs _ _ Hinv _ _ Hj)) as Hid.
  injection Hstep as <-.
  destruct (more_jobs _ _ _ Hm _ _ Hj) as [Ha Hs Ho Hr Hc Hh Hi Hst Hd].
  unfold cancel_ok, owesWebhook, cleaned in *. rewrite Hpc in *.
  assert (Hfs : forall q, q <> metaPath env id ->
            os_WriteFile (fs s) (metaPath env id) (json_MarshalIndent
              (set_Status (resolveStatus (j_canceled j) err) (j_meta j))) !! q = fs s !! q).
  { intros q Hq. by apply lookup_os_WriteFile_ne. }
  eapply (more_update s _ id); cbn; rewrite ?Hid; try done.
  - split; cbn; rewrite ?Hid; try done.
    + unfold isOutput in *. by rewrite Hfs.
    + unregistered.
    + unfold resolveStatus. destruct (j_canceled j), err; done.
    + unfold os_ReadFile. rewrite Hfs by done. auto.
    + intros Htmp Hp. destruct (Hst Htmp Hp) as [_ Hstdin]. split; [tauto|done].
    + intros Htmp. rewrite Hfs by done. auto.
  - intros id1 j1 Hne Hj1 Hok. apply (job_more_other s _ id); try done.
    intros q Hq _ _. cbn. rewrite Hid. by apply Hfs.
  - intros q Hq%os_WriteFile_dir. auto.
  - intros q c Hq. destruct (decide (q = metaPath env id)) as [->|Hne]; [auto|].
    rewrite Hfs in Hq by done. left. eauto.
  - by eapply more_queue.
  - intros Hroot. by rewrite Hfs.
  - intros; congruence.
Qed.

Lemma filter_snoc_length {A} (P : A -> Prop) `{!forall x, Decision (P x)} l x :
  length (filter P (l ++ [x])) = length (filter P l) + (if decide (P x) then 1 else 0).
Proof.
  rewrite filter_app, length_app. f_equal. rewrite filter_cons, filter_nil.
  by case_decide.
Qed.

Lemma more_notify id s s' :
  inv env s -> inv_more env fixedArgs s -> runJob_notify id s = Some s' -> crashed s = false ->
  inv_more env fixedArgs s'.
Proof.
  intros Hinv Hm Hstep Hcr. unfold runJob_notify in Hstep. at_pc Hstep.
  injection Hstep as <-.
  pose proof (ok_phase _ _ _ _ (inv_jobs _ _ Hinv _ _ Hj)) as Hph.
  unfold phase_ok in Hph. rewrite Hpc in Hph. destruct Hph as [_ (pid & Hpr & _)].
  destruct (more_jobs _ _ _ Hm _ _ Hj) as [Ha Hs Ho Hr Hc Hh Hi Hst Hd].
  unfold cancel_ok, owesWebhook, cleaned in *. rewrite Hpc in *.
  set (s1 := if String.eqb (Webhook (j_meta j)) EmptyString then s
             else set_webhooks (webhooks s ++ [id]) s).
  assert (Hs1 : fs s1 = fs s /\ jobs s1 = jobs s /\ queue s1 = queue s
                /\ runningJobs s1 = runningJobs s /\ crashed s1 = crashed s
                /\ forall x, hookCount s1 x
                     = hookCount s x
                       + if decide (x = id) then
                           if String.eqb (Webhook (j_meta j)) EmptyString then 0 else 1
                         else 0).
  { subst s1. destruct (String.eqb (Webhook (j_meta j)) EmptyString).
    - repeat split; try done. intros x. case_decide; lia.
    - repeat split; try done. intros x. unfold hookCount. cbn.
      rewrite filter_snoc_length. repeat case_decide; try congruence; lia. }
  destruct Hs1 as (Hfs & Hjobs & Hq & Hreg & Hcr1 & Hcount).
  eapply (more_update s _ id (set_pc PcDone j)); cbn; rewrite ?Hfs, ?Hjobs, ?Hq, ?Hreg; try done.
  - split; cbn; rewrite ?Hfs, ?Hreg; try done.
    + unregistered.
    + unfold owesWebhook. cbn. rewrite Hpr.
      change (hookCount _ id) with (hookCount s1 id).
      rewrite Hcount, Hh, decide_True by done.
      by destruct (String.eqb (Webhook (j_meta j)) EmptyString).
    + intros _. apply Hi. by right.
    + intros Htmp Hp. destruct (Hst Htmp Hp) as [_ Hstdin]. split; [|done].
      intros Hc'. exfalso. apply Hc'. congruence.
  - intros id1 j1 Hne Hj1 Hok. apply (job_more_same_fs s); [done..| |].
    { change (runningJobs _) with (runningJobs s1) at 1. by rewrite Hreg. }
    trans (hookCount s1 id1); [done|].
    rewrite Hcount, decide_False by done. lia.
  - auto.
  - intros q c Hq'. left. eauto.
  - by eapply more_queue.
  - congruence.
  - intros; congruence.
Qed.

Lemma removeFirst_count id l rest x :
  removeFirst id l = Some rest ->
  length (filter (fun y => y = x) l)
  = length (filter (fun y => y = x) rest) + (if decide (id = x) then 1 else 0).
Proof.
  revert rest. induction l as [|y l IH]; intros rest; [done|]. cbn [removeFirst].
  destruct (String.eqb_spec y id) as [->|Hne].
  - intros [= ->]. rewrite filter_cons. repeat case_decide; cbn; lia.
  - destruct (removeFirst id l) as [r'|]; [|done]. intros [= <-].
    rewrite !filter_cons. specialize (IH _ eq_refl).
    repeat case_decide; cbn; try congruence; lia.
Qed.

Lemma more_runWebhook id s s' :
  inv env s -> inv_more env fixedArgs s -> runWebhook id s = Some s' -> crashed s = false ->
  inv_more env fixedArgs s'.
Proof.
  intros Hinv Hm Hstep Hcr. unfold runWebhook in Hstep.
  destruct (removeFirst id (webhooks s)) as [rest|] eqn:Hrm; [|done].
  destruct (jobs s !! id) as [j|] eqn:Hj; [|done]. injection Hstep as <-.
  pose proof (ok_id _ _ _ _ (inv_jobs _ _ Hinv _ _ Hj)) as Hid.
  assert (Hcount : forall x, hookCount (sendWebhook (j_meta j) (set_webhooks rest s)) x
                             = hookCount s x).
  { intros x. unfold hookCount. cbn. rewrite filter_snoc_length.
    rewrite (removeFirst_count id (webhooks s) rest x Hrm). cbn.
    unfold webhookPayload. rewrite lookup_insert_eq, Hid.
    repeat case_decide; try congruence; lia. }
  split; cbn.
  - intros id1 j1 Hj1. apply (job_more_same_fs s); [by eapply more_jobs|done..].
  - by eapply more_dirs.
  - by eapply more_files.
  - by eapply more_empty.
  - by eapply more_root.
  - by eapply more_queue.
  - congruence.
Qed.

Lemma lookup_appendBytes_None (fs : FS) p bs q :
  fs !! q = None -> appendBytes fs p bs !! q = None.
Proof.
  intros Hq. unfold appendBytes. destruct (fs !! p) as [[|[j|b]]|] eqn:E; try done.
  rewrite lookup_insert_ne; [done|congruence].
Qed.

Lemma lookup_appendBytes_kind (fs : FS) p bs q :
  (appendBytes fs p bs !! q = Some Dir -> fs !! q = Some Dir)
  /\ (forall c, appendBytes fs p bs !! q = Some (File c) -> exists c', fs !! q = Some (File c'))
  /\ (fs !! q = Some Dir -> appendBytes fs p bs !! q = Some Dir).
Proof.
  unfold appendBytes. destruct (fs !! p) as [[|[j|b]]|] eqn:E; eauto.
  destruct (decide (p = q)) as [<-|].
  - rewrite lookup_insert_eq, E. split; [done|]. split; [eauto|done].
  - rewrite lookup_insert_ne by done. eauto.
Qed.

Lemma more_childWrites id e bs s s' :
  inv env s -> inv_more env fixedArgs s -> childWrites env id e bs s = Some s' -> crashed s = false ->
  inv_more env fixedArgs s'.
Proof.
  intros Hinv Hm Hstep Hcr. unfold childWrites, atPC in Hstep.
  destruct (jobs s !! id) as [j|] eqn:Hj; [|done].
  pose proof (ok_id _ _ _ _ (inv_jobs _ _ Hinv _ _ Hj)) as Hid. rewrite Hid in Hstep.
  set (p := if e then stderrPath env id else stdoutPath env id) in *.
  assert (Hlen : length p = 3) by by destruct e.
  assert (s' = set_fs (appendBytes (fs s) p bs) s) as ->
    by (destruct (j_pc j); congruence).
  split; cbn.
  - intros id1 j1 Hj1. apply (job_more_frame s); [by eapply more_jobs|..]; cbn; try done.
    + apply isOutput_appendBytes.
    + apply lookup_appendBytes_None.
    + apply lookup_appendBytes_None.
    + unfold os_ReadFile. rewrite lookup_appendBytes_ne; [done|]. intros Heq.
      rewrite Heq in Hlen. done.
    + intros c. rewrite lookup_appendBytes_ne; [eauto|]. intros Heq.
      rewrite Heq in Hlen. done.
    + apply lookup_appendBytes_kind.
  - intros q Hq. apply lookup_appendBytes_kind in Hq. by eapply more_dirs.
  - intros q c Hq. apply lookup_appendBytes_kind in Hq as [c' Hq]. by eapply more_files.
  - intros He. rewrite He in Hj. by rewrite lookup_empty in Hj.
  - intros Hne. apply lookup_appendBytes_kind. by eapply more_root.
  - by eapply more_queue.
  - congruence.
Qed.

Lemma os_Remove_keeps_dir (fs : FS) p q :
  fs !! q = Some Dir -> os_Remove fs p !! q = Some Dir.
Proof.
  intros Hq. unfold os_Remove. destruct (fs !! p) as [[|c]|] eqn:E; try done.
  rewrite lookup_delete_ne; [done|congruence].
Qed.

Lemma os_Remove_file (fs : FS) p q c :
  os_Remove fs p !! q = Some (File c) -> fs !! q = Some (File c) /\ p <> q.
Proof.
  unfold os_Remove. destruct (fs !! p) as [[|c']|] eqn:E; try (split; [done|congruence]).
  destruct (decide (p = q)) as [->|]; [by rewrite lookup_delete_eq|].
  by rewrite lookup_delete_ne.
Qed.

Lemma os_ReadFile_Remove (fs : FS) p q :
  p = q \/ os_ReadFile fs q = None -> os_ReadFile (os_Remove fs p) q = None.
Proof.
  intros H. unfold os_ReadFile.
  destruct (os_Remove fs p !! q) as [[|c]|] eqn:E; try done.
  apply os_Remove_file in E as [E Hne]. destruct H as [?|H]; [done|].
  unfold os_ReadFile in H. by rewrite E in H.
Qed.

Lemma more_cleanup id s s' :
  inv env s -> inv_more env fixedArgs s -> runJob_cleanup id s = Some s' -> crashed s = false ->
  inv_more env fixedArgs s'.
Proof.
  intros Hinv Hm Hstep Hcr. unfold runJob_cleanup in Hstep. at_pc Hstep.
  injection Hstep as <-.
  pose proof (ok_input _ _ _ _ (inv_jobs _ _ Hinv _ _ Hj)) as Hinp.
  destruct (more_jobs _ _ _ Hm _ _ Hj) as [Ha Hs Ho Hr Hc Hh Hi Hst Hd].
  unfold cancel_ok, owesWebhook, cleaned in *. rewrite Hpc in *.
  set (fs1 := match j_inputFilePath j with [] => fs s | _ => _ end).
  assert (Hfs1 : (j_inputFilePath j = [] /\ fs1 = fs s)
                 \/ (j_inputFilePath j = inputPath env id
                     /\ fs1 = os_Remove (fs s) (inputPath env id))).
  { subst fs1. destruct Hinp as [Hp|Hp]; rewrite Hp; [by left|by right]. }
  assert (Hne : forall q, q <> inputPath env id -> fs1 !! q = fs s !! q).
  { intros q Hq. destruct Hfs1 as [[_ ->]|[_ ->]]; [done|]. by apply lookup_os_Remove_ne. }
  assert (Hkeep : forall q, fs s !! q = Some Dir -> fs1 !! q = Some Dir).
  { intros q Hq. destruct Hfs1 as [[_ ->]|[_ ->]]; [done|]. by apply os_Remove_keeps_dir. }
  assert (Hnone : forall q, os_ReadFile (fs s) q = None -> os_ReadFile fs1 q = None).
  { intros q Hq. destruct Hfs1 as [[_ ->]|[_ ->]]; [done|]. apply os_ReadFile_Remove. by right. }
  assert (Hdir : forall q, fs1 !! q = Some Dir -> fs s !! q = Some Dir).
  { intros q Hq. destruct Hfs1 as [[_ ->]|[_ ->]]; [done|]. by eapply os_Remove_dir. }
  assert (Hfile : forall q c, fs1 !! q = Some (File c) -> fs s !! q = Some (File c)).
  { intros q c Hq. destruct Hfs1 as [[_ ->]|[_ ->]]; [done|]. by apply os_Remove_file in Hq as [? _]. }
  eapply (more_update s _ id (set_pc (PcResolve err) j)); cbn; try done.
  - split; cbn; try done.
    + unfold isOutput in *. by rewrite Hne.
    + unregistered.
    + intros _. destruct Hfs1 as [[Hp Heq]|[Hp Heq]]; rewrite Heq.
      * apply Hi. by left.
      * apply os_ReadFile_Remove. by left.
    + intros Htmp Hp. destruct (Hst Htmp Hp) as [_ Hstdin]. split; [tauto|done].
    + intros Htmp. auto.
  - intros id1 j1 Hne1 Hj1 Hok. apply (job_more_frame s); cbn; try done.
    + unfold isOutput. by rewrite Hne.
    + by rewrite Hne.
    + by rewrite Hne.
    + auto.
    + intros c. rewrite Hne; [eauto|]. intros Heq%inputPath_inj. done.
    + auto.
  - auto.
  - intros q c Hq%Hfile. left. eauto.
  - by eapply more_queue.
  - apply Hkeep.
  - intros; congruence.
Qed.

Lemma more_start id r now s s' :
  inv env s -> inv_more env fixedArgs s -> runJob_start env id r now s = Some s' -> crashed s = false ->
  inv_more env fixedArgs s'.
Proof.
  intros Hinv Hm Hstep Hcr. unfold runJob_start in Hstep. at_pc Hstep.
  pose proof (ok_id _ _ _ _ (inv_jobs _ _ Hinv _ _ Hj)) as Hid.
  destruct (more_jobs _ _ _ Hm _ _ Hj) as [Ha Hs Ho Hr Hc Hh Hi Hst Hd].
  unfold cancel_ok, owesWebhook, cleaned in *. rewrite Hpc in *.
  rewrite Hid in Hstep.
  pose proof (ok_phase _ _ _ _ (inv_jobs _ _ Hinv _ _ Hj)) as Hph.
  unfold phase_ok in Hph. rewrite Hpc in Hph. destruct Hph as (_ & _ & Hpr & _).
  destruct (Args (j_meta j)) as [|a0 args] eqn:Hargs.
  { injection Hstep as <-. split; cbn.
    - intros id1 j1 Hj1. apply (job_more_same_fs s); [by eapply more_jobs|done..].
    - by eapply more_dirs.
    - by eapply more_files.
    - by eapply more_empty.
    - by eapply more_root.
    - by eapply more_queue.
    - intros _. by exists id, j. }
  set (fs1 := os_Create (os_Create (fs s) (stdoutPath env id)) (stderrPath env id)) in *.
  assert (Hother : forall q c, q <> metaPath env id -> q <> stdoutPath env id ->
            q <> stderrPath env id -> os_WriteFile fs1 (metaPath env id) c !! q = fs s !! q).
  { intros q c H1 H2 H3. rewrite lookup_os_WriteFile_ne by done.
    unfold fs1, os_Create. by rewrite !lookup_os_WriteFile_ne. }
  assert (H2 : forall q c, length q = 2 -> os_WriteFile fs1 (metaPath env id) c !! q = fs s !! q).
  { intros q c Hq. apply Hother; intros ->; done. }
  assert (Hdir : forall q c, os_WriteFile fs1 (metaPath env id) c !! q = Some Dir ->
            fs s !! q = Some Dir).
  { intros q c Hq. by do 3 apply os_WriteFile_dir in Hq. }
  assert (Hopen : forall c, isOutput (os_WriteFile fs1 (metaPath env id) c) (stderrPath env id)
                            = true).
  { intros c. unfold isOutput. rewrite lookup_os_WriteFile_ne by done.
    unfold fs1, os_Create. rewrite lookup_os_WriteFile, decide_True by done.
    destruct (os_WriteFile (fs s) (stdoutPath env id) (Bytes []) !! stderrPath env id)
      as [[|?]|] eqn:E; try done.
    apply os_WriteFile_dir in E. by destruct (not_dir3 env s (stderrPath env id) Hinv eq_refl). }
  assert (Hstdin : os_TempDir env <> getJobsDir env -> j_inputFilePath j = inputPath env id ->
    match j_inputFilePath j with
    | [] => None
    | p => if os_Open fs1 p then Some p else None
    end = Some (inputPath env id)).
  { intros Htmp Hp. destruct (Hst Htmp Hp) as [Hf _]. destruct Hf as [c Hc']; [tauto|].
    rewrite Hp. unfold inputPath at 1. fold (inputPath env id).
    unfold os_Open, fs1, os_Create. rewrite !lookup_os_WriteFile_ne by done. by rewrite Hc'. }
  assert (Hfiles : forall q c c', os_WriteFile fs1 (metaPath env id) c !! q = Some (File c') ->
    (exists c'', fs s !! q = Some (File c''))
    \/ q = metaPath env id \/ q = stdoutPath env id \/ q = stderrPath env id
    \/ q = inputPath env id).
  { intros q c c' Hq.
    destruct (decide (q = metaPath env id)); [auto|].
    destruct (decide (q = stdoutPath env id)); [auto|].
    destruct (decide (q = stderrPath env id)); [auto|].
    rewrite Hother in Hq by done. left. eauto. }
  destruct r as [|pid].
  - injection Hstep as <-.
    eapply (more_update s _ id); cbn; rewrite ?Hid; try done.
    + split; cbn; rewrite ?Hid, ?Hargs; try done.
      * unregistered.
      * rewrite Hc. split; intros [=].
      * by rewrite Hpr.
      * unfold os_ReadFile. rewrite H2 by done. intros [Hp|Hp]; [auto|].
        by rewrite Hpr in Hp.
      * intros Htmp Hp. split; [|auto]. intros _. rewrite H2 by done.
        destruct (Hst Htmp Hp) as [Hf _]. apply Hf. tauto.
      * intros Htmp. rewrite H2 by done. auto.
    + intros id1 j1 Hne Hj1 Hok. apply (job_more_other s _ id); try done.
      intros q Hq1 Hq2 Hq3. cbn. rewrite Hid. by apply Hother.
    + intros q Hq%Hdir. auto.
    + intros q c Hq. by eapply Hfiles.
    + by eapply more_queue.
    + intros Hroot. by rewrite Hother.
    + intros; congruence.
  - destruct ((0 <? pid)%Z && (pid <=? maxInt)%Z) eqn:Hrange; [|done].
    injection Hstep as <-.
    eapply (more_update s _ id); cbn; rewrite ?Hid; try done.
    + split; cbn; rewrite ?Hid, ?Hargs; try done.
      * unregistered.
      * unfold os_ReadFile. rewrite H2 by done. intros [Hp|Hp]; [auto|done].
      * intros Htmp Hp. split; [|auto]. intros _. rewrite H2 by done.
        destruct (Hst Htmp Hp) as [Hf _]. apply Hf. tauto.
      * intros Htmp. rewrite H2 by done. auto.
    + intros id1 j1 Hne Hj1 Hok. apply (job_more_other s _ id); try done.
      intros q Hq1 Hq2 Hq3. cbn. rewrite Hid. by apply Hother.
    + intros q Hq%Hdir. auto.
    + intros q c Hq. by eapply Hfiles.
    + by eapply more_queue.
    + intros Hroot. by rewrite Hother.
    + intros; congruence.
Qed.

Lemma owner_inj a b p :
  (p = metaPath env a \/ p = stdoutPath env a \/ p = stderrPath env a \/ p = inputPath env a) ->
  (p = metaPath env b \/ p = stdoutPath env b \/ p = stderrPath env b \/ p = inputPath env b) ->
  a = b.
Proof.
  intros [->|[->|[->| ->]]] [H|[H|[H|H]]]; try (by injection H); try done.
  by apply inputPath_inj in H.
Qed.

Lemma fresh_no_file s id p c :
  inv_more env fixedArgs s -> jobs s !! id = None ->
  (p = metaPath env id \/ p = stdoutPath env id \/ p = stderrPath env id
   \/ p = inputPath env id) ->
  fs s !! p <> Some (File c).
Proof.
  intros Hm Hfresh Hp Hf. destruct (more_files _ _ _ Hm _ _ Hf) as (x & [jx Hx] & Hpx).
  assert (id = x) as -> by by eapply owner_inj. congruence.
Qed.

Lemma fresh_none s id p :
  inv_more env fixedArgs s -> jobs s !! id = None -> length p = 3 ->
  (p = metaPath env id \/ p = stdoutPath env id \/ p = stderrPath env id) ->
  fs s !! p = None.
Proof.
  intros Hm Hfresh Hlen Hp. destruct (fs s !! p) as [[|c]|] eqn:E; [| |done].
  - destruct (more_dirs _ _ _ Hm _ E) as [->|(x & -> & _)]; done.
  - exfalso. eapply fresh_no_file; [done..| |done]. tauto.
Qed.

Lemma filter_none {A} (P : A -> Prop) `{!forall x, Decision (P x)} l :
  (forall x, x ∈ l -> ~ P x) -> filter P l = [].
Proof.
  induction l as [|x l IH]; intros Hno; [done|].
  rewrite filter_cons, decide_False by (apply Hno; left).
  apply IH. intros y Hy. apply Hno. by right.
Qed.

Lemma hookCount_fresh s id :
  inv env s -> jobs s !! id = None -> hookCount s id = 0.
Proof.
  intros Hinv Hfresh. unfold hookCount. rewrite !filter_none; [done| |].
  - intros p Hp Hid. destruct (inv_posts _ _ Hinv _ Hp) as (x & j & Hj & _ & _ & _ & ->).
    cbn in Hid. unfold webhookPayload in Hid. rewrite lookup_insert_eq in Hid.
    injection Hid as Hid. pose proof (ok_id _ _ _ _ (inv_jobs _ _ Hinv _ _ Hj)). congruence.
  - intros x Hx ->. destruct (inv_hooks _ _ Hinv _ Hx) as (j & Hj & _). congruence.
Qed.

Lemma os_WriteFile_keeps_dir (fs : FS) p c q :
  fs !! q = Some Dir -> os_WriteFile fs p c !! q = Some Dir.
Proof.
  intros Hq. rewrite lookup_os_WriteFile. case_decide; [subst q; by rewrite Hq|done].
Qed.

Lemma more_submit r id now s :
  inv env s -> inv_more env fixedArgs s -> jobs s !! id = None -> crashed s = false ->
  inv_more env fixedArgs (submitJob_accept env fixedArgs r id now s).1.
Proof.
  intros Hinv Hm Hfresh Hcr. unfold submitJob_accept.
  destruct (r_decoded r) as [req|]; [|done]. cbn [fst].
  set (J := getJobsDir env).
  set (fs1 := os_MkdirAll (fs s) [J; id]).
  set (fs2 := match r_remaining r with [] => fs1 | _ => _ end).
  set (args := match fixedArgs with [] => req_Args req | _ => _ end).
  set (meta := mkJobMeta id _ _ _ _ _ _ _ _).
  set (inp := match r_remaining r with [] => [] | _ => inputPath env id end).
  assert (Hfs2 : (r_remaining r = [] /\ inp = [] /\ fs2 = fs1)
                 \/ (inp = inputPath env id
                     /\ fs2 = os_WriteFile fs1 (inputPath env id) (Bytes (r_remaining r)))).
  { subst fs2 inp. destruct (r_remaining r); [by left|by right]. }
  assert (Hfs' : forall q, q <> metaPath env id -> q <> inputPath env id ->
            os_WriteFile fs2 (metaPath env id) (json_MarshalIndent meta) !! q = fs1 !! q).
  { intros q Hq1 Hq2. rewrite lookup_os_WriteFile_ne by done.
    destruct Hfs2 as [(_ & _ & ->)|[_ ->]]; [done|]. by apply lookup_os_WriteFile_ne. }
  assert (Hlong : forall q, length q = 3 -> q <> metaPath env id ->
            os_WriteFile fs2 (metaPath env id) (json_MarshalIndent meta) !! q = fs s !! q).
  { intros q Hq Hne. rewrite Hfs'; [|done|by intros ->].
    apply lookup_mkdirFrom_long. cbn. lia. }
  assert (Hkeep : forall q, fs s !! q = Some Dir ->
            os_WriteFile fs2 (metaPath env id) (json_MarshalIndent meta) !! q = Some Dir).
  { intros q Hq. apply os_WriteFile_keeps_dir.
    assert (fs1 !! q = Some Dir) by by apply lookup_os_MkdirAll_keeps.
    destruct Hfs2 as [(_ & _ & ->)|[_ ->]]; [done|]. by apply os_WriteFile_keeps_dir. }
  assert (Hdir : forall q,
            os_WriteFile fs2 (metaPath env id) (json_MarshalIndent meta) !! q = Some Dir ->
            fs s !! q = Some Dir \/ q = [J] \/ q = [J; id]).
  { intros q Hq%os_WriteFile_dir. assert (fs1 !! q = Some Dir) as Hq1.
    { destruct Hfs2 as [(_ & _ & Heq)|[_ Heq]]; rewrite Heq in Hq; [done|].
      by eapply os_WriteFile_dir. }
    apply lookup_os_MkdirAll_new in Hq1 as [?|[_ ?]]; auto. }
  assert (Hfile : forall q c,
            os_WriteFile fs2 (metaPath env id) (json_MarshalIndent meta) !! q = Some (File c) ->
            (exists c', fs s !! q = Some (File c')) \/ q = metaPath env id
            \/ q = stdoutPath env id \/ q = stderrPath env id \/ q = inputPath env id).
  { intros q c Hq. destruct (decide (q = metaPath env id)); [auto|].
    destruct (decide (q = inputPath env id)); [auto 6|].
    rewrite Hfs' in Hq by done. apply lookup_os_MkdirAll_new in Hq as [?|[? _]]; [|done].
    left. eauto. }
  eapply (more_update s _ id); cbn -[os_MkdirAll]; try done.
  - split; cbn -[os_MkdirAll]; try done.
    + subst args. destruct fixedArgs; [apply prefix_nil|by apply prefix_app_r].
    + split; (rewrite Hlong; [|done..]); apply (fresh_none s id); auto.
    + unregistered.
    + change (hookCount _ id) with (hookCount s id). by apply hookCount_fresh.
    + intros [Hinp|[]]. unfold os_ReadFile. rewrite lookup_os_WriteFile_ne by done.
      destruct Hfs2 as [(_ & _ & ->)|[Heq _]]; [|by rewrite Heq in Hinp].
      destruct (fs1 !! inputPath env id) as [[|c]|] eqn:E; try done.
      apply lookup_os_MkdirAll_new in E as [E|[? _]]; [|done].
      exfalso. eapply fresh_no_file; [done..| |done].
      auto.
    + intros Htmp Hinp. split; [|done]. intros _.
      rewrite lookup_os_WriteFile_ne by done.
      destruct Hfs2 as [(_ & Heq & _)|[_ ->]]; [by rewrite Heq in Hinp|].
      rewrite lookup_os_WriteFile, decide_True by done.
      destruct (fs1 !! inputPath env id) as [[|c]|] eqn:E; eauto.
      exfalso. apply lookup_os_MkdirAll_new in E as [E|[_ [E|E]]].
      * destruct (more_dirs _ _ _ Hm _ E) as [H|(x & H & _)]; [done|].
        injection H as H _. done.
      * done.
      * injection E as E _. done.
    + intros Htmp. rewrite Hfs'; [|done|].
      * apply os_MkdirAll_made.
        -- intros c Hc. destruct (more_files _ _ _ Hm _ _ Hc) as (x & _ & [H|[H|[H|H]]]); done.
        -- intros c Hc. destruct (more_files _ _ _ Hm _ _ Hc) as (x & _ & [H|[H|[H|H]]]);
             try done. injection H as H _. done.
      * intros H. injection H as H _. done.
  - intros id1 j1 Hne Hj1 Hok. apply (job_more_frame s); cbn -[os_MkdirAll]; try done.
    + unfold isOutput. rewrite Hlong; [done|done|]. unfold metaPath, stderrPath. congruence.
    + rewrite Hlong; [done|done|]. unfold metaPath, stderrPath. congruence.
    + rewrite Hlong; [done|done|]. unfold metaPath, stdoutPath. congruence.
    + unfold os_ReadFile. rewrite Hfs'; [|done|by intros ?%inputPath_inj].
      intros Hnone. destruct (fs1 !! inputPath env id1) as [[|c]|] eqn:E; try done.
      apply lookup_os_MkdirAll_new in E as [E|[? _]]; [|done]. by rewrite E in Hnone.
    + intros c Hc. exists c. rewrite Hfs'; [|done|by intros ?%inputPath_inj].
      by apply lookup_os_MkdirAll_keeps.
    + apply Hkeep.
  - by eapply more_queue.
  - apply Hkeep.
  - intros _. rewrite Hfs'; [|done..].
    apply os_MkdirAll_root.
    intros c Hc. destruct (more_files _ _ _ Hm _ _ Hc) as (x & _ & [H|[H|[H|H]]]); done.
Qed.

Lemma more_step a s s' :
  inv env s -> inv_more env fixedArgs s -> step env fixedArgs a s = Some s' -> inv_more env fixedArgs s'.
Proof.
  intros Hinv Hm Hstep. unfold step in Hstep.
  destruct (crashed s) eqn:Hcr; [done|].
  destruct a as [r id now|id|method parts| |id r now|id|id e bs|id err now|id|id|id|id|id].
  - destruct (jobs s !! id) eqn:Hf; [done|]. injection Hstep as <-. by apply more_submit.
  - by eapply more_send.
  - injection Hstep as <-. by apply more_handle.
  - by eapply more_dispatch.
  - by eapply more_start.
  - by eapply more_register.
  - by eapply more_childWrites.
  - by eapply more_wait.
  - by eapply more_unregister.
  - by eapply more_cleanup.
  - by eapply more_resolve.
  - by eapply more_notify.
  - by eapply more_runWebhook.
Qed.

Lemma more_exec acts s s' :
  inv env s -> inv_more env fixedArgs s -> exec env fixedArgs acts s = Some s' -> inv_more env fixedArgs s'.
Proof.
  revert s. induction acts as [|a acts IH]; intros s Hinv Hm; cbn.
  - by intros [= <-].
  - destruct (step env fixedArgs a s) as [s1|] eqn:Hs; [|done].
    apply IH; [by eapply inv_step|by eapply more_step].
Qed.

Lemma reachable_more s : reachable env fixedArgs s -> inv_more env fixedArgs s.
Proof. intros [acts Hex]. eapply more_exec; [apply inv_init|apply more_init|done]. Qed.

End MoreProofs.

(** ** What no step changes *)

Lemma keeps_refl j : keeps j j.
Proof. by split. Qed.

Lemma keeps_trans j1 j2 j3 : keeps j1 j2 -> keeps j2 j3 -> keeps j1 j3.
Proof.
  intros [H1 H2 H3 H4 H5 H6 H7 H8 H9] [G1 G2 G3 G4 G5 G6 G7 G8 G9].
  split; try congruence; [auto| |].
  - intros Hp. destruct (H8 Hp) as (Hp2 & ? & ? & ?).
    destruct (G8 Hp2) as (? & ? & ? & ?). repeat split; congruence.
  - intros Hf. destruct (H9 Hf) as (Hf2 & ?). destruct (G9 Hf2) as (? & ?).
    split; congruence.
Qed.

Section KeepsProofs.
Variable env : gmap string string.
Variable fixedArgs : list string.

Lemma step_keeps a s s' id j :
  inv env s -> step env fixedArgs a s = Some s' -> jobs s !! id = Some j ->
  exists j', jobs s' !! id = Some j' /\ keeps j j'.
Proof.
  intros Hinv Hstep Hj. unfold step in Hstep. destruct (crashed s); [done|].
  assert (Hsame : exists j', jobs s !! id = Some j' /\ keeps j j').
  { exists j. split; [done|apply keeps_refl]. }
  destruct a as [r id0 now|id0|method parts| |id0 r now|id0|id0 e bs|id0 err now|id0|id0|id0|id0|id0].
  - destruct (jobs s !! id0) eqn:Hf; [done|]. injection Hstep as <-.
    unfold submitJob_accept. destruct (r_decoded r); [|done]. cbn.
    rewrite lookup_insert_ne by congruence. done.
  - unfold submitJob_send in Hstep.
    destruct (jobs s !! id0) as [j0|] eqn:Hj0; [|done].
    destruct (j_pc j0) eqn:Hpc; try done. case_match; [|done]. injection Hstep as <-. cbn.
    destruct (decide (id0 = id)) as [->|Hne]; [|by rewrite lookup_insert_ne].
    rewrite lookup_insert_eq. assert (j0 = j) as -> by congruence.
    eexists; split; [done|]. split; cbn; rewrite ?Hpc; try done. unfinished.
  - injection Hstep as <-.
    destruct (jobHandler_effect env method parts s)
      as [->|(_ & _ & _ & _ & _ & _ & _ & id0 & rj & j0 & Hrj & Hj0 & ->)]; [done|].
    destruct (decide (Cancel rj = id)) as [Heq|Hne]; [|by rewrite lookup_insert_ne].
    rewrite Heq in *. rewrite lookup_insert_eq. assert (j0 = j) as -> by congruence.
    eexists; split; [done|]. by split.
  - unfold workerLoop in Hstep.
    destruct (queue s) as [|[id0 p] rest] eqn:Hq; [done|].
    destruct (jobs s !! id0) as [j0|] eqn:Hj0; [|done]. injection Hstep as <-. cbn.
    destruct (decide (id0 = id)) as [->|Hne]; [|by rewrite lookup_insert_ne].
    rewrite lookup_insert_eq. assert (j0 = j) as -> by congruence.
    destruct (inv_queue _ _ Hinv id p) as (j1 & Hj1 & Hpc & Hin); [rewrite Hq; left|].
    assert (j1 = j) as -> by congruence.
    eexists; split; [done|]. split; cbn; rewrite ?Hpc; try done. unfinished.
  - unfold runJob_start in Hstep. at_pc Hstep.
    destruct (Args (j_meta j0)) eqn:Hargs; [by injection Hstep as <-|].
    destruct r as [|pid]; [|case_match; [|done]]; injection Hstep as <-; cbn.
    all: destruct (decide (id0 = id)) as [->|Hne]; [|by rewrite lookup_insert_ne].
    all: rewrite lookup_insert_eq; assert (j0 = j) as -> by congruence.
    all: eexists; split; [done|]; split; cbn; rewrite ?Hpc; try done; unfinished.
  - unfold runJob_register in Hstep. at_pc Hstep. injection Hstep as <-; cbn.
    destruct (decide (id0 = id)) as [->|Hne]; [|by rewrite lookup_insert_ne].
    rewrite lookup_insert_eq. assert (j0 = j) as -> by congruence.
    eexists; split; [done|]. split; cbn; rewrite ?Hpc; try done. unfinished.
  - unfold childWrites, atPC in Hstep.
    destruct (jobs s !! id0) as [j0|]; [|done].
    destruct (j_pc j0); try done; by injection Hstep as <-.
  - unfold runJob_wait in Hstep. at_pc Hstep. injection Hstep as <-; cbn.
    destruct (decide (id0 = id)) as [->|Hne]; [|by rewrite lookup_insert_ne].
    rewrite lookup_insert_eq. assert (j0 = j) as -> by congruence.
    eexists; split; [done|]. split; cbn; rewrite ?Hpc; try done. unfinished.
  - unfold runJob_unregister in Hstep. at_pc Hstep. injection Hstep as <-; cbn.
    destruct (decide (id0 = id)) as [->|Hne]; [|by rewrite lookup_insert_ne].
    rewrite lookup_insert_eq. assert (j0 = j) as -> by congruence.
    eexists; split; [done|]. split; cbn; rewrite ?Hpc; try done. unfinished.
  - unfold runJob_cleanup in Hstep. at_pc Hstep. injection Hstep as <-; cbn.
    destruct (decide (id0 = id)) as [->|Hne]; [|by rewrite lookup_insert_ne].
    rewrite lookup_insert_eq. assert (j0 = j) as -> by congruence.
    eexists; split; [done|]. split; cbn; rewrite ?Hpc; try done. unfinished.
  - unfold runJob_resolve in Hstep. at_pc Hstep. injection Hstep as <-; cbn.
    destruct (decide (id0 = id)) as [->|Hne]; [|by rewrite lookup_insert_ne].
    rewrite lookup_insert_eq. assert (j0 = j) as -> by congruence.
    eexists; split; [done|]. split; cbn; rewrite ?Hpc; try done. unfinished.
  - unfold runJob_notify in Hstep. at_pc Hstep. injection Hstep as <-.
    assert (jobs (put_job id0 (set_pc PcDone j0)
               (if (Webhook (j_meta j0) =? EmptyString)%string then s
                else set_webhooks (webhooks s ++ [id0]) s))
            = <[id0 := set_pc PcDone j0]> (jobs s)) as -> by by destruct (String.eqb _ _).
    destruct (decide (id0 = id)) as [->|Hne]; [|by rewrite lookup_insert_ne].
    rewrite lookup_insert_eq. assert (j0 = j) as -> by congruence.
    eexists; split; [done|]. split; cbn; rewrite ?Hpc; try done.
    intros _. split; [by right|done].
  - unfold runWebhook in Hstep.
    destruct (removeFirst id0 (webhooks s)); [|done].
    destruct (jobs s !! id0); [|done]. by injection Hstep as <-.
Qed.

Lemma exec_keeps acts s s' id j :
  inv env s -> exec env fixedArgs acts s = Some s' -> jobs s !! id = Some j ->
  exists j', jobs s' !! id = Some j' /\ keeps j j'.
Proof.
  revert s j. induction acts as [|a acts IH]; intros s j Hinv; cbn.
  - intros [= <-] Hj. exists j. split; [done|apply keeps_refl].
  - destruct (step env fixedArgs a s) as [s1|] eqn:Hs; [|done]. intros Hex Hj.
    destruct (step_keeps _ _ _ _ _ Hinv Hs Hj) as (j1 & Hj1 & Hk1).
    destruct (IH s1 j1) as (j2 & Hj2 & Hk2); [by eapply inv_step|done..|].
    exists j2. split; [done|]. by eapply keeps_trans.
Qed.

End KeepsProofs.

(** ** The status recorded at the exit of the process *)

Section Priority.
Variable env : gmap string string.
Variable fixedArgs : list string.

Lemma step_waited a s s' id j err :
  inv env s -> step env fixedArgs a s = Some s' -> jobs s !! id = Some j ->
  waited err (j_pc j) ->
  exists j', jobs s' !! id = Some j' /\ waited err (j_pc j').
Proof.
  intros Hinv Hstep Hj Hw. unfold step in Hstep. destruct (crashed s); [done|].
  assert (Hsame : exists j', jobs s !! id = Some j' /\ waited err (j_pc j')) by by exists j.
  destruct a as [r id0 now|id0|method parts| |id0 r now|id0|id0 e bs|id0 err0 now|id0|id0|id0|id0|id0].
  - destruct (jobs s !! id0) eqn:Hf; [done|]. injection Hstep as <-.
    unfold submitJob_accept. destruct (r_decoded r); [|done]. cbn.
    rewrite lookup_insert_ne by congruence. done.
  - unfold submitJob_send in Hstep.
    destruct (jobs s !! id0) as [j0|] eqn:Hj0; [|done].
    destruct (j_pc j0) eqn:Hpc; try done. case_match; [|done]. injection Hstep as <-. cbn.
    destruct (decide (id0 = id)) as [->|Hne]; [|by rewrite lookup_insert_ne].
    rewrite lookup_insert_eq. assert (j0 = j) as -> by congruence.
    eexists; split; [done|]. still_waited Hw Hpc.
  - injection Hstep as <-.
    destruct (jobHandler_effect env method parts s)
      as [->|(_ & _ & _ & _ & _ & _ & _ & id0 & rj & j0 & Hrj & Hj0 & ->)]; [done|].
    destruct (decide (Cancel rj = id)) as [Heq|Hne]; [|by rewrite lookup_insert_ne].
    rewrite Heq in *. rewrite lookup_insert_eq. assert (j0 = j) as -> by congruence.
    eexists; split; [done|]. done.
  - unfold workerLoop in Hstep.
    destruct (queue s) as [|[id0 p] rest] eqn:Hq; [done|].
    destruct (jobs s !! id0) as [j0|] eqn:Hj0; [|done]. injection Hstep as <-. cbn.
    destruct (decide (id0 = id)) as [->|Hne]; [|by rewrite lookup_insert_ne].
    rewrite lookup_insert_eq. assert (j0 = j) as -> by congruence.
    destruct (inv_queue _ _ Hinv id p) as (j1 & Hj1 & Hpc & Hin); [rewrite Hq; left|].
    assert (j1 = j) as -> by congruence.
    eexists; split; [done|]. still_waited Hw Hpc.
  - unfold runJob_start in Hstep. at_pc Hstep.
    destruct (Args (j_meta j0)) eqn:Hargs; [by injection Hstep as <-|].
    destruct r as [|pid]; [|case_match; [|done]]; injection Hstep as <-; cbn.
    all: destruct (decide (id0 = id)) as [->|Hne]; [|by rewrite lookup_insert_ne].
    all: rewrite lookup_insert_eq; assert (j0 = j) as -> by congruence.
    all: eexists; split; [done|]; still_waited Hw Hpc.
  - unfold runJob_register in Hstep. at_pc Hstep. injection Hstep as <-; cbn.
    destruct (decide (id0 = id)) as [->|Hne]; [|by rewrite lookup_insert_ne].
    rewrite lookup_insert_eq. assert (j0 = j) as -> by congruence.
    eexists; split; [done|]. still_waited Hw Hpc.
  - unfold childWrites, atPC in Hstep.
    destruct (jobs s !! id0) as [j0|]; [|done].
    destruct (j_pc j0); try done; by injection Hstep as <-.
  - unfold runJob_wait in Hstep. at_pc Hstep. injection Hstep as <-; cbn.
    destruct (decide (id0 = id)) as [->|Hne]; [|by rewrite lookup_insert_ne].
    rewrite lookup_insert_eq. assert (j0 = j) as -> by congruence.
    eexists; split; [done|]. still_waited Hw Hpc.
  - unfold runJob_unregister in Hstep. at_pc Hstep. injection Hstep as <-; cbn.
    destruct (decide (id0 = id)) as [->|Hne]; [|by rewrite lookup_insert_ne].
    rewrite lookup_insert_eq. assert (j0 = j) as -> by congruence.
    eexists; split; [done|]. still_waited Hw Hpc.
  - unfold runJob_cleanup in Hstep. at_pc Hstep. injection Hstep as <-; cbn.
    destruct (decide (id0 = id)) as [->|Hne]; [|by rewrite lookup_insert_ne].
    rewrite lookup_insert_eq. assert (j0 = j) as -> by congruence.
    eexists; split; [done|]. still_waited Hw Hpc.
  - unfold runJob_resolve in Hstep. at_pc Hstep. injection Hstep as <-; cbn.
    destruct (decide (id0 = id)) as [->|Hne]; [|by rewrite lookup_insert_ne].
    rewrite lookup_insert_eq. assert (j0 = j) as -> by congruence.
    eexists; split; [done|]. still_waited Hw Hpc.
  - unfold runJob_notify in Hstep. at_pc Hstep. injection Hstep as <-.
    assert (jobs (put_job id0 (set_pc PcDone j0)
               (if (Webhook (j_meta j0) =? EmptyString)%string then s
                else set_webhooks (webhooks s ++ [id0]) s))
            = <[id0 := set_pc PcDone j0]> (jobs s)) as -> by by destruct (String.eqb _ _).
    destruct (decide (id0 = id)) as [->|Hne]; [|by rewrite lookup_insert_ne].
    rewrite lookup_insert_eq. assert (j0 = j) as -> by congruence.
    eexists; split; [done|]. still_waited Hw Hpc.
  - unfold runWebhook in Hstep.
    destruct (removeFirst id0 (webhooks s)); [|done].
    destruct (jobs s !! id0); [|done]. by injection Hstep as <-.
Qed.

Lemma exec_waited acts s s' id j err :
  inv env s -> exec env fixedArgs acts s = Some s' -> jobs s !! id = Some j ->
  waited err (j_pc j) ->
  exists j', jobs s' !! id = Some j' /\ waited err (j_pc j').
Proof.
  revert s j. induction acts as [|a acts IH]; intros s j Hinv; cbn.
  - intros [= <-] Hj Hw. by exists j.
  - destruct (step env fixedArgs a s) as [s1|] eqn:Hs; [|done]. intros Hex Hj Hw.
    destruct (step_waited _ _ _ _ _ _ Hinv Hs Hj Hw) as (j1 & Hj1 & Hw1).
    eapply IH; [by eapply inv_step|done..].
Qed.

(** C1.  For a job that reached IN_PROGRESS, the status recorded when
    its process has exited is resolved by priority.  Let [cmd.Wait] return
    [err] for the job; [runJob] can then go on to its last save, and
    however the steps up to that save interleave with requests and with
    other jobs, the status it saves is CANCELED if the context of the job
    is canceled by then, whatever [cmd.Wait] returned; otherwise FAILED if
    [cmd.Wait] returned an error; otherwise COMPLETED. *)
Theorem terminal_status_priority s id err now s1 :
  reachable env fixedArgs s ->
  step env fixedArgs (WaitReturns id err now) s = Some s1 ->
  persistedStatus env s id = Some "IN_PROGRESS"%string
  /\ (exists s3, exec env fixedArgs [Unregister id; Cleanup id; Resolve id] s1 = Some s3)
  /\ forall acts s2 s3,
       exec env fixedArgs acts s1 = Some s2 ->
       step env fixedArgs (Resolve id) s2 = Some s3 ->
       exists j2, jobs s2 !! id = Some j2
         /\ persistedStatus env s2 id = Some "IN_PROGRESS"%string
         /\ persistedStatus env s3 id
            = Some (if j_canceled j2 then "CANCELED"%string
                    else if err then "FAILED"%string
                    else "COMPLETED"%string).
Proof.
  intros Hinv%reachable_inv Hstep.
  pose proof (inv_step _ _ _ _ _ Hinv Hstep) as Hinv1.
  unfold step in Hstep. destruct (crashed s) eqn:Hlive; [done|].
  unfold runJob_wait in Hstep. at_pc Hstep. injection Hstep as <-.
  split; [|split].
  - rewrite (persistedStatus_job env s id j) by done.
    pose proof (ok_phase _ _ _ _ (inv_jobs _ _ Hinv _ _ Hj)) as Hph. unfold phase_ok in Hph.
    rewrite Hpc in Hph. by destruct Hph as (-> & _).
  - cbn [exec]. unfold step. cbn [crashed put_job set_jobs]. rewrite Hlive.
    unfold runJob_unregister, atPC. cbn. rewrite lookup_insert_eq. cbn. rewrite Hlive.
    unfold runJob_cleanup, atPC. cbn. rewrite lookup_insert_eq. cbn.
    destruct (j_inputFilePath j); cbn; rewrite Hlive; unfold runJob_resolve, atPC; cbn.
    all: rewrite lookup_insert_eq; cbn; by eexists.
  - intros acts s2 s3 Hex Hres.
    destruct (exec_waited acts _ s2 id
                (set_pc (PcUnregister err) (set_meta (set_CompletedAt now (j_meta j)) j))
                err Hinv1 Hex) as (j2 & Hj2 & Hw).
    { cbn. apply lookup_insert_eq. }
    { cbn. by left. }
    pose proof (inv_exec _ _ _ _ _ Hinv1 Hex) as Hinv2.
    pose proof (inv_step _ _ _ _ _ Hinv2 Hres) as Hinv3.
    unfold step in Hres. destruct (crashed s2); [done|].
    unfold runJob_resolve, atPC in Hres. rewrite Hj2 in Hres.
    destruct (j_pc j2) eqn:Hpc2; try done.
    assert (err0 = err) as ->.
    { unfold waited in Hw.
      repeat (destruct Hw as [Hw|Hw]; try discriminate Hw). by injection Hw. }
    injection Hres as <-. exists j2. split; [done|]. split.
    + rewrite (persistedStatus_job env s2 id j2) by done.
      pose proof (ok_phase _ _ _ _ (inv_jobs _ _ Hinv2 _ _ Hj2)) as Hph. unfold phase_ok in Hph.
      rewrite Hpc2 in Hph. by destruct Hph as (-> & _).
    + erewrite persistedStatus_job; [|exact Hinv3|cbn; apply lookup_insert_eq]. done.
Qed.

End Priority.

(** ** The earlier revision *)

(** C4, in src/main.go, where the code departs from it.  A job is
    submitted to the earlier revision of the server and [cmd.Start] fails:
    the record goes from IN_QUEUE to FAILED without a process identifier,
    but its start and completion times are not set to the instant of the
    failure: both stay at the zero time. *)
Theorem main_go_failed_spawn_sets_no_time (s : State) r req id now now' :
  jobs s !! id = None -> queue s = [] ->
  r_decoded r = Some req -> req_Args req <> [] ->
  (forall c, fs s !! ["jobs"%string] <> Some (File c)) ->
  (forall c, fs s !! ["jobs"%string; id] <> Some (File c)) ->
  fs s !! MainGo.metaPath id <> Some Dir ->
  exists s1 s2 s3,
    submitJob_send id (MainGo.submitJob_accept r id now s).1 = Some s1
    /\ MainGo.loadMeta (fs s1) id
       = Some (mkJobMeta id (req_Args req) (req_MimeType req) (req_Webhook req)
                 "IN_QUEUE" 0 now zeroTime zeroTime)
    /\ workerLoop s1 = Some s2
    /\ MainGo.runJob_start id StartError now' s2 = Some s3
    /\ exists meta, MainGo.loadMeta (fs s3) id = Some meta
         /\ Status meta = "FAILED"%string /\ PID meta = 0%Z
         /\ StartedAt meta = zeroTime /\ CompletedAt meta = zeroTime.
Proof.
  intros Hfresh Hq Hdec Hargs Hroot Hdir Hmeta.
  unfold MainGo.submitJob_accept. rewrite Hdec. cbn [fst].
  set (meta := mkJobMeta id (req_Args req) (req_MimeType req) (req_Webhook req)
                 "IN_QUEUE" 0 now zeroTime zeroTime).
  set (fs1 := os_MkdirAll (fs s) ["jobs"%string; id]).
  assert (Hmeta1 : fs1 !! MainGo.metaPath id <> Some Dir).
  { intros H. apply lookup_os_MkdirAll_new in H as [H|(_ & [H|H])]; done. }
  clearbody fs1.
  unfold submitJob_send. cbn. rewrite lookup_insert_eq. cbn. rewrite Hq. cbn.
  eexists _, _, _. split; [done|]. split.
  { unfold MainGo.loadMeta. cbn. rewrite os_ReadFile_WriteFile by exact Hmeta1.
    unfold json_MarshalIndent. rewrite unmarshal_marshal; [done|reflexivity]. }
  unfold workerLoop. cbn. rewrite lookup_insert_eq. split; [done|].
  unfold MainGo.runJob_start, atPC. cbn. rewrite lookup_insert_eq. cbn.
  destruct (req_Args req) as [|a args] eqn:Ha; [done|]. split; [done|].
  eexists. split.
  { unfold MainGo.loadMeta, MainGo.saveMeta. cbn. rewrite os_ReadFile_WriteFile.
    - unfold json_MarshalIndent. rewrite unmarshal_marshal; [done|reflexivity].
    - unfold os_Create. rewrite !lookup_os_WriteFile_ne by done.
      rewrite lookup_os_WriteFile, decide_True by done.
      by destruct (fs1 !! MainGo.metaPath id) as [[|?]|]. }
  done.
Qed.

(** ** The life of a job *)

Section Lifecycle.
Variable env : gmap string string.
Variable fixedArgs : list string.

Lemma loadMeta_Some s id m :
  inv env s -> loadMeta env (fs s) id = Some m ->
  exists j, jobs s !! id = Some j /\ m = diskView j.
Proof.
  intros Hinv Hm. destruct (jobs s !! id) as [j|] eqn:Hj.
  - exists j. split; [done|]. rewrite (loadMeta_job env s id j) in Hm by done. congruence.
  - rewrite (loadMeta_unknown env) in Hm by done. done.
Qed.

Lemma diskView_submitted j :
  Args (diskView j) = Args (j_meta j) /\ MimeType (diskView j) = MimeType (j_meta j)
  /\ Webhook (diskView j) = Webhook (j_meta j)
  /\ EnqueuedAt (diskView j) = EnqueuedAt (j_meta j).
Proof. unfold diskView. by destruct (j_pc j). Qed.

(** X5.  What a submission wrote into the record stays: at every later point
    of every run the record of the job has the same identifier, argument
    vector, MIME type, webhook URL and enqueue time. *)
Theorem submitted_fields_never_change s acts s' id m :
  reachable env fixedArgs s -> exec env fixedArgs acts s = Some s' ->
  loadMeta env (fs s) id = Some m ->
  exists m', loadMeta env (fs s') id = Some m'
    /\ ID m' = ID m /\ Args m' = Args m /\ MimeType m' = MimeType m
    /\ Webhook m' = Webhook m /\ EnqueuedAt m' = EnqueuedAt m.
Proof.
  intros Hr Hex Hm. pose proof (reachable_inv _ _ _ Hr) as Hinv.
  destruct (loadMeta_Some _ _ _ Hinv Hm) as (j & Hj & ->).
  destruct (exec_keeps _ _ _ _ _ _ _ Hinv Hex Hj) as (j' & Hj' & [H1 H2 H3 H4 H5 _ _ _ _]).
  exists (diskView j'). split; [apply loadMeta_job; [by eapply inv_exec|done]|].
  destruct (diskView_fields j) as (-> & _), (diskView_fields j') as (-> & _).
  destruct (diskView_submitted j) as (-> & -> & -> & ->).
  destruct (diskView_submitted j') as (-> & -> & -> & ->). done.
Qed.


Lemma status_pastSpawn s id j :
  inv env s -> jobs s !! id = Some j ->
  (pastSpawn (j_pc j) = false <-> Status (j_meta j) = "IN_QUEUE"%string).
Proof.
  intros Hinv Hj. pose proof (ok_phase _ _ _ _ (inv_jobs _ _ Hinv _ _ Hj)) as Hph.
  unfold phase_ok in Hph.
  destruct (j_pc j); cbn; split; try done; try tauto.
  all: try (destruct Hph as [Hst _]; rewrite Hst; discriminate).
  all: try (destruct Hph as [Ht _]; intros Heq; rewrite Heq in Ht;
            by apply not_terminal_in_queue in Ht).
  destruct Hph as [[Ht _]|[Hst _]]; intros Heq; rewrite Heq in *; [|done].
  by apply not_terminal_in_queue in Ht.
Qed.

Lemma log_response method id rest s :
  (jobHandler env method (id :: "log"%string :: rest) s).2
  = if os_Stat (fs s) (stderrPath env id)
    then http_ServeFile (fs s) (stderrPath env id)
    else Error "Log not available" StatusNotFound.
Proof. unfold jobHandler. cbn [String.eqb Ascii.eqb Bool.eqb andb]. by destruct os_Stat. Qed.

(** The standard error of a job that has left the queue is on disk. *)
Lemma stderr_on_disk s id st :
  inv env s -> inv_more env fixedArgs s ->
  persistedStatus env s id = Some st -> st <> "IN_QUEUE"%string ->
  exists out, fs s !! stderrPath env id = Some (File (Bytes out))
    /\ (jobHandler env "GET" [id; "log"%string] s).2 = ServeContent (Bytes out).
Proof.
  intros Hinv Hm Hst Hne. rewrite log_response.
  destruct (jobs s !! id) as [j|] eqn:Hj.
  - rewrite (persistedStatus_job env s id j) in Hst by done. injection Hst as <-.
    pose proof (more_output _ _ _ _ _ (more_jobs _ _ _ Hm _ _ Hj)) as Ho.
    destruct (pastSpawn (j_pc j)) eqn:Hp.
    + unfold isOutput in Ho. unfold os_Stat, http_ServeFile, os_ReadFile.
      destruct (fs s !! stderrPath env id) as [[|[?|out]]|]; try done. by exists out.
    + apply (status_pastSpawn s id j Hinv Hj) in Hp. done.
  - unfold persistedStatus in Hst. by rewrite (loadMeta_unknown env) in Hst.
Qed.

(** X7.  What the start of the process wrote into the record stays: once the
    record has left IN_QUEUE, its start time and its process identifier are
    the same at every later point of every run. *)
Theorem start_time_and_pid_never_change s acts s' id m :
  reachable env fixedArgs s -> exec env fixedArgs acts s = Some s' ->
  loadMeta env (fs s) id = Some m -> Status m <> "IN_QUEUE"%string ->
  exists m', loadMeta env (fs s') id = Some m'
    /\ StartedAt m' = StartedAt m /\ PID m' = PID m.
Proof.
  intros Hr Hex Hm Hst. pose proof (reachable_inv _ _ _ Hr) as Hinv.
  destruct (loadMeta_Some _ _ _ Hinv Hm) as (j & Hj & ->).
  destruct (diskView_fields j) as (_ & Hs & Hp & Ht). rewrite Hs in Hst. rewrite Hp, Ht.
  destruct (exec_keeps _ _ _ _ _ _ _ Hinv Hex Hj) as (j' & Hj' & Hk).
  assert (Hpast : pastSpawn (j_pc j) = true).
  { destruct (pastSpawn (j_pc j)) eqn:E; [done|].
    by apply (status_pastSpawn s id j Hinv Hj) in E. }
  destruct (keeps_started _ _ Hk Hpast) as (_ & Ht' & Hp' & _).
  exists (diskView j'). split; [apply loadMeta_job; [by eapply inv_exec|done]|].
  destruct (diskView_fields j') as (_ & _ & -> & ->). done.
Qed.

(** X8.  The record of a finished job is final: once a terminal status is on
    record, no step of any run changes any field of the record. *)
Theorem finished_record_is_final s acts s' id m :
  reachable env fixedArgs s -> exec env fixedArgs acts s = Some s' ->
  loadMeta env (fs s) id = Some m -> terminal (Status m) ->
  loadMeta env (fs s') id = Some m.
Proof.
  intros Hr Hex Hm Ht. pose proof (reachable_inv _ _ _ Hr) as Hinv.
  destruct (loadMeta_Some _ _ _ Hinv Hm) as (j & Hj & ->).
  destruct (diskView_fields j) as (_ & Hs & _). rewrite Hs in Ht.
  pose proof (terminal_pc env s id j Hinv Hj Ht) as Hfin.
  destruct (exec_keeps _ _ _ _ _ _ _ Hinv Hex Hj) as (j' & Hj' & Hk).
  destruct (keeps_final _ _ Hk Hfin) as (Hfin' & Hmeta).
  rewrite (loadMeta_job env s' id j'); [|by eapply inv_exec|done].
  f_equal. unfold diskView. destruct Hfin as [-> | ->], Hfin' as [-> | ->]; done.
Qed.

(** X9.  The log endpoint answers 404 "Log not available" for an unknown job
    and for a job waiting in the queue, and once the record has left
    IN_QUEUE a GET of it serves the captured standard error, also for a job
    that failed to spawn. *)
Theorem log_available_once_started s method id rest :
  reachable env fixedArgs s ->
  (persistedStatus env s id = None \/ id ∈ (queue s).*1 ->
   (jobHandler env method (id :: "log"%string :: rest) s).2
   = Error "Log not available" StatusNotFound)
  /\ (forall st, persistedStatus env s id = Some st -> st <> "IN_QUEUE"%string ->
      exists out, fs s !! stderrPath env id = Some (File (Bytes out))
        /\ (jobHandler env "GET" [id; "log"%string] s).2 = ServeContent (Bytes out)).
Proof.
  intros Hr. pose proof (reachable_inv _ _ _ Hr) as Hinv.
  pose proof (reachable_more _ _ _ Hr) as Hm.
  split.
  - intros Hst. rewrite log_response. unfold os_Stat.
    destruct (jobs s !! id) as [j|] eqn:Hj.
    + rewrite (persistedStatus_job env s id j) in Hst by done.
      destruct Hst as [?|Hq]; [done|].
      apply list_elem_of_fmap in Hq as ([id' p] & Heq & Hq). cbn in Heq. subst id'.
      destruct (inv_queue _ _ Hinv _ _ Hq) as (j' & Hj' & Hpc & _).
      assert (j' = j) as -> by congruence.
      pose proof (more_output _ _ _ _ _ (more_jobs _ _ _ Hm _ _ Hj)) as Ho.
      rewrite Hpc in Ho. cbn in Ho. by destruct Ho as [-> _].
    + rewrite (fresh_none env fixedArgs s id); [done..|auto].
  - intros st Hst Hne.
    destruct (stderr_on_disk s id st Hinv Hm Hst Hne) as (out & Hout & Hresp).
    by exists out.
Qed.

(** X10.  The times in the record follow the status: a queued job has
    neither a start nor a completion time, and a running job has no
    completion time yet. *)
Theorem timestamps_follow_status s id m :
  reachable env fixedArgs s -> loadMeta env (fs s) id = Some m ->
  (Status m = "IN_QUEUE"%string -> StartedAt m = zeroTime /\ CompletedAt m = zeroTime)
  /\ (Status m = "IN_PROGRESS"%string -> CompletedAt m = zeroTime).
Proof.
  intros Hr Hm. pose proof (reachable_inv _ _ _ Hr) as Hinv.
  destruct (loadMeta_Some _ _ _ Hinv Hm) as (j & Hj & ->).
  pose proof (ok_phase _ _ _ _ (inv_jobs _ _ Hinv _ _ Hj)) as Hph.
  pose proof (more_started _ _ _ _ _ (more_jobs _ _ _ (reachable_more _ _ _ Hr) _ _ Hj)) as Hs.
  pose proof (status_pastSpawn s id j Hinv Hj) as Hst.
  unfold phase_ok, diskView in *.
  destruct (j_pc j); cbn in *.
  all: split; intros Heq.
  all: try (destruct Hph as (? & ? & ? & ?); split; [auto|done]).
  all: try (destruct Hph as (Hst' & _); rewrite Hst' in Heq; discriminate).
  all: try (destruct Hph as (? & ? & ?); done).
  all: try done.
  all: try (apply Hst in Heq; done).
  all: try (destruct Hph as [Ht _]; rewrite Heq in Ht; by apply not_terminal_in_progress in Ht).
  destruct Hph as [[Ht _]|[Hf _]]; rewrite Heq in *; [|done].
  by apply not_terminal_in_progress in Ht.
Qed.

(** X11.  The registry holds running jobs only: an entry is filed under the
    identifier of the job it points to, and the record of that job says
    IN_PROGRESS with the identifier of the process. *)
Theorem registry_holds_running_jobs s id rj :
  reachable env fixedArgs s -> runningJobs s !! id = Some rj ->
  rj = mkRunningJob id id id
  /\ exists m, loadMeta env (fs s) id = Some m
       /\ Status m = "IN_PROGRESS"%string /\ (0 < PID m)%Z.
Proof.
  intros Hr Hrj. pose proof (reachable_inv _ _ _ Hr) as Hinv.
  destruct (inv_registry _ _ Hinv _ _ Hrj) as [_ (j & Hj & Hreg)].
  pose proof (more_registry _ _ _ _ _ (more_jobs _ _ _ (reachable_more _ _ _ Hr) _ _ Hj) Hreg)
    as Hrj'.
  split; [congruence|]. exists (diskView j). split; [by apply loadMeta_job|].
  pose proof (ok_phase _ _ _ _ (inv_jobs _ _ Hinv _ _ Hj)) as Hph. unfold phase_ok in Hph.
  destruct (diskView_fields j) as (_ & -> & -> & _).
  destruct Hreg as [Hpc|[err Hpc]]; rewrite Hpc in Hph.
  - destruct Hph as (? & (pid & _ & Hpid & ?) & _). split; [done|by rewrite Hpid].
  - destruct Hph as (? & (pid & _ & Hpid & ?)). split; [done|by rewrite Hpid].
Qed.

(** X12.  A cancellation request for a job that is not running is answered
    200 and changes nothing: a job still in the queue is not canceled and
    will run, and a finished or unknown job is left alone. *)
Theorem cancel_outside_registry_is_ignored s id rest :
  reachable env fixedArgs s -> persistedStatus env s id <> Some "IN_PROGRESS"%string ->
  jobHandler env "PUT" (id :: "cancel"%string :: rest) s = (s, WriteHeader StatusOK).
Proof.
  intros Hr Hst. pose proof (reachable_inv _ _ _ Hr) as Hinv.
  unfold jobHandler. cbn [String.eqb Ascii.eqb Bool.eqb andb negb].
  destruct (runningJobs s !! id) as [rj|] eqn:Hrj; [|done].
  exfalso. apply Hst.
  destruct (inv_registry _ _ Hinv _ _ Hrj) as [_ (j & Hj & Hreg)].
  rewrite (persistedStatus_job env s id j) by done.
  pose proof (ok_phase _ _ _ _ (inv_jobs _ _ Hinv _ _ Hj)) as Hph. unfold phase_ok in Hph.
  destruct Hreg as [Hpc|[err Hpc]]; rewrite Hpc in Hph; by destruct Hph as [-> _].
Qed.

(** X13.  A cancellation request that finds the job in the registry decides
    its fate: whatever [cmd.Wait] returns afterwards, the terminal status
    the job is recorded with is CANCELED. *)
Theorem cancel_of_running_job_decides_status s id rest acts s2 st :
  reachable env fixedArgs s -> crashed s = false -> is_Some (runningJobs s !! id) ->
  exec env fixedArgs acts (jobHandler env "PUT" (id :: "cancel"%string :: rest) s).1 = Some s2 ->
  persistedStatus env s2 id = Some st -> terminal st -> st = "CANCELED"%string.
Proof.
  intros Hr Hcr [rj Hrj] Hex Hst Ht. pose proof (reachable_inv _ _ _ Hr) as Hinv.
  pose proof (reachable_more _ _ _ Hr) as Hm.
  set (s1 := (jobHandler env "PUT" (id :: "cancel"%string :: rest) s).1) in *.
  assert (Hinv1 : inv env s1) by by apply inv_jobHandler.
  assert (Hm1 : inv_more env fixedArgs s1) by by apply more_handle.
  destruct (inv_registry _ _ Hinv _ _ Hrj) as [Hc (j & Hj & Hreg)].
  assert (Hj1 : jobs s1 !! id = Some (set_canceled true j)).
  { subst s1. unfold jobHandler. cbn [String.eqb Ascii.eqb Bool.eqb andb negb fst].
    rewrite Hrj, Hc. unfold cancelCtx. rewrite Hj. cbn. by rewrite lookup_insert_eq. }
  destruct (exec_keeps _ _ _ _ _ _ _ Hinv1 Hex Hj1) as (j2 & Hj2 & Hk).
  pose proof (keeps_canceled _ _ Hk eq_refl) as Hcan.
  assert (Hinv2 : inv env s2) by exact (inv_exec env fixedArgs acts s1 s2 Hinv1 Hex).
  assert (Hm2 : inv_more env fixedArgs s2) by exact (more_exec env fixedArgs acts s1 s2 Hinv1 Hm1 Hex).
  rewrite (persistedStatus_job env s2 id j2) in Hst by done. injection Hst as <-.
  pose proof (more_cancel _ _ _ _ _ (more_jobs _ _ _ Hm2 _ _ Hj2)) as Hco.
  unfold cancel_ok in Hco.
  destruct (terminal_pc env s2 id j2 Hinv2 Hj2 Ht) as [Hpc|Hpc]; rewrite Hpc in Hco;
    by apply Hco.
Qed.

(** X14.  At most one webhook is ever sent for a job: the [sendWebhook]
    goroutines started for it and the POSTs made for it number one together
    once [runJob] has ended after a run with a webhook URL in the record,
    and none in every other case. *)
Theorem one_webhook_per_finished_run s id j :
  reachable env fixedArgs s -> jobs s !! id = Some j ->
  hookCount s id <= 1
  /\ (hookCount s id = 1 <->
      j_pc j = PcDone /\ is_Some (j_process j) /\ Webhook (j_meta j) <> EmptyString).
Proof.
  intros Hr Hj.
  pose proof (more_hooks _ _ _ _ _ (more_jobs _ _ _ (reachable_more _ _ _ Hr) _ _ Hj)) as Hh.
  rewrite Hh. unfold owesWebhook.
  destruct (j_pc j); (split; [try lia|split; [try done|intros (? & Hpr & Hw); try done]]).
  - destruct (j_process j); [|lia]. destruct negb; lia.
  - destruct (j_process j); [|done].
    destruct (String.eqb_spec (Webhook (j_meta j)) EmptyString); [done|]. intros _. eauto.
  - destruct (j_process j) as [pid|]; [|by destruct Hpr].
    by destruct (String.eqb_spec (Webhook (j_meta j)) EmptyString).
Qed.

(** X15.  Once a job that ran has its terminal status on record, its staged
    input is gone from the temporary directory. *)
Theorem staged_input_removed_after_run s id m :
  reachable env fixedArgs s -> loadMeta env (fs s) id = Some m ->
  terminal (Status m) -> PID m <> 0%Z ->
  os_ReadFile (fs s) (inputPath env id) = None.
Proof.
  intros Hr Hm Ht Hpid. pose proof (reachable_inv _ _ _ Hr) as Hinv.
  destruct (loadMeta_Some _ _ _ Hinv Hm) as (j & Hj & ->).
  destruct (diskView_fields j) as (_ & Hst & Hp & _). rewrite Hst in Ht. rewrite Hp in Hpid.
  apply (more_input _ _ _ _ _ (more_jobs _ _ _ (reachable_more _ _ _ Hr) _ _ Hj)).
  right. unfold cleaned.
  pose proof (ok_phase _ _ _ _ (inv_jobs _ _ Hinv _ _ Hj)) as Hph. unfold phase_ok in Hph.
  destruct (terminal_pc env s id j Hinv Hj Ht) as [Hpc|Hpc]; rewrite Hpc in *; [done|].
  destruct Hph as [[_ (pid & Hpr & _)]|(_ & ? & _)]; [congruence|done].
Qed.

(** X17.  The queue never holds more than its hundred slots, holds no job
    twice, and every job in it is on record as IN_QUEUE. *)
Theorem queue_holds_waiting_jobs s :
  reachable env fixedArgs s ->
  length (queue s) <= queueCapacity /\ NoDup (queue s).*1
  /\ forall id p, (id, p) ∈ queue s -> persistedStatus env s id = Some "IN_QUEUE"%string.
Proof.
  intros Hr. pose proof (reachable_inv _ _ _ Hr) as Hinv.
  split; [by eapply more_queue, reachable_more|]. split; [by apply (inv_queue_nodup _ _ Hinv)|].
  intros id p Hin. destruct (inv_queue _ _ Hinv _ _ Hin) as (j & Hj & Hpc & _).
  rewrite (persistedStatus_job env s id j) by done.
  pose proof (ok_phase _ _ _ _ (inv_jobs _ _ Hinv _ _ Hj)) as Hph. unfold phase_ok in Hph.
  rewrite Hpc in Hph. by destruct Hph as [-> _].
Qed.


End Lifecycle.

(** ** The staged input *)

Section Staged.
Variable env : gmap string string.
Variable fixedArgs : list string.




End Staged.

(** ** Saving and loading *)

Section RoundTrip.
Variable env : gmap string string.
Variable fixedArgs : list string.

(** X19.  What [saveMeta] writes, [loadMeta] reads back.  When the job
    directory exists, no directory stands in the place of the file, the
    identifier is one element of a path, and the record is one that
    encoding/json writes and reads back as it is (strings in UTF-8, a
    process identifier that is an [int], times in the years 0 to 9999 at an
    offset of whole minutes), [loadMeta] returns the record that was
    saved; and saving it leaves what [loadMeta] returns for every other
    identifier as it was. *)
Theorem saveMeta_loadMeta s m :
  fs s !! [getJobsDir env; ID m] = Some Dir ->
  fs s !! metaPath env (ID m) <> Some Dir ->
  pathElement (ID m) = true -> recordRoundTrips m = true ->
  loadMeta env (fs (saveMeta env m s)) (ID m) = Some m
  /\ forall id, pathElement id = true -> id <> ID m ->
       loadMeta env (fs (saveMeta env m s)) id = loadMeta env (fs s) id.
Proof.
  intros _ Hd _ Hm. unfold loadMeta, saveMeta. cbn. split.
  - rewrite os_ReadFile_WriteFile by done. unfold json_MarshalIndent.
    rewrite unmarshal_marshal; [done|]. unfold recordRoundTrips in Hm.
    repeat (apply andb_prop in Hm as [Hm ?]). done.
  - intros id _ Hne. rewrite os_ReadFile_WriteFile_ne; [done|]. unfold metaPath. congruence.
Qed.

End RoundTrip.

(** ** The fixed command and the empty argument vector *)

Section Crash.
Variable env : gmap string string.

(** X20.  A server started with a fixed command never dies of an empty
    argument vector: when [main] is given at least one argument, no run
    reaches the panic of [meta.Args[0]]. *)
Theorem fixed_command_never_crashes osArgs s :
  (1 < length osArgs)%nat -> reachable env (main_fixedArgs osArgs) s -> crashed s = false.
Proof.
  intros Hlen Hr. pose proof (reachable_more _ _ _ Hr) as Hm.
  destruct (crashed s) eqn:Hcr; [|done].
  destruct (more_crashed _ _ _ Hm Hcr) as (id & j & Hj & _ & Hargs).
  pose proof (more_args _ _ _ _ _ (more_jobs _ _ _ Hm _ _ Hj)) as [k Hk].
  rewrite Hargs in Hk. unfold main_fixedArgs in Hk.
  apply Nat.ltb_lt in Hlen as Hlt. rewrite Hlt in Hk.
  destruct osArgs as [|a [|b rest]]; cbn in *; [lia|lia|done].
Qed.

(** X21.  Without a fixed command, one submission without arguments stops
    the server: once the worker takes the job from the queue, [runJob]
    panics on [meta.Args[0]], the process ends and no request or job makes
    another step; the record of the job still says IN_QUEUE. *)
Theorem empty_args_stop_the_server s r req id now res now' :
  reachable env [] s -> crashed s = false -> queue s = [] -> jobs s !! id = None ->
  r_decoded r = Some req -> req_Args req = [] ->
  exists s', exec env [] [Submit r id now; Send id; Dispatch; Start id res now'] s = Some s'
    /\ crashed s' = true
    /\ (forall a, step env [] a s' = None)
    /\ persistedStatus env s' id = Some "IN_QUEUE"%string.
Proof.
  intros Hr Hcr Hq Hfresh Hdec Hargs.
  pose proof (reachable_inv _ _ _ Hr) as Hinv.
  assert (Hsub : exists j s1, step env [] (Submit r id now) s = Some s1
            /\ jobs s1 !! id = Some j /\ j_pc j = PcSend /\ Args (j_meta j) = []
            /\ queue s1 = [] /\ crashed s1 = false).
  { unfold step. rewrite Hcr, Hfresh. unfold submitJob_accept. rewrite Hdec. cbn -[os_MkdirAll].
    eexists _, _. split; [done|]. cbn -[os_MkdirAll]. rewrite lookup_insert_eq.
    split; [done|]. cbn. auto. }
  destruct Hsub as (j & s1 & Hs1 & Hj1 & Hpc1 & Ha1 & Hq1 & Hcr1).
  assert (Hsend : exists s2, step env [] (Send id) s1 = Some s2
            /\ jobs s2 !! id = Some (set_pc PcQueued j)
            /\ queue s2 = [(id, j_inputFilePath j)] /\ crashed s2 = false).
  { unfold step, submitJob_send. rewrite Hcr1, Hj1, Hpc1, Hq1. cbn.
    eexists. split; [done|]. cbn. by rewrite lookup_insert_eq. }
  destruct Hsend as (s2 & Hs2 & Hj2 & Hq2 & Hcr2).
  assert (Hdisp : exists s3, step env [] Dispatch s2 = Some s3
            /\ jobs s3 !! id = Some (set_pc PcSpawn j) /\ crashed s3 = false).
  { unfold step, workerLoop. rewrite Hcr2, Hq2, Hj2.
    eexists. split; [done|]. cbn. rewrite lookup_insert_eq. by destruct j. }
  destruct Hdisp as (s3 & Hs3 & Hj3 & Hcr3).
  assert (Hstart : step env [] (Start id res now') s3 = Some (set_crashed true s3)).
  { unfold step, runJob_start, atPC. rewrite Hcr3, Hj3. cbn. by rewrite Ha1. }
  exists (set_crashed true s3). split; [|split; [done|split]].
  - cbn [exec]. by rewrite Hs1, Hs2, Hs3, Hstart.
  - intros a. by unfold step.
  - assert (Hinv3 : inv env s3).
    { eapply inv_step; [|exact Hs3]. eapply inv_step; [|exact Hs2]. by eapply inv_step. }
    rewrite (persistedStatus_job env _ id (set_pc PcSpawn j)); [|by apply inv_crashed|done].
    pose proof (ok_phase _ _ _ _ (inv_jobs _ _ Hinv3 _ _ Hj3)) as Hph.
    unfold phase_ok in Hph. cbn in Hph. cbn. by destruct Hph as [-> _].
Qed.

End Crash.

(** ** What a child wrote *)

Section Output.
Variable env : gmap string string.
Variable fixedArgs : list string.

Lemma outPath_length id e : length (outPath env id e) = 3.
Proof. by destruct e. Qed.

Lemma outPath_ne_meta id e id0 : outPath env id e <> metaPath env id0.
Proof. by destruct e. Qed.

Lemma outPath_inj id e id0 e0 : outPath env id e = outPath env id0 e0 -> id = id0 /\ e = e0.
Proof. destruct e, e0; intros [= ->]; done. Qed.

Lemma step_captured a s s' id e :
  inv env s -> inv_more env fixedArgs s -> step env fixedArgs a s = Some s' ->
  captured (fs s') (outPath env id e) = captured (fs s) (outPath env id e) ++ written id e a.
Proof.
  intros Hinv Hm Hstep. unfold step in Hstep. destruct (crashed s); [done|].
  pose proof (outPath_length id e) as Hlen.
  assert (Hsame : forall fs', fs' !! outPath env id e = fs s !! outPath env id e ->
            captured fs' (outPath env id e) = captured (fs s) (outPath env id e) ++ []).
  { intros fs' Heq. unfold captured. by rewrite Heq, app_nil_r. }
  destruct a as [r id0 now|id0|method parts| |id0 r now|id0|id0 e0 bs|id0 err now|id0|id0|id0|id0|id0];
    cbn [written].
  - destruct (jobs s !! id0) eqn:Hf; [done|]. injection Hstep as <-.
    unfold submitJob_accept. destruct (r_decoded r); [|by apply Hsame]. cbn -[os_MkdirAll].
    apply Hsame. rewrite lookup_os_WriteFile_ne by (symmetry; apply outPath_ne_meta).
    assert (os_MkdirAll (fs s) [getJobsDir env; id0] !! outPath env id e = fs s !! outPath env id e) as <-.
    { apply lookup_mkdirFrom_long. cbn. lia. }
    destruct (r_remaining r); [done|]. apply lookup_os_WriteFile_ne.
    intros Heq. rewrite <- Heq in Hlen. done.
  - unfold submitJob_send in Hstep.
    destruct (jobs s !! id0) as [j0|]; [|done]. destruct (j_pc j0); try done.
    case_match; [|done]. injection Hstep as <-. by apply Hsame.
  - injection Hstep as <-. apply Hsame.
    destruct (jobHandler_effect env method parts s) as [->|(_ & -> & _)]; done.
  - unfold workerLoop in Hstep. destruct (queue s) as [|[id0 p] rest]; [done|].
    destruct (jobs s !! id0); [|done]. injection Hstep as <-. by apply Hsame.
  - unfold runJob_start in Hstep. at_pc Hstep.
    pose proof (ok_id _ _ _ _ (inv_jobs _ _ Hinv _ _ Hj)) as Hid. rewrite Hid in Hstep.
    destruct (Args (j_meta j)); [injection Hstep as <-; by apply Hsame|].
    set (fs1 := os_Create (os_Create (fs s) (stdoutPath env id0)) (stderrPath env id0)) in *.
    assert (Hfs : forall c s1, fs s1 = os_WriteFile fs1 (metaPath env id0) c ->
              captured (fs s1) (outPath env id e) = captured (fs s) (outPath env id e) ++ []).
    { intros c s1 ->. destruct (decide (id0 = id)) as [->|Hne].
      - pose proof (more_output _ _ _ _ _ (more_jobs _ _ _ Hm _ _ Hj)) as Ho.
        rewrite Hpc in Ho. cbn in Ho. destruct Ho as [Herr Hout].
        unfold captured. rewrite lookup_os_WriteFile_ne by (symmetry; apply outPath_ne_meta).
        unfold fs1, os_Create. destruct e; cbn [outPath].
        + rewrite lookup_os_WriteFile, decide_True by done.
          rewrite lookup_os_WriteFile_ne by done. by rewrite Herr.
        + rewrite lookup_os_WriteFile_ne by done.
          rewrite lookup_os_WriteFile, decide_True by done. by rewrite Hout.
      - apply Hsame. rewrite lookup_os_WriteFile_ne by (symmetry; apply outPath_ne_meta).
        unfold fs1, os_Create.
        rewrite !lookup_os_WriteFile_ne; [done|..]; destruct e; cbn;
          unfold stdoutPath, stderrPath; congruence. }
    destruct r as [|pid]; [|case_match; [|done]]; injection Hstep as <-;
      eapply Hfs; cbn; rewrite ?Hid; reflexivity.
  - unfold runJob_register in Hstep. at_pc Hstep. injection Hstep as <-. by apply Hsame.
  - unfold childWrites, atPC in Hstep.
    destruct (jobs s !! id0) as [j|] eqn:Hj; [|done].
    pose proof (inv_jobs _ _ Hinv _ _ Hj) as [Hid _ _ _ _ Hout]. rewrite Hid in Hstep.
    pose proof (more_output _ _ _ _ _ (more_jobs _ _ _ Hm _ _ Hj)) as Herr.
    assert (Hpast : pastSpawn (j_pc j) = true
                    /\ s' = set_fs (appendBytes (fs s) (outPath env id0 e0) bs) s).
    { unfold outPath. destruct (j_pc j); try done; by injection Hstep as <-. }
    destruct Hpast as [Hpast ->]. rewrite Hpast in Herr. specialize (Hout Hpast). cbn [fs set_fs].
    destruct (String.eqb_spec id0 id) as [->|Hne], (Bool.eqb_spec e0 e) as [->|Hne'];
      cbn [andb]; try (apply Hsame, lookup_appendBytes_ne; intros [? ?]%outPath_inj; done).
    unfold captured, appendBytes.
    assert (isOutput (fs s) (outPath env id e) = true) as Hio by by destruct e.
    unfold isOutput in Hio. destruct (fs s !! outPath env id e) as [[|[?|b]]|]; try done.
    by rewrite lookup_insert_eq.
  - unfold runJob_wait in Hstep. at_pc Hstep. injection Hstep as <-. by apply Hsame.
  - unfold runJob_unregister in Hstep. at_pc Hstep. injection Hstep as <-. by apply Hsame.
  - unfold runJob_cleanup in Hstep. at_pc Hstep. injection Hstep as <-. apply Hsame. cbn.
    pose proof (ok_input _ _ _ _ (inv_jobs _ _ Hinv _ _ Hj)) as [Hp|Hp]; rewrite Hp; [done|].
    apply lookup_os_Remove_ne. intros Heq. rewrite <- Heq in Hlen. done.
  - unfold runJob_resolve in Hstep. at_pc Hstep. injection Hstep as <-. apply Hsame. cbn.
    apply lookup_os_WriteFile_ne. symmetry. apply outPath_ne_meta.
  - unfold runJob_notify in Hstep. at_pc Hstep. injection Hstep as <-. apply Hsame.
    by destruct (String.eqb _ _).
  - unfold runWebhook in Hstep. destruct (removeFirst id0 (webhooks s)); [|done].
    destruct (jobs s !! id0); [|done]. injection Hstep as <-. by apply Hsame.
Qed.

Lemma exec_captured acts s s' id e :
  inv env s -> inv_more env fixedArgs s -> exec env fixedArgs acts s = Some s' ->
  captured (fs s') (outPath env id e) = captured (fs s) (outPath env id e) ++ output id e acts.
Proof.
  revert s. induction acts as [|a acts IH]; intros s Hinv Hm; cbn.
  - intros [= <-]. by rewrite app_nil_r.
  - destruct (step env fixedArgs a s) as [s1|] eqn:Hs; [|done]. intros Hex.
    rewrite (IH s1); [|by eapply inv_step|by eapply more_step|done].
    rewrite (step_captured a s s1) by done. unfold output. cbn. by rewrite app_assoc.
Qed.

(** X22.  The result and the log are what the child wrote: after any run of
    the server from its start, a GET of the result endpoint of a COMPLETED
    job serves exactly the bytes its process wrote to standard output, in
    order, and a GET of the log endpoint of a job that has left the queue
    serves exactly the bytes written to standard error so far. *)
Theorem result_and_log_are_the_child_output acts s id :
  exec env fixedArgs acts init = Some s ->
  (persistedStatus env s id = Some "COMPLETED"%string ->
   (jobHandler env "GET" [id; "result"%string] s).2
   = ServeContent (Bytes (output id false acts)))
  /\ (forall st, persistedStatus env s id = Some st -> st <> "IN_QUEUE"%string ->
      (jobHandler env "GET" [id; "log"%string] s).2
      = ServeContent (Bytes (output id true acts))).
Proof.
  intros Hex.
  assert (Hr : reachable env fixedArgs s) by by exists acts.
  pose proof (reachable_inv _ _ _ Hr) as Hinv.
  pose proof (reachable_more _ _ _ Hr) as Hm.
  assert (Hcap : forall e, captured (fs s) (outPath env id e) = output id e acts).
  { intros e. rewrite (exec_captured acts init s id e (inv_init env) (more_init env fixedArgs) Hex).
    unfold captured. cbn. by rewrite lookup_empty. }
  split.
  - intros Hst. rewrite result_response.
    unfold persistedStatus in Hst. destruct (loadMeta env (fs s) id) as [m|] eqn:Hl; [|done].
    injection Hst as Hst. rewrite Hst. cbn.
    destruct (loadMeta_Some env _ _ _ Hinv Hl) as (j & Hj & ->).
    destruct (diskView_fields j) as (_ & Hs' & _). rewrite Hs' in Hst.
    assert (Hpast : pastSpawn (j_pc j) = true).
    { destruct (pastSpawn (j_pc j)) eqn:E; [done|].
      apply (status_pastSpawn env s id j Hinv Hj) in E. congruence. }
    pose proof (ok_stdout _ _ _ _ (inv_jobs _ _ Hinv _ _ Hj) Hpast) as Ho.
    specialize (Hcap false). unfold captured, outPath in Hcap.
    unfold isOutput in Ho. unfold http_ServeFile, os_ReadFile.
    destruct (fs s !! stdoutPath env id) as [[|[?|b]]|]; try done. by rewrite Hcap.
  - intros st Hst Hne.
    destruct (stderr_on_disk env fixedArgs s id st Hinv Hm Hst Hne) as (out & Hout & Hresp).
    rewrite log_response in *. rewrite Hresp.
    specialize (Hcap true). unfold captured, outPath in Hcap. rewrite Hout in Hcap.
    by rewrite Hcap.
Qed.

End Output.

(** ** The listing *)

Lemma childOf_spec dir p name : childOf dir p = Some name <-> p = dir ++ [name].
Proof.
  revert p. induction dir as [|d dir IH]; intros p; cbn.
  - destruct p as [|x [|y p]]; split; try done; by intros [= ->].
  - destruct p as [|c p]; [split; [done|by destruct dir]|].
    destruct (String.eqb_spec d c) as [->|Hne].
    + rewrite IH. split; [by intros ->|by intros [= ->]].
    + split; [done|]. by intros [= -> _].
Qed.

Lemma dirEntry_spec dir p n name b :
  dirEntry dir (p, n) = Some (name, b) <-> p = dir ++ [name] /\ b = isDir n.
Proof.
  unfold dirEntry. cbn [fst snd]. destruct (childOf dir p) as [x|] eqn:Hp; cbn.
  - apply childOf_spec in Hp. subst p. split.
    + by intros [= -> <-].
    + intros [Heq ->]. apply app_inj_tail in Heq as [_ ->]. done.
  - split; [done|]. intros [Heq _]. apply childOf_spec in Heq. congruence.
Qed.

Lemma NoDup_omap {A B} (g : A -> option B) (l : list A) :
  NoDup l ->
  (forall x y b, x ∈ l -> y ∈ l -> g x = Some b -> g y = Some b -> x = y) ->
  NoDup (omap g l).
Proof.
  induction 1 as [|x l Hx Hnd IH]; intros Hinj; [constructor|]. cbn.
  assert (Hl : NoDup (omap g l)).
  { apply IH. intros y z b Hy Hz. apply Hinj; by right. }
  destruct (g x) as [b|] eqn:Hg; [|done].
  constructor; [|done]. intros (y & Hy & Hgy)%list_elem_of_omap.
  assert (x = y) as -> by (eapply Hinj; [left|by right|done..]). done.
Qed.

Section Listing.
Variable env : gmap string string.
Variable fixedArgs : list string.

(** The entries [os.ReadDir] returns for the jobs directory. *)
Lemma os_ReadDir_jobs (fs0 : FS) entries :
  os_ReadDir fs0 [getJobsDir env] = Some entries ->
  NoDup entries
  /\ forall name b, (name, b) ∈ entries <->
       exists n, fs0 !! [getJobsDir env; name] = Some n /\ b = isDir n.
Proof.
  unfold os_ReadDir. destruct (fs0 !! [getJobsDir env]) as [[|c]|]; try done.
  intros [= <-].
  change (omap _ (map_to_list fs0)) with (omap (dirEntry [getJobsDir env]) (map_to_list fs0)).
  split.
  - rewrite sort_Slice_perm. apply NoDup_omap; [apply NoDup_map_to_list|].
    intros [p n] [p' n'] [name b] Hin Hin' [-> _]%dirEntry_spec [-> _]%dirEntry_spec.
    apply elem_of_map_to_list in Hin, Hin'. congruence.
  - intros name b. rewrite sort_Slice_perm, list_elem_of_omap. split.
    + intros ([p n] & Hin & [-> ->]%dirEntry_spec).
      apply elem_of_map_to_list in Hin. by exists n.
    + intros (n & Hn & ->). exists ([getJobsDir env; name], n).
      split; [by apply elem_of_map_to_list|]. by apply dirEntry_spec.
Qed.

(** X23.  A server started where no jobs directory exists has none until the
    first submission is accepted, and until then the listing answers 500
    instead of an empty list. *)
Theorem listing_fails_before_first_submission s :
  reachable env fixedArgs s -> jobs s = ∅ ->
  listJobs env (fs s) = Error "Failed to read jobs directory" StatusInternalServerError.
Proof.
  intros Hr He. unfold listJobs, os_ReadDir.
  rewrite (more_empty _ _ _ (reachable_more _ _ _ Hr) He). by rewrite lookup_empty.
Qed.

(** X24.  Once a submission has been accepted, the listing has the jobs the
    status endpoint knows, each once: when the temporary directory is not
    the jobs directory, there is exactly one entry for every submitted job,
    built from the record the status endpoint returns for it. *)
Theorem listing_has_every_job s :
  os_TempDir env <> getJobsDir env -> reachable env fixedArgs s -> jobs s <> ∅ ->
  exists l, listJobs env (fs s) = EncodeJobs l
    /\ NoDup (e_ID <$> l)
    /\ forall e, e ∈ l <->
         exists id m, loadMeta env (fs s) id = Some m
           /\ e = jobEntry (getenv env "BASE_URL") m.
Proof.
  intros Htmp Hr Hne. pose proof (reachable_inv _ _ _ Hr) as Hinv.
  pose proof (reachable_more _ _ _ Hr) as Hm.
  pose proof (more_root _ _ _ Hm Hne) as Hroot.
  unfold listJobs. destruct (os_ReadDir (fs s) [getJobsDir env]) as [entries|] eqn:Hrd.
  2:{ unfold os_ReadDir in Hrd. by rewrite Hroot in Hrd. }
  destruct (os_ReadDir_jobs _ _ Hrd) as [Hnd Hent].
  assert (Hentry : forall name b e, (name, b) ∈ entries ->
            listEntry env (fs s) (name, b) = Some e ->
            b = true /\ exists j, jobs s !! name = Some j
              /\ e = jobEntry (getenv env "BASE_URL") (diskView j)).
  { intros name b e Hin Hle. apply Hent in Hin as (n & Hn & ->).
    unfold listEntry in Hle. cbn in Hle. destruct n as [|c]; [|done]. cbn in Hle.
    destruct (more_dirs _ _ _ Hm _ Hn) as [?|(x & [= <-] & [j Hj])]; [done|].
    split; [done|]. exists j. split; [done|].
    pose proof (inv_jobs _ _ Hinv _ _ Hj) as [_ Hpid _ _ Hdisk _].
    fold (metaPath env name) in Hle. rewrite Hdisk in Hle.
    rewrite unmarshal_marshal in Hle; [congruence|].
    by destruct (diskView_fields j) as (_ & _ & -> & _). }
  eexists. split; [done|]. split.
  - rewrite sort_Slice_perm, list_fmap_omap. apply NoDup_omap; [done|].
    intros [name b] [name' b'] a Hin Hin'.
    destruct (listEntry env (fs s) (name, b)) as [e|] eqn:He; [|done].
    destruct (listEntry env (fs s) (name', b')) as [e'|] eqn:He'; [|done].
    destruct (Hentry _ _ _ Hin He) as [-> (j & Hj & ->)].
    destruct (Hentry _ _ _ Hin' He') as [-> (j' & Hj' & ->)].
    cbn. destruct (diskView_fields j) as (-> & _), (diskView_fields j') as (-> & _).
    rewrite (ok_id _ _ _ _ (inv_jobs _ _ Hinv _ _ Hj)).
    rewrite (ok_id _ _ _ _ (inv_jobs _ _ Hinv _ _ Hj')). congruence.
  - intros e. rewrite sort_Slice_perm, list_elem_of_omap. split.
    + intros ([name b] & Hin & Hle). destruct (Hentry _ _ _ Hin Hle) as [_ (j & Hj & ->)].
      exists name, (diskView j). split; [by apply loadMeta_job|done].
    + intros (id & m & Hl & ->). destruct (loadMeta_Some env _ _ _ Hinv Hl) as (j & Hj & ->).
      exists (id, true). split.
      * apply Hent. exists Dir. split; [|done].
        by apply (more_dir _ _ _ _ _ (more_jobs _ _ _ Hm _ _ Hj)).
      * unfold listEntry. cbn.
        pose proof (inv_jobs _ _ Hinv _ _ Hj) as [_ Hpid _ _ Hdisk _].
        fold (metaPath env id). rewrite Hdisk.
        rewrite unmarshal_marshal; [done|].
        by destruct (diskView_fields j) as (_ & _ & -> & _).
Qed.

End Listing.

(** ** The order of RFC 3339 texts *)

Section TimeOrder.
Local Open Scope Z_scope.

Lemma digit_mod n : digit (n mod 10) = digit n.
Proof. unfold digit. by rewrite Z.mod_mod. Qed.

Lemma digit_compare a b :
  0 <= a < 10 -> 0 <= b < 10 -> Ascii.compare (digit a) (digit b) = (a ?= b).
Proof.
  intros Ha Hb.
  assert (a = 0 \/ a = 1 \/ a = 2 \/ a = 3 \/ a = 4 \/ a = 5 \/ a = 6 \/ a = 7 \/ a = 8
          \/ a = 9) as Ha' by lia.
  assert (b = 0 \/ b = 1 \/ b = 2 \/ b = 3 \/ b = 4 \/ b = 5 \/ b = 6 \/ b = 7 \/ b = 8
          \/ b = 9) as Hb' by lia.
  clear Ha Hb.
  repeat (destruct Ha' as [->|Ha']); try subst a;
    repeat (destruct Hb' as [->|Hb']); try subst b; reflexivity.
Qed.

Lemma append_cons c (s t : string) : (String c s +:+ t)%string = String c (s +:+ t).
Proof. reflexivity. Qed.

Lemma zeros_shift w acc :
  (zeros w +:+ String "0" acc)%string = String "0" (zeros w +:+ acc).
Proof. induction w as [|w IH]; [done|]. cbn [zeros]. by rewrite !append_cons, IH. Qed.

Lemma fixedDigits_zero w acc : fixedDigits w 0 acc = (zeros w +:+ acc)%string.
Proof.
  revert acc. induction w as [|w IH]; intros acc; [done|]. cbn [fixedDigits zeros].
  change (0 / 10) with 0. rewrite IH. change (digit 0) with "0"%char.
  apply zeros_shift.
Qed.

Lemma fixedDigits_app w v acc r :
  (fixedDigits w v acc +:+ r)%string = fixedDigits w v (acc +:+ r).
Proof. revert v acc. induction w as [|w IH]; intros v acc; [done|]. simpl. by rewrite IH. Qed.

Lemma fixedDigits_compare w a b acc1 acc2 :
  0 <= a < 10 ^ Z.of_nat w -> 0 <= b < 10 ^ Z.of_nat w ->
  String.compare (fixedDigits w a acc1) (fixedDigits w b acc2)
  = match a ?= b with Eq => String.compare acc1 acc2 | c => c end.
Proof.
  revert a b acc1 acc2. induction w as [|w IH]; intros a b acc1 acc2 Ha Hb.
  - cbn in *. assert (a = 0) as -> by lia. assert (b = 0) as -> by lia. done.
  - cbn [fixedDigits]. rewrite Nat2Z.inj_succ, Z.pow_succ_r in Ha, Hb by lia.
    rewrite IH by (split; [apply Z.div_pos; lia|apply Z.div_lt_upper_bound; lia]).
    cbn [String.compare]. rewrite <- (digit_mod a), <- (digit_mod b).
    rewrite digit_compare by (apply Z.mod_pos_bound; lia).
    pose proof (Z.div_mod a 10 ltac:(lia)). pose proof (Z.div_mod b 10 ltac:(lia)).
    pose proof (Z.mod_pos_bound a 10 ltac:(lia)). pose proof (Z.mod_pos_bound b 10 ltac:(lia)).
    destruct (Z.compare_spec (a / 10) (b / 10)), (Z.compare_spec (a mod 10) (b mod 10)),
      (Z.compare_spec a b); try done; lia.
Qed.

Lemma string_app_assoc (a b c : string) : ((a +:+ b) +:+ c = a +:+ (b +:+ c))%string.
Proof. induction a as [|x a IH]; [done|]. by rewrite !append_cons, IH. Qed.

Lemma string_app_length (a b : string) :
  String.length (a +:+ b) = (String.length a + String.length b)%nat.
Proof. induction a as [|x a IH]; [done|]. rewrite append_cons. cbn. by rewrite IH. Qed.

(** With enough fuel, [utoa] writes the digits of [n] without leading
    zeros; padded to [k] places they are the [k] low digits. *)
Lemma utoa_fixed (k : nat) : forall fuel n acc,
  0 <= n < 10 ^ Z.of_nat k -> (1 <= k)%nat -> n < 2 ^ Z.of_nat fuel -> (1 <= fuel)%nat ->
  exists s, utoa fuel n acc = (s +:+ acc)%string /\ (String.length s <= k)%nat
    /\ (zeros (k - String.length s) +:+ s +:+ acc)%string = fixedDigits k n acc.
Proof.
  induction k as [|k IH]; intros fuel n acc Hn Hk Hf Hfuel; [lia|].
  destruct fuel as [|fuel]; [lia|]. cbn [utoa fixedDigits].
  destruct (Z.ltb_spec n 10) as [Hlt|Hge].
  - exists (String (digit n) EmptyString). split; [done|]. split; [cbn; lia|].
    rewrite (Z.div_small n 10) by lia. rewrite fixedDigits_zero. cbn [String.length].
    replace (S k - 1)%nat with k by lia. done.
  - rewrite Nat2Z.inj_succ, Z.pow_succ_r in Hn, Hf by lia.
    destruct k as [|k]; [cbn in Hn; lia|].
    destruct (IH fuel (n / 10) (String (digit n) acc)) as (s & Hs & Hlen & Hpad).
    + split; [apply Z.div_pos; lia|apply Z.div_lt_upper_bound; lia].
    + lia.
    + apply Z.div_lt_upper_bound; lia.
    + destruct fuel; [cbn in Hf; lia|lia].
    + exists (s +:+ String (digit n) EmptyString)%string. rewrite Hs.
      rewrite string_app_assoc. split; [done|].
      rewrite string_app_length. cbn [String.length]. split; [lia|].
      rewrite <- Hpad. replace (S (S k) - (String.length s + 1))%nat
        with (S k - String.length s)%nat by lia.
      rewrite ?string_app_assoc. reflexivity.
Qed.

Lemma appendInt_fixed v (w : nat) :
  0 <= v < 10 ^ Z.of_nat w -> (1 <= w)%nat -> appendInt v w = fixedDigits w v EmptyString.
Proof.
  intros Hv Hw. unfold appendInt. rewrite Z.abs_eq by lia.
  destruct (Z.ltb_spec v 0); [lia|].
  destruct (utoa_fixed w (S (Z.to_nat (Z.log2 v))) v EmptyString Hv Hw) as (s & Hs & Hlen & Hpad).
  - rewrite Nat2Z.inj_succ, Z2Nat.id by apply Z.log2_nonneg.
    destruct (Z.eq_dec v 0) as [->|]; [done|]. apply Z.log2_spec. lia.
  - lia.
  - rewrite Hs. rewrite <- Hpad. cbn.
    assert (forall x : string, (x +:+ EmptyString)%string = x) as Hnil.
    { induction x as [|c x IH]; [done|]. by rewrite append_cons, IH. }
    by rewrite !Hnil.
Qed.

Lemma yoe_ok doe :
  0 <= doe <= 146096 ->
  let yoe := (doe - doe / 1460 + doe / 36524 - doe / 146096) / 365 in
  0 <= yoe <= 399 /\ 365 * yoe + yoe / 4 - yoe / 100 <= doe
  /\ doe < 365 * (yoe + 1) + (yoe + 1) / 4 - (yoe + 1) / 100 + (yoe + 1) / 400.
Proof. intros H yoe. subst yoe. Z.div_mod_to_equations. lia. Qed.

Lemma daysBefore_mono a b : a < b -> daysBefore (a + 1) <= daysBefore b.
Proof. intros H. unfold daysBefore. Z.div_mod_to_equations. lia. Qed.

Lemma daysBefore_year a : daysBefore (a + 1) - daysBefore a <= 366.
Proof. unfold daysBefore. Z.div_mod_to_equations. lia. Qed.

Lemma dayKey_mono a b : 0 <= a -> a < b -> b <= 365 -> dayKey a < dayKey b.
Proof. intros Ha Hab Hb. unfold dayKey. Z.div_mod_to_equations. lia. Qed.

Lemma dayKey_range a : 0 <= a <= 365 -> 1 <= dayKey a <= 383.
Proof. intros Ha. unfold dayKey. Z.div_mod_to_equations. lia. Qed.

Lemma civil_key day :
  exists ys doy,
    day + 719468 = daysBefore ys + doy /\ 0 <= doy
    /\ day + 719468 < daysBefore (ys + 1)
    /\ dateKey (civil day) = 384 * ys + 96 + dayKey doy
    /\ 1 <= (civil day).1.2 <= 12 /\ 1 <= (civil day).2 <= 31.
Proof.
  unfold civil, dateKey, dayKey, daysBefore.
  set (z := day + 719468). set (era := z / 146097). set (doe := z - era * 146097).
  assert (Hdoe : 0 <= doe <= 146096) by (subst doe era; Z.div_mod_to_equations; lia).
  pose proof (yoe_ok doe Hdoe) as Hyoe. cbv zeta in Hyoe.
  set (yoe := (doe - doe / 1460 + doe / 36524 - doe / 146096) / 365) in *.
  set (doy := doe - (365 * yoe + yoe / 4 - yoe / 100)).
  exists (yoe + era * 400), doy.
  assert (Hdoy : 0 <= doy <= 365).
  { subst doy. destruct Hyoe as (? & ? & ?). split; [lia|].
    clearbody yoe doe. Z.div_mod_to_equations. lia. }
  set (mp := (5 * doy + 2) / 153).
  assert (Hmp : 0 <= mp <= 11) by (subst mp; clearbody doy; Z.div_mod_to_equations; lia).
  assert (Hd : 1 <= doy - (153 * mp + 2) / 5 + 1 <= 31)
    by (subst mp; clearbody doy; Z.div_mod_to_equations; lia).
  cbn [fst snd].
  assert (H4 : (yoe + era * 400) / 4 = yoe / 4 + era * 100
               /\ (yoe + era * 400 + 1) / 4 = (yoe + 1) / 4 + era * 100)
    by (clearbody yoe era; Z.div_mod_to_equations; lia).
  assert (H100 : (yoe + era * 400) / 100 = yoe / 100 + era * 4
                 /\ (yoe + era * 400 + 1) / 100 = (yoe + 1) / 100 + era * 4)
    by (clearbody yoe era; Z.div_mod_to_equations; lia).
  assert (H400 : (yoe + era * 400) / 400 = yoe / 400 + era
                 /\ (yoe + era * 400 + 1) / 400 = (yoe + 1) / 400 + era)
    by (clearbody yoe era; Z.div_mod_to_equations; lia).
  destruct H4 as [-> ->], H100 as [-> ->], H400 as [-> ->].
  assert (yoe / 400 = 0) as -> by (clearbody yoe; Z.div_mod_to_equations; lia).
  destruct Hyoe as (Hy1 & Hy2 & Hy3).
  repeat split; try (subst doy doe; lia).
  all: destruct (Z.ltb_spec mp 10);
    [destruct (Z.leb_spec (mp + 3) 2)|destruct (Z.leb_spec (mp - 9) 2)]; try lia.
Qed.

Lemma civil_mono d1 d2 : d1 < d2 -> dateKey (civil d1) < dateKey (civil d2).
Proof.
  intros Hlt.
  destruct (civil_key d1) as (ys1 & doy1 & Hz1 & Hd1 & Hn1 & -> & _).
  destruct (civil_key d2) as (ys2 & doy2 & Hz2 & Hd2 & Hn2 & -> & _).
  pose proof (daysBefore_year ys1). pose proof (daysBefore_year ys2).
  pose proof (dayKey_range doy1 ltac:(lia)). pose proof (dayKey_range doy2 ltac:(lia)).
  destruct (Z.lt_trichotomy ys1 ys2) as [Hys|[Hys|Hys]].
  - lia.
  - subst ys2. pose proof (dayKey_mono doy1 doy2 ltac:(lia) ltac:(lia) ltac:(lia)). lia.
  - pose proof (daysBefore_mono ys2 ys1 Hys). lia.
Qed.

Lemma civil_year day :
  -719528 <= day <= 2932896 -> 0 <= (civil day).1.1 <= 9999.
Proof.
  intros Hday.
  destruct (civil_key day) as (_ & _ & _ & _ & _ & _ & Hm & Hd).
  assert (Hlo : dateKey (civil (-719528)) <= dateKey (civil day)).
  { destruct (Z.eq_dec day (-719528)) as [->|]; [lia|].
    apply Z.lt_le_incl, civil_mono. lia. }
  assert (Hhi : dateKey (civil day) <= dateKey (civil 2932896)).
  { destruct (Z.eq_dec day 2932896) as [->|]; [lia|].
    apply Z.lt_le_incl, civil_mono. lia. }
  change (dateKey (civil (-719528))) with 33 in Hlo.
  change (dateKey (civil 2932896)) with ((12 * 9999 + 12) * 32 + 31) in Hhi.
  unfold dateKey in *. destruct (civil day) as [[y m] d]. cbn in *. lia.
Qed.

Lemma ascii_compare_refl c : Ascii.compare c c = Eq.
Proof. unfold Ascii.compare. apply N.compare_refl. Qed.

Lemma string_compare_refl s : String.compare s s = Eq.
Proof. induction s as [|c s IH]; [done|]. cbn. by rewrite ascii_compare_refl. Qed.

(** A zero-padded field followed by a separator, and the last field
    followed by the same text on both sides. *)
Lemma field_compare (w : nat) a b c r1 r2 :
  (1 <= w)%nat -> 0 <= a < 10 ^ Z.of_nat w -> 0 <= b < 10 ^ Z.of_nat w ->
  String.compare (appendInt a w +:+ String c r1) (appendInt b w +:+ String c r2)
  = match a ?= b with Eq => String.compare r1 r2 | o => o end.
Proof.
  intros Hw Ha Hb. rewrite !appendInt_fixed, !fixedDigits_app by done.
  rewrite fixedDigits_compare by done.
  change (EmptyString +:+ String c r1)%string with (String c r1).
  change (EmptyString +:+ String c r2)%string with (String c r2).
  cbn [String.compare]. by rewrite ascii_compare_refl.
Qed.

Lemma last_field_compare (w : nat) a b r :
  (1 <= w)%nat -> 0 <= a < 10 ^ Z.of_nat w -> 0 <= b < 10 ^ Z.of_nat w ->
  String.compare (appendInt a w +:+ r) (appendInt b w +:+ r) = (a ?= b).
Proof.
  intros Hw Ha Hb. rewrite !appendInt_fixed, !fixedDigits_app by done.
  rewrite fixedDigits_compare by done. rewrite string_compare_refl. by destruct (a ?= b).
Qed.

(** Of two instants shown at the same offset, the earlier second has the
    smaller RFC 3339 text. *)
Lemma Format_RFC3339_lt a b :
  t_offset a = t_offset b -> inYears a -> inYears b -> t_sec a < t_sec b ->
  String.compare (Format_RFC3339 a) (Format_RFC3339 b) = Lt.
Proof.
  unfold inYears, Format_RFC3339, dateTime. intros Hoff Ha Hb Hlt. rewrite <- Hoff.
  set (z := zoneSuffix (t_offset a)). rewrite <- Hoff in Hb.
  set (l1 := t_sec a + t_offset a) in *. set (l2 := t_sec b + t_offset a) in *.
  assert (Hl : l1 < l2) by (subst l1 l2; lia). clearbody l1 l2 z. clear a b Hoff Hlt.
  assert (Hday1 : -719528 <= l1 / 86400 <= 2932896) by (Z.div_mod_to_equations; lia).
  assert (Hday2 : -719528 <= l2 / 86400 <= 2932896) by (Z.div_mod_to_equations; lia).
  pose proof (civil_year _ Hday1) as Hy1. pose proof (civil_year _ Hday2) as Hy2.
  destruct (civil_key (l1 / 86400)) as (_ & _ & _ & _ & _ & _ & Hm1 & Hd1).
  destruct (civil_key (l2 / 86400)) as (_ & _ & _ & _ & _ & _ & Hm2 & Hd2).
  assert (Hkey : dateKey (civil (l1 / 86400)) < dateKey (civil (l2 / 86400))
                 \/ (civil (l1 / 86400) = civil (l2 / 86400)
                     /\ l1 mod 86400 < l2 mod 86400)).
  { destruct (Z.eq_dec (l1 / 86400) (l2 / 86400)) as [Heq|Hne].
    - right. rewrite Heq. split; [done|]. Z.div_mod_to_equations. lia.
    - left. apply civil_mono. Z.div_mod_to_equations. lia. }
  unfold dateKey in Hkey.
  destruct (civil (l1 / 86400)) as [[y1 m1] d1], (civil (l2 / 86400)) as [[y2 m2] d2].
  cbn [fst snd] in *.
  set (s1 := l1 mod 86400) in *. set (s2 := l2 mod 86400) in *.
  assert (Hs1 : 0 <= s1 < 86400) by (subst s1; apply Z.mod_pos_bound; lia).
  assert (Hs2 : 0 <= s2 < 86400) by (subst s2; apply Z.mod_pos_bound; lia).
  clearbody s1 s2.
  rewrite !string_app_assoc.
  repeat match goal with
  | |- context [(String ?c EmptyString +:+ ?r)%string] =>
      change (String c EmptyString +:+ r)%string with (String c r)
  end.
  rewrite !field_compare, last_field_compare;
    try lia; try (change (10 ^ Z.of_nat 4) with 10000); try (change (10 ^ Z.of_nat 2) with 100);
    try (Z.div_mod_to_equations; lia).
  destruct Hkey as [Hkey|[[= -> -> ->] Hs]].
  - destruct (Z.compare_spec y1 y2); [|done|lia].
    destruct (Z.compare_spec m1 m2); [|done|lia].
    destruct (Z.compare_spec d1 d2); [lia|done|lia].
  - rewrite !Z.compare_refl.
    destruct (Z.compare_spec (s1 / 3600) (s2 / 3600)); [|done|Z.div_mod_to_equations; lia].
    destruct (Z.compare_spec (s1 / 60 mod 60) (s2 / 60 mod 60));
      [|done|Z.div_mod_to_equations; lia].
    destruct (Z.compare_spec (s1 mod 60) (s2 mod 60)); [|done|Z.div_mod_to_equations; lia].
    exfalso. Z.div_mod_to_equations. lia.
Qed.

End TimeOrder.

Section ListingOrder.
Variable env : gmap string string.

(** X25.  Among jobs enqueued at one UTC offset, in the years 0000 to 9999,
    the listing is newest first by the second: of two adjacent entries, the
    second one was not enqueued in a later second than the first. *)
Theorem listing_newest_first_in_one_zone (fs0 : FS) l i e1 e2 t1 t2 :
  listJobs env fs0 = EncodeJobs l -> l !! i = Some e1 -> l !! S i = Some e2 ->
  e_EnqueuedAt e1 = Format_RFC3339 t1 -> e_EnqueuedAt e2 = Format_RFC3339 t2 ->
  t_offset t1 = t_offset t2 -> inYears t1 -> inYears t2 ->
  (t_sec t2 <= t_sec t1)%Z.
Proof.
  intros Hl H1 H2 Ht1 Ht2 Hoff Hy1 Hy2. unfold listJobs in Hl.
  destruct (os_ReadDir fs0 [getJobsDir env]) as [entries|]; [|done]. injection Hl as <-.
  pose proof (sort_Slice_sorted byEnqueuedAtDesc _ i e1 e2
                (fun a b => string_gt_asym _ _) H1 H2) as Hs.
  unfold byEnqueuedAtDesc, string_gt in Hs. rewrite Ht1, Ht2 in Hs.
  destruct (Z.le_gt_cases (t_sec t2) (t_sec t1)) as [|Hlt]; [done|].
  pose proof (Format_RFC3339_lt t1 t2 Hoff Hy1 Hy2 Hlt) as Hc.
  rewrite String.compare_antisym, Hc in Hs. done.
Qed.

End ListingOrder.

(** * The further properties on concrete runs *)

(** With no [BASE_URL], the log URL handed out for job [a] is [/jobs/a/log],
    and a GET of it is answered by the log endpoint for [a]. *)
Lemma reply_urls_route_back_witness :
  hasByte "/" "a" = false /\ getenv ∅ "BASE_URL" = EmptyString
  /\ jobsHandler ∅ [] "GET" "/jobs/a/log" echoRequest "x" noon init
     = (init, Some (jobHandler ∅ "GET" ["a"; "log"]%string init).2).
Proof.
  assert (getenv ∅ "BASE_URL" = EmptyString) as Hbase by reflexivity.
  split; [reflexivity|]. split; [exact Hbase|].
  destruct (reply_urls_route_back ∅ [] "GET" echoRequest "x" noon init "a" eq_refl Hbase)
    as (m & Hm & Hk).
  destruct (Hk "log_url" "log")%string as (url & Hurl & Hres).
  { right. right. left. }
  injection Hm as <-. vm_compute in Hurl. injection Hurl as <-. exact Hres.
Defined.

(** [GET /jobs/a] is not found. *)
Lemma job_path_needs_endpoint_witness :
  hasByte "/" "a" = false
  /\ jobsHandler ∅ [] "GET" "/jobs/a" echoRequest "x" noon init = (init, Some http_NotFound).
Proof.
  split; [reflexivity|].
  exact (job_path_needs_endpoint ∅ [] "GET" "a" echoRequest "x" noon init eq_refl).
Defined.

(** [/jobs/a/status/more] is handled as [/jobs/a/status]. *)
Lemma path_tail_ignored_witness :
  hasByte "/" "a" = false /\ hasByte "/" "status" = false
  /\ "status"%string <> "result"%string /\ "status"%string <> "log"%string
  /\ jobsHandler ∅ [] "GET" "/jobs/a/status/more" echoRequest "x" noon init
     = jobsHandler ∅ [] "GET" "/jobs/a/status" echoRequest "x" noon init.
Proof.
  assert ("status"%string <> "result"%string) as Hr by discriminate.
  assert ("status"%string <> "log"%string) as Hl by discriminate.
  split; [reflexivity|]. split; [reflexivity|]. split; [exact Hr|]. split; [exact Hl|].
  exact (path_tail_ignored ∅ [] "GET" "a" "status" "more" echoRequest "x" noon init
           eq_refl eq_refl Hr Hl).
Defined.

(** A cancellation of the running job [a] leaves the file system as it was. *)
Lemma requests_change_only_by_post_or_cancel_witness :
  ~ ("/jobs/a/cancel" = "/jobs" /\ "PUT" = "POST")%string
  /\ ((jobsHandler ∅ [] "PUT" "/jobs/a/cancel" echoRequest "x" noon
         (stateAfter runningRun)).1 = stateAfter runningRun
      \/ fs (jobsHandler ∅ [] "PUT" "/jobs/a/cancel" echoRequest "x" noon
               (stateAfter runningRun)).1 = fs (stateAfter runningRun)).
Proof.
  assert (~ ("/jobs/a/cancel" = "/jobs" /\ "PUT" = "POST")%string) as Hn
    by (intros [H _]; discriminate H).
  split; [exact Hn|].
  destruct (requests_change_only_by_post_or_cancel ∅ [] "PUT" "/jobs/a/cancel" echoRequest
              "x" noon (stateAfter runningRun) Hn) as [H|(_ & H & _)].
  - left. exact H.
  - right. exact H.
Defined.

(** [echo hi] is still the argument vector on record when the job has
    completed and its webhook has been sent. *)
Lemma submitted_fields_never_change_witness :
  reachable ∅ [] (stateAfter submittedRun)
  /\ exec ∅ [] afterSubmission (stateAfter submittedRun) = Some (stateAfter completedRun)
  /\ loadMeta ∅ (fs (stateAfter submittedRun)) "a" = Some (recordOf (stateAfter submittedRun) "a")
  /\ exists m', loadMeta ∅ (fs (stateAfter completedRun)) "a" = Some m'
       /\ Args m' = ["echo"; "hi"]%string.
Proof.
  assert (reachable ∅ [] (stateAfter submittedRun)) as Hr by by_run submittedRun.
  assert (exec ∅ [] afterSubmission (stateAfter submittedRun) = Some (stateAfter completedRun))
    as Hex by (vm_compute; reflexivity).
  assert (loadMeta ∅ (fs (stateAfter submittedRun)) "a"
          = Some (recordOf (stateAfter submittedRun) "a")) as Hm by (vm_compute; reflexivity).
  split; [exact Hr|]. split; [exact Hex|]. split; [exact Hm|].
  destruct (submitted_fields_never_change ∅ [] _ _ _ "a" _ Hr Hex Hm)
    as (m' & Hm' & _ & Hargs & _).
  exists m'. split; [exact Hm'|]. rewrite Hargs. vm_compute. reflexivity.
Defined.

(** The process identifier 4242 recorded at the start is on record after the
    job has ended. *)
Lemma start_time_and_pid_never_change_witness :
  reachable ∅ [] (stateAfter runningRun)
  /\ exec ∅ [] exitAfterCancel (stateAfter runningRun)
     = Some (stateAfter (runningRun ++ exitAfterCancel))
  /\ loadMeta ∅ (fs (stateAfter runningRun)) "a" = Some (recordOf (stateAfter runningRun) "a")
  /\ Status (recordOf (stateAfter runningRun) "a") <> "IN_QUEUE"%string
  /\ exists m', loadMeta ∅ (fs (stateAfter (runningRun ++ exitAfterCancel))) "a" = Some m'
       /\ PID m' = 4242%Z.
Proof.
  assert (reachable ∅ [] (stateAfter runningRun)) as Hr by by_run runningRun.
  assert (exec ∅ [] exitAfterCancel (stateAfter runningRun)
          = Some (stateAfter (runningRun ++ exitAfterCancel))) as Hex
    by (vm_compute; reflexivity).
  assert (loadMeta ∅ (fs (stateAfter runningRun)) "a"
          = Some (recordOf (stateAfter runningRun) "a")) as Hm by (vm_compute; reflexivity).
  assert (Status (recordOf (stateAfter runningRun) "a") <> "IN_QUEUE"%string) as Hst
    by (vm_compute; discriminate).
  split; [exact Hr|]. split; [exact Hex|]. split; [exact Hm|]. split; [exact Hst|].
  destruct (start_time_and_pid_never_change ∅ [] _ _ _ "a" _ Hr Hex Hm Hst)
    as (m' & Hm' & _ & Hpid).
  exists m'. split; [exact Hm'|]. rewrite Hpid. vm_compute. reflexivity.
Defined.

(** A cancellation request for a completed job leaves its record as it was. *)
Lemma finished_record_is_final_witness :
  reachable ∅ [] (stateAfter completedRun)
  /\ exec ∅ [] [Handle "PUT" ["a"; "cancel"]%string] (stateAfter completedRun)
     = Some (stateAfter (completedRun ++ [Handle "PUT" ["a"; "cancel"]%string]))
  /\ loadMeta ∅ (fs (stateAfter completedRun)) "a"
     = Some (recordOf (stateAfter completedRun) "a")
  /\ terminal (Status (recordOf (stateAfter completedRun) "a"))
  /\ loadMeta ∅ (fs (stateAfter (completedRun ++ [Handle "PUT" ["a"; "cancel"]%string]))) "a"
     = Some (recordOf (stateAfter completedRun) "a").
Proof.
  assert (reachable ∅ [] (stateAfter completedRun)) as Hr by by_run completedRun.
  assert (exec ∅ [] [Handle "PUT" ["a"; "cancel"]%string] (stateAfter completedRun)
          = Some (stateAfter (completedRun ++ [Handle "PUT" ["a"; "cancel"]%string]))) as Hex
    by (vm_compute; reflexivity).
  assert (loadMeta ∅ (fs (stateAfter completedRun)) "a"
          = Some (recordOf (stateAfter completedRun) "a")) as Hm by (vm_compute; reflexivity).
  assert (terminal (Status (recordOf (stateAfter completedRun) "a"))) as Ht
    by (left; vm_compute; reflexivity).
  split; [exact Hr|]. split; [exact Hex|]. split; [exact Hm|]. split; [exact Ht|].
  exact (finished_record_is_final ∅ [] _ _ _ "a" _ Hr Hex Hm Ht).
Defined.


(** A server started as [server sh -c] has started a job submitted without
    arguments and still runs. *)
Lemma fixed_command_never_crashes_witness :
  (1 < length ("server" :: shell)%string)%nat
  /\ reachable ∅ (main_fixedArgs ("server" :: shell)%string) shellState
  /\ crashed shellState = false.
Proof.
  assert (1 < length ("server" :: shell)%string)%nat as Hs by (cbn; lia).
  assert (reachable ∅ (main_fixedArgs ("server" :: shell)%string) shellState) as Hr
    by (exists shellRun; vm_compute; reflexivity).
  split; [exact Hs|]. split; [exact Hr|].
  exact (fixed_command_never_crashes ∅ _ shellState Hs Hr).
Defined.

(** The log of a completed job is served. *)
Lemma log_available_once_started_witness :
  reachable ∅ [] (stateAfter completedRun)
  /\ persistedStatus ∅ (stateAfter completedRun) "a" = Some "COMPLETED"%string
  /\ "COMPLETED"%string <> "IN_QUEUE"%string
  /\ exists out, (jobHandler ∅ "GET" ["a"; "log"]%string (stateAfter completedRun)).2
                 = ServeContent (Bytes out).
Proof.
  assert (reachable ∅ [] (stateAfter completedRun)) as Hr by by_run completedRun.
  assert (persistedStatus ∅ (stateAfter completedRun) "a" = Some "COMPLETED"%string) as Hst
    by (vm_compute; reflexivity).
  assert ("COMPLETED"%string <> "IN_QUEUE"%string) as Hne by discriminate.
  split; [exact Hr|]. split; [exact Hst|]. split; [exact Hne|].
  destruct (proj2 (log_available_once_started ∅ [] _ "GET" "a" [] Hr) _ Hst Hne)
    as (out & _ & Hresp).
  exists out. exact Hresp.
Defined.

(** A job waiting for its start is on record without a start time. *)
Lemma timestamps_follow_status_witness :
  reachable ∅ [] (stateAfter spawnPending)
  /\ loadMeta ∅ (fs (stateAfter spawnPending)) "b" = Some (recordOf (stateAfter spawnPending) "b")
  /\ Status (recordOf (stateAfter spawnPending) "b") = "IN_QUEUE"%string
  /\ StartedAt (recordOf (stateAfter spawnPending) "b") = zeroTime.
Proof.
  assert (reachable ∅ [] (stateAfter spawnPending)) as Hr by by_run spawnPending.
  assert (loadMeta ∅ (fs (stateAfter spawnPending)) "b"
          = Some (recordOf (stateAfter spawnPending) "b")) as Hm by (vm_compute; reflexivity).
  assert (Status (recordOf (stateAfter spawnPending) "b") = "IN_QUEUE"%string) as Hst
    by (vm_compute; reflexivity).
  split; [exact Hr|]. split; [exact Hm|]. split; [exact Hst|].
  exact (proj1 (proj1 (timestamps_follow_status ∅ [] _ "b" _ Hr Hm) Hst)).
Defined.

(** The registered job [a] is on record as IN_PROGRESS. *)
Lemma registry_holds_running_jobs_witness :
  reachable ∅ [] (stateAfter runningRun)
  /\ runningJobs (stateAfter runningRun) !! "a"%string = Some (mkRunningJob "a" "a" "a")
  /\ exists m, loadMeta ∅ (fs (stateAfter runningRun)) "a" = Some m
       /\ Status m = "IN_PROGRESS"%string.
Proof.
  assert (reachable ∅ [] (stateAfter runningRun)) as Hr by by_run runningRun.
  assert (runningJobs (stateAfter runningRun) !! "a"%string = Some (mkRunningJob "a" "a" "a"))
    as Hrj by (vm_compute; reflexivity).
  split; [exact Hr|]. split; [exact Hrj|].
  destruct (registry_holds_running_jobs ∅ [] _ "a" _ Hr Hrj) as (_ & m & Hm & Hst & _).
  exists m. split; [exact Hm|exact Hst].
Defined.

(** A cancellation of a job that has not been started is answered 200 and
    changes nothing. *)
Lemma cancel_outside_registry_is_ignored_witness :
  reachable ∅ [] (stateAfter spawnPending)
  /\ persistedStatus ∅ (stateAfter spawnPending) "b" <> Some "IN_PROGRESS"%string
  /\ jobHandler ∅ "PUT" ["b"; "cancel"]%string (stateAfter spawnPending)
     = (stateAfter spawnPending, WriteHeader StatusOK).
Proof.
  assert (reachable ∅ [] (stateAfter spawnPending)) as Hr by by_run spawnPending.
  assert (persistedStatus ∅ (stateAfter spawnPending) "b" <> Some "IN_PROGRESS"%string) as Hst
    by (vm_compute; discriminate).
  split; [exact Hr|]. split; [exact Hst|].
  exact (cancel_outside_registry_is_ignored ∅ [] _ "b" [] Hr Hst).
Defined.

(** A running job is canceled and its process then exits cleanly: the record
    says CANCELED. *)
Lemma cancel_of_running_job_decides_status_witness :
  reachable ∅ [] (stateAfter runningRun)
  /\ crashed (stateAfter runningRun) = false
  /\ is_Some (runningJobs (stateAfter runningRun) !! "a"%string)
  /\ exec ∅ [] exitAfterCancel
       (jobHandler ∅ "PUT" ["a"; "cancel"]%string (stateAfter runningRun)).1
     = Some (stateAfter (runningRun ++ Handle "PUT" ["a"; "cancel"]%string :: exitAfterCancel))
  /\ persistedStatus ∅
       (stateAfter (runningRun ++ Handle "PUT" ["a"; "cancel"]%string :: exitAfterCancel)) "a"
     = Some "CANCELED"%string.
Proof.
  assert (reachable ∅ [] (stateAfter runningRun)) as Hr by by_run runningRun.
  assert (crashed (stateAfter runningRun) = false) as Hcr by (vm_compute; reflexivity).
  assert (is_Some (runningJobs (stateAfter runningRun) !! "a"%string)) as Hrj
    by (vm_compute; eexists; reflexivity).
  assert (exec ∅ [] exitAfterCancel
            (jobHandler ∅ "PUT" ["a"; "cancel"]%string (stateAfter runningRun)).1
          = Some (stateAfter (runningRun ++ Handle "PUT" ["a"; "cancel"]%string
                                :: exitAfterCancel))) as Hex by (vm_compute; reflexivity).
  split; [exact Hr|]. split; [exact Hcr|]. split; [exact Hrj|]. split; [exact Hex|].
  assert (exists st, persistedStatus ∅
            (stateAfter (runningRun ++ Handle "PUT" ["a"; "cancel"]%string :: exitAfterCancel))
            "a" = Some st /\ terminal st) as (st & Hst & Ht).
  { eexists. split; [vm_compute; reflexivity|]. right. right. reflexivity. }
  rewrite Hst. f_equal.
  exact (cancel_of_running_job_decides_status ∅ [] _ "a" [] _ _ st Hr Hcr Hrj Hex Hst Ht).
Defined.

(** After a completed run with its webhook sent, one webhook at most is
    counted for the job. *)
Lemma one_webhook_per_finished_run_witness :
  reachable ∅ [] (stateAfter completedRun)
  /\ jobs (stateAfter completedRun) !! "a"%string = Some (jobOf (stateAfter completedRun) "a")
  /\ hookCount (stateAfter completedRun) "a" <= 1.
Proof.
  assert (reachable ∅ [] (stateAfter completedRun)) as Hr by by_run completedRun.
  assert (jobs (stateAfter completedRun) !! "a"%string
          = Some (jobOf (stateAfter completedRun) "a")) as Hj by (vm_compute; reflexivity).
  split; [exact Hr|]. split; [exact Hj|].
  exact (proj1 (one_webhook_per_finished_run ∅ [] _ "a" _ Hr Hj)).
Defined.

(** After [cat] has run on a staged input, the staged file is gone. *)
Lemma staged_input_removed_after_run_witness :
  reachable ∅ [] (stateAfter catRun)
  /\ loadMeta ∅ (fs (stateAfter catRun)) "c" = Some (recordOf (stateAfter catRun) "c")
  /\ terminal (Status (recordOf (stateAfter catRun) "c"))
  /\ PID (recordOf (stateAfter catRun) "c") <> 0%Z
  /\ os_ReadFile (fs (stateAfter catRun)) (inputPath ∅ "c") = None.
Proof.
  assert (reachable ∅ [] (stateAfter catRun)) as Hr by by_run catRun.
  assert (loadMeta ∅ (fs (stateAfter catRun)) "c" = Some (recordOf (stateAfter catRun) "c"))
    as Hm by (vm_compute; reflexivity).
  assert (terminal (Status (recordOf (stateAfter catRun) "c"))) as Ht
    by (left; vm_compute; reflexivity).
  assert (PID (recordOf (stateAfter catRun) "c") <> 0%Z) as Hp by (vm_compute; discriminate).
  split; [exact Hr|]. split; [exact Hm|]. split; [exact Ht|]. split; [exact Hp|].
  exact (staged_input_removed_after_run ∅ [] _ "c" _ Hr Hm Ht Hp).
Defined.


(** A submission without arguments to a server without a fixed command: the
    start of the job ends the server. *)
Lemma empty_args_stop_the_server_witness :
  reachable ∅ [] init /\ crashed init = false /\ queue init = []
  /\ jobs init !! "z"%string = None
  /\ r_decoded emptyRequest = Some (mkSubmitReq [] EmptyString EmptyString)
  /\ exists s', exec ∅ [] [Submit emptyRequest "z" noon; Send "z"; Dispatch;
                           Start "z" (Started 5) (later noon 1)]%string init = Some s'
       /\ crashed s' = true.
Proof.
  assert (reachable ∅ [] init) as Hr by (exists []; reflexivity).
  split; [exact Hr|]. split; [reflexivity|]. split; [reflexivity|]. split; [reflexivity|].
  split; [reflexivity|].
  destruct (empty_args_stop_the_server ∅ init emptyRequest _ "z" noon (Started 5)
              (later noon 1) Hr eq_refl eq_refl eq_refl eq_refl eq_refl)
    as (s' & Hex & Hcr & _).
  exists s'. split; [exact Hex|exact Hcr].
Defined.

(** The result of the completed [echo hi] is what the process wrote to its
    standard output. *)
Lemma result_and_log_are_the_child_output_witness :
  exec ∅ [] completedRun init = Some (stateAfter completedRun)
  /\ persistedStatus ∅ (stateAfter completedRun) "a" = Some "COMPLETED"%string
  /\ (jobHandler ∅ "GET" ["a"; "result"]%string (stateAfter completedRun)).2
     = ServeContent (Bytes hi).
Proof.
  assert (exec ∅ [] completedRun init = Some (stateAfter completedRun)) as Hex
    by (vm_compute; reflexivity).
  assert (persistedStatus ∅ (stateAfter completedRun) "a" = Some "COMPLETED"%string) as Hst
    by (vm_compute; reflexivity).
  split; [exact Hex|]. split; [exact Hst|].
  exact (proj1 (result_and_log_are_the_child_output ∅ [] completedRun _ "a" Hex) Hst).
Defined.

(** After two submissions the listing is produced and names no job twice. *)
Lemma listing_has_every_job_witness :
  os_TempDir ∅ <> getJobsDir ∅ /\ reachable ∅ [] (stateAfter twoJobs)
  /\ jobs (stateAfter twoJobs) <> ∅
  /\ exists l, listJobs ∅ (fs (stateAfter twoJobs)) = EncodeJobs l /\ NoDup (e_ID <$> l).
Proof.
  assert (os_TempDir ∅ <> getJobsDir ∅) as Htmp by (vm_compute; discriminate).
  assert (reachable ∅ [] (stateAfter twoJobs)) as Hr by by_run twoJobs.
  assert (jobs (stateAfter twoJobs) <> ∅) as Hne.
  { intros He. assert (jobs (stateAfter twoJobs) !! "a"%string = None) as Hn
      by (rewrite He; apply lookup_empty). vm_compute in Hn. discriminate Hn. }
  split; [exact Htmp|]. split; [exact Hr|]. split; [exact Hne|].
  destruct (listing_has_every_job ∅ [] _ Htmp Hr Hne) as (l & Hl & Hnd & _).
  exists l. split; [exact Hl|exact Hnd].
Defined.

(** A fresh server answers the listing with 500. *)
Lemma listing_fails_before_first_submission_witness :
  reachable ∅ [] init /\ jobs init = ∅
  /\ listJobs ∅ (fs init) = Error "Failed to read jobs directory" StatusInternalServerError.
Proof.
  assert (reachable ∅ [] init) as Hr by (exists []; reflexivity).
  split; [exact Hr|]. split; [reflexivity|].
  exact (listing_fails_before_first_submission ∅ [] init Hr eq_refl).
Defined.

(** Of two jobs submitted five seconds apart at UTC, the later one is listed
    first. *)
Lemma listing_newest_first_in_one_zone_witness :
  listJobs ∅ (fs (stateAfter twoJobs)) = EncodeJobs (listingOf (fs (stateAfter twoJobs)))
  /\ listingOf (fs (stateAfter twoJobs)) !! 0%nat
     = Some (entryAt (listingOf (fs (stateAfter twoJobs))) 0)
  /\ listingOf (fs (stateAfter twoJobs)) !! 1%nat
     = Some (entryAt (listingOf (fs (stateAfter twoJobs))) 1)
  /\ e_EnqueuedAt (entryAt (listingOf (fs (stateAfter twoJobs))) 0)
     = Format_RFC3339 (later noon 5)
  /\ e_EnqueuedAt (entryAt (listingOf (fs (stateAfter twoJobs))) 1) = Format_RFC3339 noon
  /\ t_offset (later noon 5) = t_offset noon /\ inYears (later noon 5) /\ inYears noon
  /\ (t_sec noon <= t_sec (later noon 5))%Z.
Proof.
  assert (listJobs ∅ (fs (stateAfter twoJobs))
          = EncodeJobs (listingOf (fs (stateAfter twoJobs)))) as Hl by (vm_compute; reflexivity).
  assert (listingOf (fs (stateAfter twoJobs)) !! 0%nat
          = Some (entryAt (listingOf (fs (stateAfter twoJobs))) 0)) as H0
    by (vm_compute; reflexivity).
  assert (listingOf (fs (stateAfter twoJobs)) !! 1%nat
          = Some (entryAt (listingOf (fs (stateAfter twoJobs))) 1)) as H1
    by (vm_compute; reflexivity).
  assert (e_EnqueuedAt (entryAt (listingOf (fs (stateAfter twoJobs))) 0)
          = Format_RFC3339 (later noon 5)) as Ht0 by (vm_compute; reflexivity).
  assert (e_EnqueuedAt (entryAt (listingOf (fs (stateAfter twoJobs))) 1)
          = Format_RFC3339 noon) as Ht1 by (vm_compute; reflexivity).
  assert (inYears (later noon 5)) as Hy0 by (unfold inYears; cbn; lia).
  assert (inYears noon) as Hy1 by (unfold inYears; cbn; lia).
  split; [exact Hl|]. split; [exact H0|]. split; [exact H1|]. split; [exact Ht0|].
  split; [exact Ht1|]. split; [reflexivity|]. split; [exact Hy0|]. split; [exact Hy1|].
  exact (listing_newest_first_in_one_zone ∅ _ _ 0%nat _ _ _ _ Hl H0 H1 Ht0 Ht1 eq_refl Hy0 Hy1).
Defined.

(** A canceled job is recorded as CANCELED whether its process exits
    cleanly or not; a job that was not canceled is recorded as FAILED when
    [cmd.Wait] returns an error and as COMPLETED when it does not. *)
Lemma terminal_status_priority_witness :
  exitRecorded true false "CANCELED" /\ exitRecorded true true "CANCELED"
  /\ exitRecorded false true "FAILED" /\ exitRecorded false false "COMPLETED".
Proof.
  assert (forall c e, exitRecorded c e
            (if c then "CANCELED" else if e then "FAILED" else "COMPLETED")%string) as H.
  { intros c e.
    assert (reachable ∅ [] (stateAfter (atWait c))) as Hr
      by (destruct c; [by_run (atWait true)|by_run (atWait false)]).
    assert (step ∅ [] (WaitReturns "a" e (later noon 2)) (stateAfter (atWait c))
            = Some (stateAfter (atWait c ++ [WaitReturns "a" e (later noon 2)]%string)))
      as Hstep by (destruct c, e; vm_compute; reflexivity).
    split; [exact Hr|]. split; [exact Hstep|].
    destruct (terminal_status_priority ∅ [] _ "a" e _ _ Hr Hstep) as (_ & _ & Hall).
    destruct (Hall [Unregister "a"; Cleanup "a"]%string
                (stateAfter (atWait c ++ [WaitReturns "a" e (later noon 2);
                                          Unregister "a"; Cleanup "a"]%string))
                (stateAfter (exitsWith c e)))
      as (j2 & Hj2 & _ & Hst).
    { destruct c, e; vm_compute; reflexivity. }
    { destruct c, e; vm_compute; reflexivity. }
    destruct c, e; vm_compute in Hj2; injection Hj2 as <-; exact Hst. }
  split; [exact (H true false)|]. split; [exact (H true true)|].
  split; [exact (H false true)|exact (H false false)].
Defined.

(** [missingBinaryOnly] submitted to a fresh server of the earlier revision:
    after the failed start the record has no start time. *)
Lemma main_go_failed_spawn_sets_no_time_witness :
  jobs init !! "b"%string = None /\ queue init = []
  /\ r_decoded missingBinaryOnly
     = Some (mkSubmitReq ["/nonexistent-binary"]%string EmptyString hook)
  /\ ["/nonexistent-binary"]%string <> []
  /\ fs init !! MainGo.metaPath "b" <> Some Dir
  /\ exists s1 s2 s3,
       submitJob_send "b" (MainGo.submitJob_accept missingBinaryOnly "b" noon init).1 = Some s1
       /\ workerLoop s1 = Some s2
       /\ MainGo.runJob_start "b" StartError (later noon 1) s2 = Some s3
       /\ exists meta, MainGo.loadMeta (fs s3) "b" = Some meta
            /\ Status meta = "FAILED"%string
            /\ StartedAt meta = zeroTime /\ CompletedAt meta = zeroTime.
Proof.
  assert (["/nonexistent-binary"]%string <> []) as Hargs by discriminate.
  assert (fs init !! MainGo.metaPath "b" <> Some Dir) as Hd by (vm_compute; discriminate).
  assert (forall c, fs init !! ["jobs"%string] <> Some (File c)) as H1
    by (intros c; vm_compute; discriminate).
  assert (forall c, fs init !! ["jobs"%string; "b"%string] <> Some (File c)) as H2
    by (intros c; vm_compute; discriminate).
  split; [reflexivity|]. split; [reflexivity|]. split; [reflexivity|].
  split; [exact Hargs|]. split; [exact Hd|].
  destruct (main_go_failed_spawn_sets_no_time init missingBinaryOnly _ "b" noon (later noon 1)
              eq_refl eq_refl eq_refl Hargs H1 H2 Hd)
    as (s1 & s2 & s3 & Hs1 & _ & Hs2 & Hs3 & meta & Hl & Hst & _ & Ht1 & Ht2).
  exists s1, s2, s3. split; [exact Hs1|]. split; [exact Hs2|]. split; [exact Hs3|].
  exists meta. split; [exact Hl|]. split; [exact Hst|]. split; [exact Ht1|exact Ht2].
Defined.


(** The record of the submitted [echo hi], saved as CANCELED, is read
    back. *)
Lemma saveMeta_loadMeta_witness :
  fs (stateAfter submittedRun) !! [getJobsDir ∅; "a"%string] = Some Dir
  /\ fs (stateAfter submittedRun)
       !! metaPath ∅ (ID (set_Status "CANCELED" (recordOf (stateAfter submittedRun) "a")))
     <> Some Dir
  /\ pathElement "a" = true
  /\ recordRoundTrips (set_Status "CANCELED" (recordOf (stateAfter submittedRun) "a")) = true
  /\ loadMeta ∅
       (fs (saveMeta ∅ (set_Status "CANCELED" (recordOf (stateAfter submittedRun) "a"))
              (stateAfter submittedRun))) "a"
     = Some (set_Status "CANCELED" (recordOf (stateAfter submittedRun) "a")).
Proof.
  assert (fs (stateAfter submittedRun) !! [getJobsDir ∅; "a"%string] = Some Dir) as Hdir
    by (vm_compute; reflexivity).
  assert (fs (stateAfter submittedRun)
            !! metaPath ∅ (ID (set_Status "CANCELED" (recordOf (stateAfter submittedRun) "a")))
          <> Some Dir) as Hd by (vm_compute; discriminate).
  assert (recordRoundTrips (set_Status "CANCELED" (recordOf (stateAfter submittedRun) "a"))
          = true) as Hm by (vm_compute; reflexivity).
  split; [exact Hdir|]. split; [exact Hd|]. split; [reflexivity|]. split; [exact Hm|].
  exact (proj1 (saveMeta_loadMeta ∅ (stateAfter submittedRun)
                  (set_Status "CANCELED" (recordOf (stateAfter submittedRun) "a"))
                  Hdir Hd eq_refl Hm)).
Defined.

(** Both waiting jobs are in the queue, once each, and on record as
    IN_QUEUE. *)
Lemma queue_holds_waiting_jobs_witness :
  reachable ∅ [] (stateAfter queuedRun)
  /\ queue (stateAfter queuedRun) = [("a", []); ("b", [])]%string
  /\ length (queue (stateAfter queuedRun)) <= queueCapacity
  /\ NoDup (queue (stateAfter queuedRun)).*1
  /\ persistedStatus ∅ (stateAfter queuedRun) "a" = Some "IN_QUEUE"%string
  /\ persistedStatus ∅ (stateAfter queuedRun) "b" = Some "IN_QUEUE"%string.
Proof.
  assert (reachable ∅ [] (stateAfter queuedRun)) as Hr by by_run queuedRun.
  assert (queue (stateAfter queuedRun) = [("a", []); ("b", [])]%string) as Hq
    by (vm_compute; reflexivity).
  split; [exact Hr|]. split; [exact Hq|].
  destruct (queue_holds_waiting_jobs ∅ [] _ Hr) as (Hlen & Hnd & Hst).
  split; [exact Hlen|]. split; [exact Hnd|]. split.
  - apply (Hst "a"%string []). rewrite Hq. left.
  - apply (Hst "b"%string []). rewrite Hq. right. left.
Defined.

